(** * LS-8 emulator: a shallow embedding of [cpu.py]

    The [CPU] class of [python-app/cpu.py] is embedded as a record of its
    attributes together with a state-and-exception monad.  Python integers
    are unbounded, so every cell is a [Z]; masking with [0b11111111] is
    written out wherever the source writes it, and nowhere else.  Python
    list subscripts accept a negative index (counted from the end) and
    raise [IndexError] outside [-len, len): [py_index] spells that out.

    The wall clock enters [run] as an input, the outcome of each timer
    check.  Standard output is CPython's default text stream: UTF-8 with
    the [strict] error handler; [str] of an [int] has the default limit
    of 4300 digits.  Of [keyboard.py] only the effect of one poll that
    read a character is embedded ([Keyboard_poll]); the thread and its
    interleaving with the loop are not, so the statements about [cycle]
    and [run] are about stretches of execution in which the keyboard
    stores nothing.  Not embedded either: the [sleep] of [run], the
    command line of [emulator.py], and the text parsing of [load]. *)

From Stdlib Require Import ZArith String Ascii Lia DecimalPos.
From stdpp Require Import base list.

Open Scope Z_scope.

(** ** Python primitives *)

Module Py.

(** Exceptions the embedded code can raise. *)
Inductive exn : Set :=
  IndexError | ValueError | TypeError | OverflowError | UnicodeEncodeError.

(** [l[i]]: position of subscript [i] in a list of length [n]. *)
Definition py_index (n : nat) (i : Z) : option nat :=
  if (0 <=? i) && (i <? Z.of_nat n) then Some (Z.to_nat i)
  else if (- Z.of_nat n <=? i) && (i <? 0) then Some (Z.to_nat (Z.of_nat n + i))
  else None.

Definition getitem (l : list Z) (i : Z) : option Z :=
  match py_index (length l) i with
  | Some k => l !! k
  | None => None
  end.

Definition setitem (l : list Z) (i : Z) (v : Z) : option (list Z) :=
  match py_index (length l) i with
  | Some k => Some (<[k:=v]> l)
  | None => None
  end.

(** [range(start, stop)] and [range(start, stop, -1)]. *)
Definition range (start stop : Z) : list Z :=
  map (fun k => start + Z.of_nat k) (seq 0 (Z.to_nat (stop - start))).

Definition range_down (start stop : Z) : list Z :=
  map (fun k => start - Z.of_nat k) (seq 0 (Z.to_nat (start - stop))).

(** A [str] is its sequence of code points. *)
Definition str := list Z.

Definition lit (s : string) : str :=
  map (fun c => Z.of_N (N_of_ascii c)) (list_ascii_of_string s).

(** [chr(n)]: defined on [range(0x110000)]. *)
Definition chr (n : Z) : option str :=
  if (0 <=? n) && (n <? 0x110000) then Some [n] else None.

(** What [chr(n)] raises outside [range(0x110000)]: the argument is
    converted to a C [int] first, which raises [OverflowError] outside
    [-2**31, 2**31); inside, the range check raises [ValueError]. *)
Definition chr_error (n : Z) : exn :=
  if (n <? - 2 ^ 31) || (2 ^ 31 <=? n) then OverflowError else ValueError.

(** Whether a text can be written to standard output, a UTF-8 stream
    with the [strict] error handler: a lone surrogate cannot be encoded,
    and [write] raises [UnicodeEncodeError] before anything is written. *)
Definition surrogate (c : Z) : bool := (0xD800 <=? c) && (c <=? 0xDFFF).
Definition encodable (t : str) : bool := forallb (fun c => negb (surrogate c)) t.

Fixpoint dec_digits (d : Decimal.uint) : str :=
  match d with
  | Decimal.Nil => []
  | Decimal.D0 d => 48 :: dec_digits d
  | Decimal.D1 d => 49 :: dec_digits d
  | Decimal.D2 d => 50 :: dec_digits d
  | Decimal.D3 d => 51 :: dec_digits d
  | Decimal.D4 d => 52 :: dec_digits d
  | Decimal.D5 d => 53 :: dec_digits d
  | Decimal.D6 d => 54 :: dec_digits d
  | Decimal.D7 d => 55 :: dec_digits d
  | Decimal.D8 d => 56 :: dec_digits d
  | Decimal.D9 d => 57 :: dec_digits d
  end.

(** The decimal numeral of an [int]. *)
Definition str_of_int (n : Z) : str :=
  match Z.to_int n with
  | Decimal.Pos d => dec_digits d
  | Decimal.Neg d => 45 :: dec_digits d
  end.

(** The number of decimal digits of an [int], sign not counted. *)
Definition digit_count (n : Z) : nat :=
  match Z.to_int n with
  | Decimal.Pos d => length (dec_digits d)
  | Decimal.Neg d => length (dec_digits d)
  end.

(** [sys.int_info.default_max_str_digits] *)
Definition int_max_str_digits : nat := 4300.

(** [str(n)] for an [int]: [ValueError] on a numeral of more than
    [int_max_str_digits] digits. *)
Definition str_int (n : Z) : option str :=
  if Nat.ltb int_max_str_digits (digit_count n) then None else Some (str_of_int n).

Fixpoint hex_digits (d : Hexadecimal.uint) : str :=
  match d with
  | Hexadecimal.Nil => []
  | Hexadecimal.D0 d => 48 :: hex_digits d
  | Hexadecimal.D1 d => 49 :: hex_digits d
  | Hexadecimal.D2 d => 50 :: hex_digits d
  | Hexadecimal.D3 d => 51 :: hex_digits d
  | Hexadecimal.D4 d => 52 :: hex_digits d
  | Hexadecimal.D5 d => 53 :: hex_digits d
  | Hexadecimal.D6 d => 54 :: hex_digits d
  | Hexadecimal.D7 d => 55 :: hex_digits d
  | Hexadecimal.D8 d => 56 :: hex_digits d
  | Hexadecimal.D9 d => 57 :: hex_digits d
  | Hexadecimal.Da d => 65 :: hex_digits d
  | Hexadecimal.Db d => 66 :: hex_digits d
  | Hexadecimal.Dc d => 67 :: hex_digits d
  | Hexadecimal.Dd d => 68 :: hex_digits d
  | Hexadecimal.De d => 69 :: hex_digits d
  | Hexadecimal.Df d => 70 :: hex_digits d
  end.

(** ["%02X" % n]: upper-case hexadecimal, zero-padded to two columns
    (the sign of a negative number counts as a column). *)
Definition fmt_02X (n : Z) : str :=
  match Z.to_hex_int n with
  | Hexadecimal.Pos d =>
      match hex_digits d with
      | [c] => [48; c]
      | cs => cs
      end
  | Hexadecimal.Neg d => 45 :: hex_digits d
  end.

(** [a << n] and [a >> n]: [ValueError] on a negative count. *)
Definition lshift (a n : Z) : option Z :=
  if n <? 0 then None else Some (Z.shiftl a n).

Definition rshift (a n : Z) : option Z :=
  if n <? 0 then None else Some (Z.shiftr a n).

(** Truth value of an [int]. *)
Definition truthy (n : Z) : bool := negb (n =? 0).

End Py.

(** ** Machine state *)

Record CPU : Type := mkCPU {
  pc : Z;
  ir : Z;
  fl : Z;
  ram : list Z;
  reg : list Z;
  interrupts_enabled : bool;
  (** everything written to standard output so far *)
  stdout : Py.str
}.

Definition imr : Z := 5.
Definition isr : Z := 6.
Definition spr : Z := 7.
Definition ivt : list Z := [0xF8; 0xF9; 0xFA; 0xFB; 0xFC; 0xFD; 0xFE; 0xFF].
Definition timer_interrupt_bit : Z := 0.

(** [CPU.__init__] *)
Definition init : CPU :=
  {| pc := 0; ir := 0; fl := 0;
     ram := replicate 256 0;
     reg := <[7%nat := 0xF4]> (replicate 8 0);
     interrupts_enabled := true;
     stdout := [] |}.

Definition with_pc (v : Z) (s : CPU) : CPU :=
  mkCPU v (ir s) (fl s) (ram s) (reg s) (interrupts_enabled s) (stdout s).
Definition with_ir (v : Z) (s : CPU) : CPU :=
  mkCPU (pc s) v (fl s) (ram s) (reg s) (interrupts_enabled s) (stdout s).
Definition with_fl (v : Z) (s : CPU) : CPU :=
  mkCPU (pc s) (ir s) v (ram s) (reg s) (interrupts_enabled s) (stdout s).
Definition with_ram (m : list Z) (s : CPU) : CPU :=
  mkCPU (pc s) (ir s) (fl s) m (reg s) (interrupts_enabled s) (stdout s).
Definition with_reg (r : list Z) (s : CPU) : CPU :=
  mkCPU (pc s) (ir s) (fl s) (ram s) r (interrupts_enabled s) (stdout s).
Definition with_interrupts_enabled (b : bool) (s : CPU) : CPU :=
  mkCPU (pc s) (ir s) (fl s) (ram s) (reg s) b (stdout s).
Definition with_stdout (o : Py.str) (s : CPU) : CPU :=
  mkCPU (pc s) (ir s) (fl s) (ram s) (reg s) (interrupts_enabled s) o.

(** ** The monad of CPU methods

    A method either returns, terminates the process through [exit]
    ([SystemExit] with the given status), or raises.  The state at that
    point is kept in all three cases: mutations and output made before an
    exit or an exception are not undone. *)

Inductive result (A : Type) : Type :=
| Ret (a : A) (s : CPU)
| Exit (status : Z) (s : CPU)
| Raise (e : Py.exn) (s : CPU).
Arguments Ret {A} a s.
Arguments Exit {A} status s.
Arguments Raise {A} e s.

Definition M (A : Type) : Type := CPU -> result A.

Definition pure {A} (a : A) : M A := fun s => Ret a s.

Definition bind {A B} (c : M A) (k : A -> M B) : M B :=
  fun s =>
    match c s with
    | Ret a s' => k a s'
    | Exit n s' => Exit n s'
    | Raise e s' => Raise e s'
    end.

Declare Scope cpu_scope.
Delimit Scope cpu_scope with cpu.
Notation "'do' x <- c ; k" := (bind c (fun x => k))
  (at level 10, x name, c at level 100, k at level 200) : cpu_scope.
Open Scope cpu_scope.

Definition raise {A} (e : Py.exn) : M A := fun s => Raise e s.

(** [exit()] leaves with status 0, [exit(1)] with status 1. *)
Definition exit {A} (status : Z) : M A := fun s => Exit status s.

Definition lift {A} (e : Py.exn) (o : option A) : M A :=
  match o with
  | Some a => pure a
  | None => raise e
  end.

(** [for x in xs: body(x)] *)
Fixpoint for_each (xs : list Z) (body : Z -> M unit) : M unit :=
  match xs with
  | [] => pure tt
  | x :: rest => do _ <- body x; for_each rest body
  end.

(** Attribute and subscript access. *)
Definition get_pc : M Z := fun s => Ret (pc s) s.
Definition set_pc (v : Z) : M unit := fun s => Ret tt (with_pc v s).
Definition get_ir : M Z := fun s => Ret (ir s) s.
Definition set_ir (v : Z) : M unit := fun s => Ret tt (with_ir v s).
Definition get_fl : M Z := fun s => Ret (fl s) s.
Definition set_fl (v : Z) : M unit := fun s => Ret tt (with_fl v s).
Definition get_interrupts_enabled : M bool :=
  fun s => Ret (interrupts_enabled s) s.
Definition set_interrupts_enabled (b : bool) : M unit :=
  fun s => Ret tt (with_interrupts_enabled b s).

(** [self.reg[r]] *)
Definition reg_get (r : Z) : M Z :=
  fun s => lift Py.IndexError (Py.getitem (reg s) r) s.

(** [self.reg[r] = v] *)
Definition reg_set (r v : Z) : M unit :=
  fun s =>
    match Py.setitem (reg s) r v with
    | Some l => Ret tt (with_reg l s)
    | None => Raise Py.IndexError s
    end.

(** [self.ram[a]] *)
Definition ram_get (a : Z) : M Z :=
  fun s => lift Py.IndexError (Py.getitem (ram s) a) s.

(** [self.ram[a] = v] *)
Definition ram_set (a v : Z) : M unit :=
  fun s =>
    match Py.setitem (ram s) a v with
    | Some l => Ret tt (with_ram l s)
    | None => Raise Py.IndexError s
    end.

(** [print(t, end=e)] *)
Definition print (t e : Py.str) : M unit :=
  fun s => Ret tt (with_stdout (stdout s ++ t ++ e) s).

Definition newline : Py.str := [10].

(** ** Methods of [CPU] *)

(** [b | 1 << n] *)
Definition set_nth_bit (b n : Z) : option Z :=
  match Py.lshift 1 n with
  | Some m => Some (Z.lor b m)
  | None => None
  end.

(** [b & ~(1 << n)] *)
Definition unset_nth_bit (b n : Z) : option Z :=
  match Py.lshift 1 n with
  | Some m => Some (Z.land b (Z.lnot m))
  | None => None
  end.

Definition _operand_a : M Z := do p <- get_pc; ram_get (p + 1).
Definition _operand_b : M Z := do p <- get_pc; ram_get (p + 2).

Definition raise_interrupt (i : Z) : M unit :=
  do v <- reg_get isr;
  do b <- lift Py.ValueError (set_nth_bit v i);
  reg_set isr b.

Definition _ram_read (mar : Z) : M Z := ram_get mar.
Definition _ram_write (mar mdr : Z) : M unit := ram_set mar mdr.

(** A register operand that may be [None] (the [r=None] of the interrupt
    code): subscripting with [None] is a [TypeError]. *)
Definition reg_get_obj (r : option Z) : M Z :=
  match r with
  | Some i => reg_get i
  | None => raise Py.TypeError
  end.

Definition reg_set_obj (r : option Z) (v : Z) : M unit :=
  match r with
  | Some i => reg_set i v
  | None => raise Py.TypeError
  end.

Definition _NOP : M unit := pure tt.

Definition _HLT : M unit := exit 0.

Definition _PRA (r : Z) : M unit :=
  do v <- reg_get r;
  do c <- lift (Py.chr_error v) (Py.chr v);
  if Py.encodable c then print c newline else raise Py.UnicodeEncodeError.

(** The loop of [_PRM]: [string += chr(self.ram[char_addr])]. *)
Fixpoint prm_loop (addrs : list Z) (acc : Py.str) : M Py.str :=
  match addrs with
  | [] => pure acc
  | char_addr :: rest =>
      do v <- ram_get char_addr;
      do c <- lift (Py.chr_error v) (Py.chr v);
      prm_loop rest (acc ++ c)
  end.

Definition _PRM (ra rb : Z) : M unit :=
  do a <- reg_get ra;
  do b <- reg_get rb;
  do string <- prm_loop (Py.range a (b + 1)) [];
  if Py.encodable string then print string newline else raise Py.UnicodeEncodeError.

Definition _PRN (r : Z) : M unit :=
  do v <- reg_get r;
  do t <- lift Py.ValueError (Py.str_int v);
  print t newline.

Definition _LD (ra rb : Z) : M unit :=
  do a <- reg_get rb;
  do v <- ram_get a;
  reg_set ra v.

Definition _LDI (r i : Z) : M unit := reg_set r (Z.land 0xFF i).

Definition _ST (ra rb : Z) : M unit :=
  do v <- reg_get rb;
  do a <- reg_get ra;
  ram_set a v.

Definition _PUSH (r : option Z) (value : option Z) : M unit :=
  do sp <- reg_get spr;
  do _ <- (if sp =? 0 then reg_set spr 0xFF
           else do sp' <- reg_get spr; reg_set spr (sp' - 1));
  match value with
  | Some v => do sp <- reg_get spr; ram_set sp v
  | None => do v <- reg_get_obj r; do sp <- reg_get spr; ram_set sp v
  end.

(** [_POP] returns the popped byte when [ret] is set and [None] otherwise. *)
Definition _POP (r : option Z) (ret : bool) : M (option Z) :=
  do sp <- reg_get spr;
  do cur <- reg_get spr;
  do _ <- (if cur =? 0xFF then reg_set spr 0
           else do c <- reg_get spr; reg_set spr (c + 1));
  if ret then do v <- ram_get sp; pure (Some v)
  else do v <- ram_get sp; do _ <- reg_set_obj r v; pure None.

(** The value of a call [self._POP(r=None, ret=True)] used as an integer. *)
Definition pop_value : M Z :=
  do o <- _POP None true;
  lift Py.TypeError o.

Definition _CALL (r : Z) : M unit :=
  do sp <- reg_get spr;
  do _ <- reg_set spr (sp - 1);
  do p <- get_pc;
  do sp' <- reg_get spr;
  do _ <- ram_set sp' (p + 2);
  do v <- reg_get r;
  set_pc v.

Definition _RET : M unit :=
  do sp <- reg_get spr;
  do v <- ram_get sp;
  do _ <- set_pc v;
  do sp' <- reg_get spr;
  reg_set spr (sp' + 1).

Definition _INT (r : Z) : M unit :=
  do v <- reg_get r;
  do b <- lift Py.ValueError (set_nth_bit v 1);
  reg_set isr b.

Definition _IRET : M unit :=
  do _ <- for_each (Py.range_down 6 (-1)) (fun r => do v <- pop_value; reg_set r v);
  do f <- pop_value;
  do _ <- set_fl f;
  do p <- pop_value;
  do _ <- set_pc p;
  set_interrupts_enabled true.

Definition _JMP (r : Z) : M unit := do v <- reg_get r; set_pc v.

(** The shape shared by the conditional jumps: [if cond: pc = reg[r]
    else: pc += 2]. *)
Definition jump_if (cond : Z) (r : Z) : M unit :=
  if Py.truthy cond then do v <- reg_get r; set_pc v
  else do p <- get_pc; set_pc (p + 2).

Definition _JLT (r : Z) : M unit := do f <- get_fl; jump_if (Z.land f 4) r.
Definition _JGT (r : Z) : M unit := do f <- get_fl; jump_if (Z.land f 2) r.
Definition _JEQ (r : Z) : M unit := do f <- get_fl; jump_if (Z.land f 1) r.
Definition _JLE (r : Z) : M unit := do f <- get_fl; jump_if (Z.land f 5) r.
Definition _JGE (r : Z) : M unit := do f <- get_fl; jump_if (Z.land f 3) r.
Definition _JNE (r : Z) : M unit := do f <- get_fl; jump_if (Z.lxor f 1) r.

(** ** ALU instructions *)

Definition _ALU_ADD (ra rb : Z) : M unit :=
  do a <- reg_get ra; do b <- reg_get rb; reg_set ra (Z.land (a + b) 0xFF).

Definition _ALU_ADDi (r i : Z) : M unit :=
  do a <- reg_get r; reg_set r (Z.land (a + i) 0xFF).

Definition _ALU_SUB (ra rb : Z) : M unit :=
  do a <- reg_get ra; do b <- reg_get rb; reg_set ra (Z.land (a - b) 0xFF).

Definition _ALU_MUL (ra rb : Z) : M unit :=
  do a <- reg_get ra; do b <- reg_get rb; reg_set ra (Z.land (a * b) 0xFF).

Definition _ALU_DIV (ra rb : Z) : M unit :=
  do d <- reg_get rb;
  if d =? 0 then
    do _ <- print (Py.lit "Cannot divide by 0!") newline;
    exit 0
  else
    do a <- reg_get ra; do b <- reg_get rb; reg_set ra (a / b).

Definition _ALU_MOD (ra rb : Z) : M unit :=
  do d <- reg_get rb;
  if d =? 0 then
    do _ <- print (Py.lit "Cannot divide by 0!") newline;
    exit 0
  else
    do a <- reg_get ra; do b <- reg_get rb; reg_set ra (a mod b).

Definition _ALU_INC (r : Z) : M unit :=
  do a <- reg_get r; reg_set r (Z.land (a + 1) 0xFF).

Definition _ALU_DEC (r : Z) : M unit :=
  do a <- reg_get r; reg_set r (Z.land (a - 1) 0xFF).

Definition _ALU_AND (ra rb : Z) : M unit :=
  do a <- reg_get ra; do b <- reg_get rb; reg_set ra (Z.land a b).

Definition _ALU_OR (ra rb : Z) : M unit :=
  do a <- reg_get ra; do b <- reg_get rb; reg_set ra (Z.lor a b).

Definition _ALU_XOR (ra rb : Z) : M unit :=
  do a <- reg_get ra; do b <- reg_get rb; reg_set ra (Z.lxor a b).

Definition _ALU_NOT (r : Z) : M unit :=
  do a <- reg_get r; reg_set r (Z.lnot a).

Definition _ALU_SHL (ra rb : Z) : M unit :=
  do a <- reg_get ra; do b <- reg_get rb;
  do v <- lift Py.ValueError (Py.lshift a b);
  reg_set ra (Z.land v 0xFF).

Definition _ALU_SHR (ra rb : Z) : M unit :=
  do a <- reg_get ra; do b <- reg_get rb;
  do v <- lift Py.ValueError (Py.rshift a b);
  reg_set ra v.

Definition _ALU_CMP (ra rb : Z) : M unit :=
  do a <- reg_get ra; do b <- reg_get rb;
  if a >? b then set_fl 2
  else
    do a' <- reg_get ra; do b' <- reg_get rb;
    if a' <? b' then set_fl 4
    else set_fl 1.

(** ** Dispatch tables

    [self.instructions] and [self.alu_instructions] map an opcode to a
    closure that reads its operands when it is called. *)

Definition unary (f : Z -> M unit) : M unit :=
  do a <- _operand_a; f a.

Definition binary (f : Z -> Z -> M unit) : M unit :=
  do a <- _operand_a; do b <- _operand_b; f a b.

Definition instructions : list (Z * M unit) :=
  [ (0x00, _NOP);
    (0x01, exit 0);
    (0x48, unary _PRA);
    (0x49, binary _PRM);
    (0x47, unary _PRN);
    (0x83, binary _LD);
    (0x82, binary _LDI);
    (0x84, binary _ST);
    (0x45, unary (fun r => _PUSH (Some r) None));
    (0x46, unary (fun r => do _ <- _POP (Some r) false; pure tt));
    (0x50, unary _CALL);
    (0x11, _RET);
    (0x52, unary _INT);
    (0x13, _IRET);
    (0x54, unary _JMP);
    (0x58, unary _JLT);
    (0x57, unary _JGT);
    (0x55, unary _JEQ);
    (0x59, unary _JLE);
    (0x5A, unary _JGE);
    (0x56, unary _JNE) ].

Definition alu_instructions : list (Z * M unit) :=
  [ (0xA0, binary _ALU_ADD);
    (0xA6, binary _ALU_ADDi);
    (0xA1, binary _ALU_SUB);
    (0xA2, binary _ALU_MUL);
    (0xA3, binary _ALU_DIV);
    (0xA4, binary _ALU_MOD);
    (0x65, unary _ALU_INC);
    (0x66, unary _ALU_DEC);
    (0xAC, binary _ALU_SHL);
    (0xAD, binary _ALU_SHR);
    (0xA8, binary _ALU_AND);
    (0xAA, binary _ALU_OR);
    (0xAB, binary _ALU_XOR);
    (0x69, unary _ALU_NOT);
    (0xA7, binary _ALU_CMP) ].

(** [d.get(k, None)] *)
Fixpoint dict_get (d : list (Z * M unit)) (k : Z) : option (M unit) :=
  match d with
  | [] => None
  | (k', v) :: rest => if k =? k' then Some v else dict_get rest k
  end.

(** ** Trace, interrupts, and the execution loop *)

Definition _trace : M unit :=
  do p0 <- get_pc;
  do p1 <- get_pc; do b0 <- _ram_read p1;
  do p2 <- get_pc; do b1 <- _ram_read (p2 + 1);
  do p3 <- get_pc; do b2 <- _ram_read (p3 + 2);
  do _ <- print (Py.lit "TRACE: " ++ Py.fmt_02X p0 ++ Py.lit " | "
                 ++ Py.fmt_02X b0 ++ Py.lit " " ++ Py.fmt_02X b1 ++ Py.lit " "
                 ++ Py.fmt_02X b2 ++ Py.lit " |") [];
  do _ <- for_each (Py.range 0 8)
            (fun i => do v <- reg_get i; print (Py.lit " " ++ Py.fmt_02X v) []);
  print [] newline.

Definition _alu (op : Z) : M unit :=
  match dict_get alu_instructions op with
  | Some execute => execute
  | None =>
      do _ <- print (Py.lit "Unsupported ALU operation.") newline;
      do _ <- _trace;
      exit 1
  end.

(** What [_handle_interrupts] does for the loop index [i] whose test
    [i & masked_interrupts] succeeded. *)
Definition service_interrupt (i : Z) : M unit :=
  do _ <- set_interrupts_enabled false;
  do st <- reg_get isr;
  do cleared <- lift Py.ValueError (unset_nth_bit st (i - 1));
  do _ <- reg_set isr cleared;
  do p <- get_pc;
  do _ <- _PUSH None (Some p);
  do f <- get_fl;
  do _ <- _PUSH None (Some f);
  do _ <- for_each (Py.range 0 7) (fun r => do v <- reg_get r; _PUSH None (Some v));
  do vec <- lift Py.IndexError (Py.getitem ivt (i - 1));
  do handler <- ram_get vec;
  set_pc handler.

(** The [for i in range(1, len(self.ivt) + 1)] loop, left by [break]
    after the first serviced index. *)
Fixpoint interrupt_loop (masked_interrupts : Z) (indices : list Z) : M unit :=
  match indices with
  | [] => pure tt
  | i :: rest =>
      let i_bit := Z.land i masked_interrupts in
      if Py.truthy i_bit then service_interrupt i
      else interrupt_loop masked_interrupts rest
  end.

Definition _handle_interrupts : M unit :=
  do im <- reg_get imr;
  do st <- reg_get isr;
  let masked_interrupts := Z.land im st in
  interrupt_loop masked_interrupts (Py.range 1 (Z.of_nat (length ivt) + 1)).

Definition _read_instruction : M unit :=
  do p <- get_pc; do v <- _ram_read p; set_ir v.

Definition _execute_instruction : M unit :=
  do instruction <- get_ir;
  do i1 <- get_ir;
  let operands := Z.shiftr (Z.land 0xC0 i1) 6 in
  do i2 <- get_ir;
  let is_alu_op := Py.truthy (Z.land 0x20 i2) in
  do _ <- (if is_alu_op then _alu instruction
           else
             do i3 <- get_ir;
             match dict_get instructions i3 with
             | Some execute => execute
             | None =>
                 do _ <- print (Py.lit "Unknown instruction encountered.") newline;
                 do _ <- _trace;
                 exit 1
             end);
  do i4 <- get_ir;
  let updates_pc := Py.truthy (Z.land 0x10 i4) in
  if negb updates_pc then do p <- get_pc; set_pc (p + (1 + operands))
  else pure tt.

(** One iteration of the [while True] loop of [run], up to the timer. *)
Definition cycle (trace_cycle : bool) : M unit :=
  do enabled <- get_interrupts_enabled;
  do _ <- (if enabled then _handle_interrupts else pure tt);
  do _ <- _read_instruction;
  do _ <- (if trace_cycle then _trace else pure tt);
  _execute_instruction.

(** [run]: the wall clock is an input.  [ticks] lists, for each iteration
    to be executed, whether more than one second had passed at the timer
    check of that iteration. *)
Fixpoint run (trace_cycle : bool) (ticks : list bool) : M unit :=
  match ticks with
  | [] => pure tt
  | tick :: rest =>
      do _ <- cycle trace_cycle;
      do _ <- (if tick then raise_interrupt timer_interrupt_bit else pure tt);
      run trace_cycle rest
  end.

(** [load], from the instruction bytes parsed out of the program file. *)
Fixpoint load_from (address : Z) (program : list Z) : M unit :=
  match program with
  | [] => pure tt
  | instruction :: rest =>
      do _ <- ram_set address instruction;
      load_from (address + 1) rest
  end.

Definition load (program : list Z) : M unit := load_from 0 program.

(** ** The keyboard of [keyboard.py]

    What one pass of [Keyboard._poll] does to the machine when
    [sys.stdin.read(1)] returned a character with code point [char]:
    [self.ls8.ram[0xF4] = ord(char)], then
    [self.ls8.raise_interrupt(self.interrupt_bit)]. *)
Definition keyboard_interrupt_bit : Z := 1.

Definition Keyboard_poll (char : Z) : M unit :=
  do _ <- ram_set 0xF4 char;
  raise_interrupt keyboard_interrupt_bit.

(** The state a method leaves behind, however it ends. *)
Definition final {A} (r : result A) : CPU :=
  match r with
  | Ret _ s => s
  | Exit _ s => s
  | Raise _ s => s
  end.

(** ** Vocabulary of the statements *)

Definition byte (v : Z) : Prop := 0 <= v <= 255.

(** The shape [__init__] gives the machine: 256 cells, 8 registers. *)
Definition well_shaped (s : CPU) : Prop :=
  length (ram s) = 256%nat /\ length (reg s) = 8%nat.

(** Every cell, every register, [fl] and [ir] hold a byte. *)
Definition all_bytes_but_pc (s : CPU) : Prop :=
  well_shaped s /\
  Forall byte (ram s) /\ Forall byte (reg s) /\ byte (fl s) /\ byte (ir s).

(** The invariant of the data model: the above, and [pc] too. *)
Definition all_bytes (s : CPU) : Prop := all_bytes_but_pc s /\ byte (pc s).

(** Decidable form of [all_bytes]. *)
Definition is_byte (v : Z) : bool := (0 <=? v) && (v <=? 255).

Definition all_bytes_check (s : CPU) : bool :=
  Nat.eqb (length (ram s)) 256 && Nat.eqb (length (reg s)) 8 &&
  forallb is_byte (ram s) && forallb is_byte (reg s) &&
  is_byte (fl s) && is_byte (ir s) && is_byte (pc s).

(** [all_bytes_but_pc], with [pc] and [ir] named. *)
Definition bytes_at (p i : Z) (s : CPU) : Prop :=
  all_bytes_but_pc s /\ pc s = p /\ ir s = i.

(** The wrap policy of [_PUSH] and [_POP] on the stack pointer. *)
Definition sp_down (sp : Z) : Z := if sp =? 0 then 0xFF else sp - 1.
Definition sp_up (sp : Z) : Z := if sp =? 0xFF then 0 else sp + 1.

(** [stacked m sp vs]: popping from [sp] in memory [m] yields [vs], top
    first. *)
Fixpoint stacked (m : list Z) (sp : Z) (vs : list Z) : Prop :=
  match vs with
  | [] => True
  | v :: rest => m !! Z.to_nat sp = Some v /\ stacked m (sp_up sp) rest
  end.

(** What a division by zero leaves behind: the diagnostic line on standard
    output and nothing else. *)
Definition div_by_zero_report (s : CPU) : CPU :=
  with_stdout (stdout s ++ Py.lit "Cannot divide by 0!" ++ newline) s.

(** A handler that, when it returns, has kept the bytes and not touched
    [pc] or [ir]. *)
Definition keeps_pc (h : M unit) : Prop :=
  forall p i s s', bytes_at p i s -> h s = Ret tt s' -> bytes_at p i s'.

(** A handler that returns only after reading [n] operand bytes behind
    a [pc] that holds a byte, under the same conditions. *)
Definition fetches (n : Z) (h : M unit) : Prop :=
  forall p i s s', bytes_at p i s -> byte p -> h s = Ret tt s' ->
                   bytes_at p i s' /\ p + n <= 255.

(** A handler that, started with a byte in [pc], has kept the bytes and
    [ir] when it returns, and has left [pc] at most one above a byte. *)
Definition moves_pc (h : M unit) : Prop :=
  forall p i s s', bytes_at p i s -> byte p -> h s = Ret tt s' ->
                   exists p', bytes_at p' i s' /\ 0 <= p' <= 256.

(** The opcodes of NOT, CALL and RET, whose handlers store a result
    without the mask or wrap their siblings apply. *)
Definition unmasked_opcode (op : Z) : Prop := op = 0x69 \/ op = 0x50 \/ op = 0x11.

(** What the table entries other than NOT, CALL and RET satisfy: with bit
    4 of the opcode clear, the handler leaves [pc] alone and reads at least
    as many operand bytes as the opcode announces; with bit 4 set, the
    handler sets [pc] itself. *)
Definition entry_keeps_bytes (e : Z * M unit) : Prop :=
  unmasked_opcode (fst e) \/
  if Py.truthy (Z.land 0x10 (fst e)) then moves_pc (snd e)
  else exists n, fetches n (snd e) /\ Z.shiftr (Z.land 0xC0 (fst e)) 6 <= n.

(** A method that, when it returns, has not touched [ir]. *)
Definition keeps_ir {A} (c : M A) : Prop :=
  forall s a s', c s = Ret a s' -> ir s' = ir s.

(** ** Reference states used in the examples *)

(** A freshly constructed CPU with the given registers. *)
Definition cpu_with_regs (rs : list Z) : CPU := with_reg rs init.

(** A fresh CPU about to fetch at address [a]. *)
Definition cpu_at (a : Z) : CPU := with_pc a init.

(** IM = IS = 0b00000001; the IVT cell of interrupt 0 names address 0x20,
    where a lone IRET sits. *)
Definition irq0_pending : CPU :=
  with_ram (<[0xF8%nat := 0x20]> (<[0x20%nat := 0x13]> (replicate 256 0)))
    (cpu_with_regs [7; 0; 0; 0; 0; 1; 1; 0xF4]).

(** [irq0_pending] after the pre-fetch interrupt check. *)
Definition irq0_dispatched : CPU := final (_handle_interrupts irq0_pending).

(** IM = IS = 0b00000100, with distinct handler addresses in the IVT cells
    of interrupts 2 and 3. *)
Definition irq2_pending : CPU :=
  with_ram (<[0xFA%nat := 0x10]> (<[0xFB%nat := 0x20]> (replicate 256 0)))
    (cpu_with_regs [0; 0; 0; 0; 0; 4; 4; 0xF4]).

(** IM = IS = 0b00010000. *)
Definition irq4_pending : CPU := cpu_with_regs [0; 0; 0; 0; 0; 0x10; 0x10; 0xF4].

(** [fl = 0b011] (as [IRET] can leave it), [reg[0] = 10]. *)
Definition fl_equal_and_greater : CPU :=
  with_fl 3 (cpu_with_regs [10; 0; 0; 0; 0; 0; 0; 0xF4]).

(** The "wrap on ADD" program: LDI R0,200; LDI R1,100; ADD R0,R1; PRN R0;
    HLT. *)
Definition wrap_on_add : list Z :=
  [0x82; 0; 200; 0x82; 1; 100; 0xA0; 0; 1; 0x47; 0; 0x01].

Definition wrap_on_add_loaded : CPU := final (load wrap_on_add init).

(** NOT R0 on a fresh CPU. *)
Definition not_r0_loaded : CPU := final (load [0x69; 0] init).

(** The "LDI then PRN" program: LDI R0,5; PRN R0; HLT. *)
Definition ldi_then_prn : list Z := [0x82; 0; 5; 0x47; 0; 0x01].

(** The "division by zero" program: LDI R0,1; LDI R1,0; DIV R0,R1. *)
Definition division_by_zero : list Z := [0x82; 0; 1; 0x82; 1; 0; 0xA3; 0; 1].

(** A program that brings [fl = 0b011] about and then branches on it: it
    pushes a return address 30, a flag byte 3 and seven register values
    (40 for R0, 0 for the others), executes IRET, and at address 30
    executes JNE R0. *)
Definition iret_then_jne : list Z :=
  [0x82; 0; 30; 0x45; 0;
   0x82; 0; 3; 0x45; 0;
   0x82; 0; 40; 0x45; 0;
   0x45; 1; 0x45; 1; 0x45; 1; 0x45; 1; 0x45; 1; 0x45; 1;
   0x13; 0; 0;
   0x56; 0].

(** ** Vocabulary of the further properties *)

(** The position a register subscript [r] denotes in [self.reg], if any. *)
Definition reg_slot (s : CPU) (r : Z) : option nat :=
  Py.py_index (length (reg s)) r.

(** The position an address [a] denotes in [self.ram], if any. *)
Definition ram_slot (s : CPU) (a : Z) : option nat :=
  Py.py_index (length (ram s)) a.

(** A method that leaves the component [f] of the machine as it found it,
    however it ends (return, exit or exception). *)
Definition preserves {X A : Type} (f : CPU -> X) (c : M A) : Prop :=
  forall s, f (final (c s)) = f s.

(** The opcodes whose handlers assign [fl]: CMP and IRET. *)
Definition writes_fl (op : Z) : Prop := op = 0xA7 \/ op = 0x13.

(** The opcodes whose handlers store into [ram]: ST, PUSH and CALL. *)
Definition writes_ram (op : Z) : Prop := op = 0x84 \/ op = 0x45 \/ op = 0x50.

(** The opcode whose handler assigns [interrupts_enabled]: IRET. *)
Definition writes_interrupts_enabled (op : Z) : Prop := op = 0x13.

(** The opcodes with the sets-pc bit (bit 4). *)
Definition sets_pc (op : Z) : Prop := Py.truthy (Z.land 0x10 op) = true.

(** The operand count the control unit reads off an opcode. *)
Definition operand_count (op : Z) : Z := Z.shiftr (Z.land 0xC0 op) 6.

(** The line [_trace] prints for a machine at [pc = p] with the three
    bytes [b0 b1 b2] at [p], [p+1], [p+2] and the registers [rs]. *)
Definition trace_text (p b0 b1 b2 : Z) (rs : list Z) : Py.str :=
  Py.lit "TRACE: " ++ Py.fmt_02X p ++ Py.lit " | "
  ++ Py.fmt_02X b0 ++ Py.lit " " ++ Py.fmt_02X b1 ++ Py.lit " "
  ++ Py.fmt_02X b2 ++ Py.lit " |"
  ++ concat (map (fun v => Py.lit " " ++ Py.fmt_02X v) rs)
  ++ newline.

(** The value of an upper-case hexadecimal digit. *)
Definition hex_value (c : Z) : option Z :=
  if (48 <=? c) && (c <=? 57) then Some (c - 48)
  else if (65 <=? c) && (c <=? 70) then Some (c - 55)
  else None.

(** A two-digit field read back. *)
Definition hex_field (t : Py.str) : option Z :=
  match t with
  | [hi; lo] =>
      match hex_value hi, hex_value lo with
      | Some h, Some l => Some (16 * h + l)
      | _, _ => None
      end
  | _ => None
  end.

(** The table [_execute_instruction] looks the opcode [i] up in, and the
    line it prints when the opcode is not a key of that table. *)
Definition table_of (i : Z) : list (Z * M unit) :=
  if Py.truthy (Z.land 0x20 i) then alu_instructions else instructions.

Definition unknown_opcode_line (i : Z) : Py.str :=
  (if Py.truthy (Z.land 0x20 i) then Py.lit "Unsupported ALU operation."
   else Py.lit "Unknown instruction encountered.") ++ newline.

(** Memory after pushing [vs], first element first, from stack pointer
    [sp]. *)
Fixpoint push_cells (m : list Z) (sp : Z) (vs : list Z) : list Z :=
  match vs with
  | [] => m
  | v :: rest => push_cells (<[Z.to_nat (sp_down sp) := v]> m) (sp_down sp) rest
  end.

(** Reading a decimal numeral back: what [int(t)] gives on the text
    [str(n)] produces. *)
Definition dec_value (c : Z) : option Z :=
  if (48 <=? c) && (c <=? 57) then Some (c - 48) else None.

Fixpoint read_digits (t : Py.str) (acc : Z) : option Z :=
  match t with
  | [] => Some acc
  | c :: rest =>
      match dec_value c with
      | Some d => read_digits rest (10 * acc + d)
      | None => None
      end
  end.

Definition int_of_str (t : Py.str) : option Z :=
  match t with
  | [] => None
  | c :: rest =>
      if c =? 45 then
        match rest with
        | [] => None
        | _ => option_map Z.opp (read_digits rest 0)
        end
      else read_digits t 0
  end.

(** The number a digit sequence denotes, most significant digit first. *)
Fixpoint uint_value (d : Decimal.uint) (acc : Z) : Z :=
  match d with
  | Decimal.Nil => acc
  | Decimal.D0 l => uint_value l (10 * acc + 0)
  | Decimal.D1 l => uint_value l (10 * acc + 1)
  | Decimal.D2 l => uint_value l (10 * acc + 2)
  | Decimal.D3 l => uint_value l (10 * acc + 3)
  | Decimal.D4 l => uint_value l (10 * acc + 4)
  | Decimal.D5 l => uint_value l (10 * acc + 5)
  | Decimal.D6 l => uint_value l (10 * acc + 6)
  | Decimal.D7 l => uint_value l (10 * acc + 7)
  | Decimal.D8 l => uint_value l (10 * acc + 8)
  | Decimal.D9 l => uint_value l (10 * acc + 9)
  end.

(** The machine after the timer check that ends an iteration of [run]:
    when the timer fires, bit 0 is ored into IS. *)
Definition timer_check (tick : bool) (s : CPU) : CPU :=
  if tick
  then with_reg (<[6%nat := Z.lor (default 0 (reg s !! 6%nat)) 1]> (reg s)) s
  else s.

(** ** Basic facts about the monad and the accessors *)

Lemma bind_Ret {A B} (c : M A) (k : A -> M B) s a s' :
  c s = Ret a s' -> bind c k s = k a s'.
Proof. unfold bind. intros ->. reflexivity. Qed.

Lemma bind_Exit {A B} (c : M A) (k : A -> M B) s n s' :
  c s = Exit n s' -> bind c k s = Exit n s'.
Proof. unfold bind. intros ->. reflexivity. Qed.

Lemma bind_Raise {A B} (c : M A) (k : A -> M B) s e s' :
  c s = Raise e s' -> bind c k s = Raise e s'.
Proof. unfold bind. intros ->. reflexivity. Qed.

Lemma reg_get_Some s r v :
  Py.getitem (reg s) r = Some v -> reg_get r s = Ret v s.
Proof. unfold reg_get. intros ->. reflexivity. Qed.

Lemma reg_get_None s r :
  Py.getitem (reg s) r = None -> reg_get r s = Raise Py.IndexError s.
Proof. unfold reg_get. intros ->. reflexivity. Qed.

Lemma ram_get_Some s a v :
  Py.getitem (ram s) a = Some v -> ram_get a s = Ret v s.
Proof. unfold ram_get. intros ->. reflexivity. Qed.

Lemma ram_get_None s a :
  Py.getitem (ram s) a = None -> ram_get a s = Raise Py.IndexError s.
Proof. unfold ram_get. intros ->. reflexivity. Qed.

Lemma py_index_nonneg n i :
  0 <= i < Z.of_nat n -> Py.py_index n i = Some (Z.to_nat i).
Proof.
  intros H. unfold Py.py_index.
  destruct (Z.leb_spec 0 i); [|lia].
  destruct (Z.ltb_spec i (Z.of_nat n)); [|lia]. reflexivity.
Qed.

Lemma py_index_out n i :
  Z.of_nat n <= i -> Py.py_index n i = None.
Proof.
  intros H. unfold Py.py_index.
  destruct (Z.leb_spec 0 i); destruct (Z.ltb_spec i (Z.of_nat n));
    destruct (Z.leb_spec (- Z.of_nat n) i); destruct (Z.ltb_spec i 0);
    simpl; try reflexivity; lia.
Qed.

Lemma getitem_nonneg (l : list Z) i :
  0 <= i < Z.of_nat (length l) -> Py.getitem l i = l !! Z.to_nat i.
Proof. intros H. unfold Py.getitem. rewrite py_index_nonneg by assumption. reflexivity. Qed.

Lemma getitem_out (l : list Z) i :
  Z.of_nat (length l) <= i -> Py.getitem l i = None.
Proof. intros H. unfold Py.getitem. rewrite py_index_out by assumption. reflexivity. Qed.

Lemma setitem_nonneg (l : list Z) i v :
  0 <= i < Z.of_nat (length l) -> Py.setitem l i v = Some (<[Z.to_nat i := v]> l).
Proof. intros H. unfold Py.setitem. rewrite py_index_nonneg by assumption. reflexivity. Qed.

Lemma range_empty a b : b <= a -> Py.range a b = [].
Proof.
  intros H. unfold Py.range.
  replace (Z.to_nat (b - a)) with 0%nat by lia. reflexivity.
Qed.

(** ** CMP *)

(** C8. For all register contents [a = reg[ra]] and [b = reg[rb]],
    [_ALU_CMP ra rb] returns and leaves [fl] equal to [0b010] when
    [a > b], [0b100] when [a < b] and [0b001] when [a = b]; nothing but
    [fl] changes, and [fl] then has exactly one bit set, which is one of
    E (bit 0), G (bit 1), L (bit 2). *)
Theorem ALU_CMP_sets_exactly_one_flag (s : CPU) (ra rb a b : Z) :
  Py.getitem (reg s) ra = Some a ->
  Py.getitem (reg s) rb = Some b ->
  exists s',
    _ALU_CMP ra rb s = Ret tt s' /\
    s' = with_fl (fl s') s /\
    (a > b -> fl s' = 2) /\
    (a < b -> fl s' = 4) /\
    (a = b -> fl s' = 1) /\
    exists k, 0 <= k <= 2 /\ forall j, Z.testbit (fl s') j = (j =? k).
Proof.
  intros Ha Hb.
  assert (Hbits : forall k, 0 <= k <= 2 ->
                            forall j, Z.testbit (2 ^ k) j = (j =? k)).
  { intros k Hk j. destruct (Z.eqb_spec j k) as [->|Hne].
    - apply Z.pow2_bits_true. lia.
    - apply Z.pow2_bits_false. congruence. }
  unfold _ALU_CMP.
  rewrite (bind_Ret _ _ s a s) by (apply reg_get_Some; assumption).
  rewrite (bind_Ret _ _ s b s) by (apply reg_get_Some; assumption).
  destruct (Z.gtb_spec a b) as [Hgt|Hle].
  - exists (with_fl 2 s). repeat split; try reflexivity; try lia.
    exists 1. split; [lia|]. apply (Hbits 1). lia.
  - rewrite (bind_Ret _ _ s a s) by (apply reg_get_Some; assumption).
    rewrite (bind_Ret _ _ s b s) by (apply reg_get_Some; assumption).
    destruct (Z.ltb_spec a b) as [Hlt|Hge].
    + exists (with_fl 4 s). repeat split; try reflexivity; try lia.
      exists 2. split; [lia|]. apply (Hbits 2). lia.
    + exists (with_fl 1 s). repeat split; try reflexivity; try lia.
      exists 0. split; [lia|]. apply (Hbits 0). lia.
Qed.

Lemma ALU_CMP_sets_exactly_one_flag_witness :
  exists s',
    _ALU_CMP 7 0 init = Ret tt s' /\
    s' = with_fl (fl s') init /\
    (0xF4 > 0 -> fl s' = 2) /\
    (0xF4 < 0 -> fl s' = 4) /\
    (0xF4 = 0 -> fl s' = 1) /\
    exists k, 0 <= k <= 2 /\ forall j, Z.testbit (fl s') j = (j =? k).
Proof.
  apply (ALU_CMP_sets_exactly_one_flag init 7 0 0xF4 0); reflexivity.
Defined.

(** ** PRM *)

Lemma PRM_range_empty (s : CPU) (ra rb a b : Z) :
  Py.getitem (reg s) ra = Some a ->
  Py.getitem (reg s) rb = Some b ->
  Py.range a (b + 1) = [] ->
  _PRM ra rb s = Ret tt (with_stdout (stdout s ++ newline) s).
Proof.
  intros Ha Hb Hr. unfold _PRM.
  rewrite (bind_Ret _ _ s a s) by (apply reg_get_Some; assumption).
  rewrite (bind_Ret _ _ s b s) by (apply reg_get_Some; assumption).
  rewrite Hr. reflexivity.
Qed.

(** C10. When [reg[ra] > reg[rb]], [_PRM ra rb] returns having appended a
    single newline to standard output; [pc], [ir], [fl], [ram], every
    register (so SP too) and [interrupts_enabled] are as before. *)
Theorem PRM_descending_prints_empty_line (s : CPU) (ra rb a b : Z) :
  Py.getitem (reg s) ra = Some a ->
  Py.getitem (reg s) rb = Some b ->
  a > b ->
  _PRM ra rb s = Ret tt (with_stdout (stdout s ++ [10]) s).
Proof.
  intros Ha Hb Hgt. apply (PRM_range_empty s ra rb a b Ha Hb).
  apply range_empty. lia.
Qed.

Lemma PRM_descending_prints_empty_line_witness :
  _PRM 7 0 init = Ret tt (with_stdout (stdout init ++ [10]) init).
Proof.
  apply (PRM_descending_prints_empty_line init 7 0 0xF4 0); [reflexivity | reflexivity | lia].
Defined.

(** ** DIV and MOD by zero *)

Lemma ALU_DIV_by_zero (s : CPU) (ra rb : Z) :
  Py.getitem (reg s) rb = Some 0 ->
  _ALU_DIV ra rb s = Exit 0 (div_by_zero_report s).
Proof.
  intros Hb. unfold _ALU_DIV.
  rewrite (bind_Ret _ _ s 0 s) by (apply reg_get_Some; assumption).
  reflexivity.
Qed.

Lemma ALU_MOD_by_zero (s : CPU) (ra rb : Z) :
  Py.getitem (reg s) rb = Some 0 ->
  _ALU_MOD ra rb s = Exit 0 (div_by_zero_report s).
Proof.
  intros Hb. unfold _ALU_MOD.
  rewrite (bind_Ret _ _ s 0 s) by (apply reg_get_Some; assumption).
  reflexivity.
Qed.

(** C6, as the code has it.  With [reg[rb] = 0], [_ALU_DIV ra rb] and
    [_ALU_MOD ra rb] print the line "Cannot divide by 0!" and leave through
    [exit()], that is with status 0; no trace line is printed, and the
    registers, [ram], [fl] and [pc] are as before. *)
Theorem DIV_MOD_by_zero_halts_with_status_0 (s : CPU) (ra rb : Z) :
  Py.getitem (reg s) rb = Some 0 ->
  _ALU_DIV ra rb s = Exit 0 (div_by_zero_report s) /\
  _ALU_MOD ra rb s = Exit 0 (div_by_zero_report s) /\
  reg (div_by_zero_report s) = reg s /\
  stdout (div_by_zero_report s) = stdout s ++ Py.lit "Cannot divide by 0!" ++ [10].
Proof.
  intros Hb. split; [|split; [|split]].
  - apply ALU_DIV_by_zero. assumption.
  - apply ALU_MOD_by_zero. assumption.
  - reflexivity.
  - reflexivity.
Qed.

Lemma DIV_MOD_by_zero_halts_with_status_0_witness :
  _ALU_DIV 0 1 init = Exit 0 (div_by_zero_report init) /\
  _ALU_MOD 0 1 init = Exit 0 (div_by_zero_report init) /\
  reg (div_by_zero_report init) = reg init /\
  stdout (div_by_zero_report init) = stdout init ++ Py.lit "Cannot divide by 0!" ++ [10].
Proof.
  apply (DIV_MOD_by_zero_halts_with_status_0 init 0 1). reflexivity.
Defined.

(** C6, as stated, fails on a fresh CPU ([reg[1] = 0]): DIV R0,R1 and
    MOD R0,R1 do not end with a nonzero status, and what they print is the
    diagnostic line alone. *)
Lemma DIV_MOD_by_zero_nonzero_status_counterexample :
  ~ (exists n s', _ALU_DIV 0 1 init = Exit n s' /\ n <> 0) /\
  ~ (exists n s', _ALU_MOD 0 1 init = Exit n s' /\ n <> 0) /\
  stdout (final (_ALU_DIV 0 1 init)) = Py.lit "Cannot divide by 0!" ++ [10] /\
  stdout (final (_ALU_MOD 0 1 init)) = Py.lit "Cannot divide by 0!" ++ [10].
Proof.
  rewrite (ALU_DIV_by_zero init 0 1 eq_refl), (ALU_MOD_by_zero init 0 1 eq_refl).
  split; [|split; [|split]]; try reflexivity.
  - intros (n & s' & H & Hn). inversion H. congruence.
  - intros (n & s' & H & Hn). inversion H. congruence.
Qed.

(** ** INT *)

Lemma INT_ors_2_into_operand (s : CPU) (r v : Z) :
  Py.getitem (reg s) r = Some v ->
  _INT r s = reg_set isr (Z.lor v 2) s.
Proof.
  intros Hr. unfold _INT.
  rewrite (bind_Ret _ _ s v s) by (apply reg_get_Some; assumption).
  reflexivity.
Qed.

(** C5 at a failing input.  On a fresh CPU ([reg[0] = 0], IS [= 0]),
    INT R0 leaves IS [= 0b10]: it stores [reg[0] | 0b10] into [reg[6]],
    where raising interrupt number [reg[0] = 0] would give
    IS [= 0 | (1 << 0) = 1].  The other registers are unchanged. *)
Theorem INT_raises_bit_1_of_operand :
  _INT 0 init = Ret tt (cpu_with_regs [0; 0; 0; 0; 0; 0; 2; 0xF4]) /\
  Py.getitem (reg init) isr = Some 0 /\
  Py.getitem (reg init) 0 = Some 0 /\
  Z.lor 0 (Z.shiftl 1 0) = 1.
Proof. repeat split. Qed.

(** ** JNE *)

Lemma JNE_jumps_unless_fl_is_1 (s : CPU) (r v : Z) :
  Py.getitem (reg s) r = Some v ->
  _JNE r s = Ret tt (with_pc (if fl s =? 1 then pc s + 2 else v) s).
Proof.
  intros Hr.
  assert (Hx : (Z.lxor (fl s) 1 =? 0) = (fl s =? 1)).
  { destruct (Z.eqb_spec (fl s) 1) as [->|Hne]; [reflexivity|].
    apply Z.eqb_neq. rewrite Z.lxor_eq_0_iff. assumption. }
  unfold _JNE. rewrite (bind_Ret _ _ s (fl s) s) by reflexivity.
  unfold jump_if, Py.truthy. rewrite Hx.
  destruct (fl s =? 1); simpl.
  - reflexivity.
  - rewrite (bind_Ret _ _ s v s) by (apply reg_get_Some; assumption).
    reflexivity.
Qed.

(** C9 at a failing input.  With [fl = 0b011] the E bit is set, yet
    JNE R0 jumps to [reg[0] = 10] instead of setting [pc] to [pc + 2]:
    the test is [fl ^ 1], which is zero only for [fl = 1]. *)
Theorem JNE_jumps_with_E_set :
  Z.testbit (fl fl_equal_and_greater) 0 = true /\
  _JNE 0 fl_equal_and_greater = Ret tt (with_pc 10 fl_equal_and_greater) /\
  pc fl_equal_and_greater + 2 = 2.
Proof. repeat split. Qed.

(** ** Operand fetch and trace near the top of memory *)

Lemma operand_a_defined (s : CPU) :
  length (ram s) = 256%nat -> 0 <= pc s <= 254 ->
  exists a, ram s !! Z.to_nat (pc s + 1) = Some a /\ _operand_a s = Ret a s.
Proof.
  intros Hlen Hpc.
  destruct (lookup_lt_is_Some_2 (ram s) (Z.to_nat (pc s + 1))) as [a Ha]; [lia|].
  exists a. split; [assumption|].
  unfold _operand_a. rewrite (bind_Ret _ _ s (pc s) s) by reflexivity.
  apply ram_get_Some. rewrite getitem_nonneg by lia. assumption.
Qed.

Lemma operand_b_defined (s : CPU) :
  length (ram s) = 256%nat -> 0 <= pc s <= 253 ->
  exists b, ram s !! Z.to_nat (pc s + 2) = Some b /\ _operand_b s = Ret b s.
Proof.
  intros Hlen Hpc.
  destruct (lookup_lt_is_Some_2 (ram s) (Z.to_nat (pc s + 2))) as [b Hb]; [lia|].
  exists b. split; [assumption|].
  unfold _operand_b. rewrite (bind_Ret _ _ s (pc s) s) by reflexivity.
  apply ram_get_Some. rewrite getitem_nonneg by lia. assumption.
Qed.

Lemma operand_a_faults (s : CPU) :
  length (ram s) = 256%nat -> 255 <= pc s ->
  _operand_a s = Raise Py.IndexError s.
Proof.
  intros Hlen Hpc. unfold _operand_a.
  rewrite (bind_Ret _ _ s (pc s) s) by reflexivity.
  apply ram_get_None, getitem_out. lia.
Qed.

Lemma operand_b_faults (s : CPU) :
  length (ram s) = 256%nat -> 254 <= pc s ->
  _operand_b s = Raise Py.IndexError s.
Proof.
  intros Hlen Hpc. unfold _operand_b.
  rewrite (bind_Ret _ _ s (pc s) s) by reflexivity.
  apply ram_get_None, getitem_out. lia.
Qed.

(** The register dump of [_trace] only appends to standard output. *)
Lemma trace_registers (s : CPU) :
  length (reg s) = 8%nat ->
  exists out,
    for_each (Py.range 0 8)
      (fun i => do v <- reg_get i; print (Py.lit " " ++ Py.fmt_02X v) []) s
    = Ret tt (with_stdout (stdout s ++ out) s).
Proof.
  destruct s as [p i f m rs ie o]. simpl. intros Hlen.
  do 9 (destruct rs as [|? rs]; try discriminate Hlen).
  eexists. cbv [Py.range seq map Z.to_nat Z.sub Z.add Z.opp Z.pos_sub Pos.to_nat
                Pos.iter_op Nat.add Z.of_nat Pos.of_succ_nat Pos.succ for_each].
  unfold bind, reg_get, print, with_stdout; simpl.
  f_equal. f_equal. rewrite <- !app_assoc. reflexivity.
Qed.

Lemma trace_defined (s : CPU) :
  well_shaped s -> 0 <= pc s <= 253 ->
  exists out, _trace s = Ret tt (with_stdout (stdout s ++ out) s).
Proof.
  intros [Hram Hreg] Hpc.
  destruct (lookup_lt_is_Some_2 (ram s) (Z.to_nat (pc s))) as [b0 H0]; [lia|].
  destruct (lookup_lt_is_Some_2 (ram s) (Z.to_nat (pc s + 1))) as [b1 H1]; [lia|].
  destruct (lookup_lt_is_Some_2 (ram s) (Z.to_nat (pc s + 2))) as [b2 H2]; [lia|].
  unfold _trace, _ram_read.
  rewrite (bind_Ret _ _ s (pc s) s) by reflexivity.
  rewrite (bind_Ret _ _ s (pc s) s) by reflexivity.
  rewrite (bind_Ret _ _ s b0 s)
    by (apply ram_get_Some; rewrite getitem_nonneg by lia; assumption).
  rewrite (bind_Ret _ _ s (pc s) s) by reflexivity.
  rewrite (bind_Ret _ _ s b1 s)
    by (apply ram_get_Some; rewrite getitem_nonneg by lia; assumption).
  rewrite (bind_Ret _ _ s (pc s) s) by reflexivity.
  rewrite (bind_Ret _ _ s b2 s)
    by (apply ram_get_Some; rewrite getitem_nonneg by lia; assumption).
  match goal with
  | |- context [print ?t []] =>
      rewrite (bind_Ret _ _ s tt (with_stdout (stdout s ++ t ++ []) s)) by reflexivity
  end.
  match goal with
  | |- context [with_stdout ?o s] =>
      destruct (trace_registers (with_stdout o s) Hreg) as [out Hout]
  end.
  rewrite (bind_Ret _ _ _ _ _ Hout).
  eexists. unfold print, with_stdout; simpl. f_equal. f_equal.
  rewrite <- !app_assoc. reflexivity.
Qed.

Lemma trace_faults (s : CPU) :
  length (ram s) = 256%nat -> 254 <= pc s <= 255 ->
  _trace s = Raise Py.IndexError s.
Proof.
  intros Hram Hpc.
  destruct (lookup_lt_is_Some_2 (ram s) (Z.to_nat (pc s))) as [b0 H0]; [lia|].
  unfold _trace, _ram_read.
  rewrite (bind_Ret _ _ s (pc s) s) by reflexivity.
  rewrite (bind_Ret _ _ s (pc s) s) by reflexivity.
  rewrite (bind_Ret _ _ s b0 s)
    by (apply ram_get_Some; rewrite getitem_nonneg by lia; assumption).
  rewrite (bind_Ret _ _ s (pc s) s) by reflexivity.
  destruct (Z.eq_dec (pc s) 255) as [E|E].
  - apply bind_Raise, ram_get_None, getitem_out. lia.
  - destruct (lookup_lt_is_Some_2 (ram s) (Z.to_nat (pc s + 1))) as [b1 H1]; [lia|].
    rewrite (bind_Ret _ _ s b1 s)
      by (apply ram_get_Some; rewrite getitem_nonneg by lia; assumption).
    rewrite (bind_Ret _ _ s (pc s) s) by reflexivity.
    apply bind_Raise, ram_get_None, getitem_out. lia.
Qed.

(** C7, as the code has it.  In a machine of 256 cells and 8 registers
    with [pc] in [0, 255]: reading [ram[pc+1]] is defined for [pc <= 254]
    and raises [IndexError] for [pc = 255]; reading [ram[pc+2]], and with
    it the trace line, is defined for [pc <= 253] and raises [IndexError]
    for [pc >= 254].  The addresses [pc+1] and [pc+2] are not reduced
    modulo 256. *)
Theorem operand_fetch_defined_below_top (s : CPU) :
  well_shaped s -> 0 <= pc s <= 255 ->
  (pc s <= 254 ->
   exists a, ram s !! Z.to_nat (pc s + 1) = Some a /\ _operand_a s = Ret a s) /\
  (pc s = 255 -> _operand_a s = Raise Py.IndexError s) /\
  (pc s <= 253 ->
   (exists b, ram s !! Z.to_nat (pc s + 2) = Some b /\ _operand_b s = Ret b s) /\
   (exists out, _trace s = Ret tt (with_stdout (stdout s ++ out) s))) /\
  (254 <= pc s ->
   _operand_b s = Raise Py.IndexError s /\ _trace s = Raise Py.IndexError s).
Proof.
  intros Hs Hpc. pose proof Hs as [Hram Hreg].
  split; [|split; [|split]].
  - intros H. apply operand_a_defined; [assumption | lia].
  - intros H. apply operand_a_faults; [assumption | lia].
  - intros H. split.
    + apply operand_b_defined; [assumption | lia].
    + apply trace_defined; [assumption | lia].
  - intros H. split.
    + apply operand_b_faults; assumption.
    + apply trace_faults; [assumption | lia].
Qed.

Lemma operand_fetch_defined_below_top_witness :
  (pc (cpu_at 10) <= 254 ->
   exists a, ram (cpu_at 10) !! Z.to_nat (pc (cpu_at 10) + 1) = Some a /\
             _operand_a (cpu_at 10) = Ret a (cpu_at 10)) /\
  (pc (cpu_at 10) = 255 -> _operand_a (cpu_at 10) = Raise Py.IndexError (cpu_at 10)) /\
  (pc (cpu_at 10) <= 253 ->
   (exists b, ram (cpu_at 10) !! Z.to_nat (pc (cpu_at 10) + 2) = Some b /\
              _operand_b (cpu_at 10) = Ret b (cpu_at 10)) /\
   (exists out, _trace (cpu_at 10)
                = Ret tt (with_stdout (stdout (cpu_at 10) ++ out) (cpu_at 10)))) /\
  (254 <= pc (cpu_at 10) ->
   _operand_b (cpu_at 10) = Raise Py.IndexError (cpu_at 10) /\
   _trace (cpu_at 10) = Raise Py.IndexError (cpu_at 10)).
Proof.
  apply (operand_fetch_defined_below_top (cpu_at 10)).
  - split; reflexivity.
  - simpl. lia.
Defined.

(** C7, as stated, fails at [pc = 255] and [pc = 254]: on a fresh CPU the
    read of [ram[pc+1]] at [pc = 255], and the read of [ram[pc+2]] and the
    trace at [pc = 254], raise [IndexError]. *)
Lemma operand_fetch_at_top_counterexample :
  _operand_a (cpu_at 255) = Raise Py.IndexError (cpu_at 255) /\
  _operand_b (cpu_at 254) = Raise Py.IndexError (cpu_at 254) /\
  _trace (cpu_at 254) = Raise Py.IndexError (cpu_at 254).
Proof. repeat split. Qed.

(** ** CALL and RET at the ends of the stack *)

(** C4 at its failing inputs.  CALL R0 with SP [= 0x00] stores the return
    address in the last cell (subscript [-1]) and leaves SP [= -1]; RET
    with SP [= 0xFF] leaves SP [= 256].  Neither applies the wrap that
    [_PUSH] and [_POP] apply, and neither value is in [0, 255]. *)
Theorem CALL_RET_leave_SP_out_of_range :
  (exists s', _CALL 0 (cpu_with_regs [0x20; 0; 0; 0; 0; 0; 0; 0]) = Ret tt s' /\
              Py.getitem (reg s') spr = Some (-1) /\
              ram s' !! 255%nat = Some 2 /\ pc s' = 0x20) /\
  (exists s', _RET (cpu_with_regs [0; 0; 0; 0; 0; 0; 0; 0xFF]) = Ret tt s' /\
              Py.getitem (reg s') spr = Some 256) /\
  (exists s', _PUSH (Some 0) None (cpu_with_regs [0x20; 0; 0; 0; 0; 0; 0; 0]) = Ret tt s' /\
              Py.getitem (reg s') spr = Some 0xFF) /\
  (exists s', _POP (Some 0) false (cpu_with_regs [0; 0; 0; 0; 0; 0; 0; 0xFF]) = Ret None s' /\
              Py.getitem (reg s') spr = Some 0).
Proof.
  split; [|split; [|split]]; eexists; (split; [reflexivity|]); repeat split.
Qed.

(** ** The interrupt scan *)

(** C2 at its failing inputs.  With IM = IS = 0b00000100 (only interrupt 2
    pending) the scan stops at loop index 4, because [4 & masked] is
    nonzero: it clears bit 3 of IS, so bit 2 stays set, and loads [pc]
    from the IVT cell 0xFB of interrupt 3 instead of cell 0xFA.  With
    IM = IS = 0b00010000 no loop index in 1..8 meets the test and nothing
    is dispatched. *)
Theorem handle_interrupts_misses_lowest_set_bit :
  (exists s', _handle_interrupts irq2_pending = Ret tt s' /\
              interrupts_enabled s' = false /\
              Py.getitem (reg s') isr = Some 4 /\
              ram irq2_pending !! 0xFA%nat = Some 0x10 /\
              ram irq2_pending !! 0xFB%nat = Some 0x20 /\
              pc s' = 0x20) /\
  _handle_interrupts irq4_pending = Ret tt irq4_pending.
Proof.
  split; [eexists; split; [vm_compute; reflexivity|]; repeat split | reflexivity].
Qed.

(** Where the scan does find the lowest pending bit: bits 0 and 1, the
    timer and the keyboard. *)
Lemma handle_interrupts_services_bits_0_and_1 (s : CPU) (im st : Z) :
  Py.getitem (reg s) imr = Some im ->
  Py.getitem (reg s) isr = Some st ->
  (Z.testbit (Z.land im st) 0 = true ->
   _handle_interrupts s = service_interrupt 1 s) /\
  (Z.testbit (Z.land im st) 0 = false -> Z.testbit (Z.land im st) 1 = true ->
   _handle_interrupts s = service_interrupt 2 s).
Proof.
  intros Him Hst. unfold _handle_interrupts.
  rewrite (bind_Ret _ _ s im s) by (apply reg_get_Some; assumption).
  rewrite (bind_Ret _ _ s st s) by (apply reg_get_Some; assumption).
  change (Py.range 1 (Z.of_nat (length ivt) + 1)) with [1; 2; 3; 4; 5; 6; 7; 8].
  set (masked := Z.land im st).
  assert (H1 : Z.testbit (Z.land 1 masked) 0 = Z.testbit masked 0)
    by (rewrite Z.land_spec; reflexivity).
  assert (H2 : Z.testbit (Z.land 2 masked) 1 = Z.testbit masked 1)
    by (rewrite Z.land_spec; reflexivity).
  split.
  - intros B0. cbn [interrupt_loop]. unfold Py.truthy.
    destruct (Z.eqb_spec (Z.land 1 masked) 0) as [E|E]; [|reflexivity].
    rewrite E, B0 in H1. discriminate H1.
  - intros B0 B1. cbn [interrupt_loop]. unfold Py.truthy.
    destruct (Z.eqb_spec (Z.land 1 masked) 0) as [E|E].
    + destruct (Z.eqb_spec (Z.land 2 masked) 0) as [E2|E2]; [|reflexivity].
      rewrite E2, B1 in H2. discriminate H2.
    + exfalso. apply E. apply Z.bits_inj'. intros n Hn.
      rewrite Z.land_spec, Z.bits_0.
      destruct (Z.eq_dec n 0) as [->|Hne].
      * rewrite B0. apply andb_false_r.
      * replace (Z.testbit 1 n) with false; [reflexivity|].
        symmetry. change 1 with (2 ^ 0). apply Z.pow2_bits_false. lia.
Qed.

(** C1, as stated, fails for [reg[6]]: with interrupt 0 pending and
    enabled and a lone IRET as its handler, one cycle dispatches and
    returns, and IS is then 0 where it was 1 before the dispatch. *)
Lemma interrupt_round_trip_changes_IS_counterexample :
  interrupts_enabled irq0_pending = true /\
  (exists s1, _handle_interrupts irq0_pending = Ret tt s1 /\
              interrupts_enabled s1 = false /\
              Py.getitem (ram s1) (pc s1) = Some 0x13) /\
  exists s2, cycle false irq0_pending = Ret tt s2 /\
             Py.getitem (reg irq0_pending) isr = Some 1 /\
             Py.getitem (reg s2) isr = Some 0 /\
             Py.getitem (reg s2) isr <> Py.getitem (reg irq0_pending) isr /\
             interrupts_enabled s2 = true.
Proof.
  split; [reflexivity|]. split.
  - eexists. split; [vm_compute; reflexivity|]. split; reflexivity.
  - eexists. split; [vm_compute; reflexivity|].
    split; [reflexivity|]. split; [reflexivity|]. split; [discriminate | reflexivity].
Qed.

(** ** The stack *)

Lemma sp_down_byte sp : byte sp -> byte (sp_down sp).
Proof. unfold byte, sp_down. destruct (Z.eqb_spec sp 0); lia. Qed.

Lemma sp_up_byte sp : byte sp -> byte (sp_up sp).
Proof. unfold byte, sp_up. destruct (Z.eqb_spec sp 0xFF); lia. Qed.

Lemma sp_up_down sp : byte sp -> sp_up (sp_down sp) = sp.
Proof.
  unfold byte, sp_up, sp_down. intros H.
  destruct (Z.eqb_spec sp 0); [subst; reflexivity|].
  destruct (Z.eqb_spec (sp - 1) 0xFF); lia.
Qed.

Lemma sp_up_iter_mod (n : nat) sp :
  byte sp -> Nat.iter n sp_up sp = (sp + Z.of_nat n) mod 256.
Proof.
  intros H. induction n as [|n IH].
  - simpl. rewrite Z.add_0_r, Z.mod_small; unfold byte in H; lia.
  - rewrite Nat.iter_succ, IH. unfold sp_up.
    replace (sp + Z.of_nat (S n)) with ((sp + Z.of_nat n) + 1) by lia.
    rewrite <- (Zplus_mod_idemp_l (sp + Z.of_nat n) 1 256).
    pose proof (Z.mod_pos_bound (sp + Z.of_nat n) 256 ltac:(lia)) as Hb.
    destruct (Z.eqb_spec ((sp + Z.of_nat n) mod 256) 0xFF) as [E|E].
    + rewrite E. reflexivity.
    + rewrite (Z.mod_small ((sp + Z.of_nat n) mod 256 + 1)) by lia. reflexivity.
Qed.

(** A write outside the cells a stack occupies leaves the stack intact. *)
Lemma stacked_insert_outside (vs : list Z) :
  forall (m : list Z) sp a v,
    byte sp ->
    (forall k : nat, (k < length vs)%nat -> Z.to_nat a <> Z.to_nat (Nat.iter k sp_up sp)) ->
    stacked m sp vs ->
    stacked (<[Z.to_nat a := v]> m) sp vs.
Proof.
  induction vs as [|x vs IH]; intros m sp a v Hsp Hout Hst; simpl in *; [exact I|].
  destruct Hst as [Hx Hrest]. split.
  - rewrite list_lookup_insert_ne; [assumption|].
    apply (Hout 0%nat). lia.
  - apply IH; [apply sp_up_byte; assumption | | assumption].
    intros k Hk. specialize (Hout (S k) ltac:(lia)).
    rewrite Nat.iter_succ_r in Hout. assumption.
Qed.

Lemma sp_down_not_above sp (k : nat) :
  byte sp -> (k < 255)%nat ->
  Z.to_nat (sp_down sp) <> Z.to_nat (Nat.iter k sp_up sp).
Proof.
  intros Hsp Hk. rewrite sp_up_iter_mod by assumption.
  pose proof (Z.mod_pos_bound (sp + Z.of_nat k) 256 ltac:(lia)) as Hb.
  pose proof (sp_down_byte sp Hsp) as Hd. unfold byte in *.
  intros E. apply Z2Nat.inj in E; [|lia|lia].
  unfold sp_down in E.
  destruct (Z.eqb_spec sp 0) as [E0|E0].
  - subst sp. rewrite Z.mod_small in E; lia.
  - destruct (Z_lt_le_dec (sp + Z.of_nat k) 256) as [Hlt|Hge].
    + rewrite Z.mod_small in E; lia.
    + replace (sp + Z.of_nat k) with ((sp + Z.of_nat k - 256) + 1 * 256) in E by lia.
      rewrite Z_mod_plus_full, Z.mod_small in E; lia.
Qed.

Lemma getitem_byte_index (m : list Z) a :
  length m = 256%nat -> byte a -> Py.getitem m a = m !! Z.to_nat a.
Proof. intros Hl Ha. apply getitem_nonneg. unfold byte in Ha. lia. Qed.

Lemma ram_set_byte_index p i f (m : list Z) rs ie o a v :
  length m = 256%nat -> byte a ->
  ram_set a v (mkCPU p i f m rs ie o)
  = Ret tt (mkCPU p i f (<[Z.to_nat a := v]> m) rs ie o).
Proof.
  intros Hl Ha. unfold ram_set; simpl.
  rewrite setitem_nonneg by (unfold byte in Ha; lia). reflexivity.
Qed.

Lemma PUSH_value_stacked p i f (m : list Z) r0 r1 r2 r3 r4 r5 r6 sp ie o v st :
  length m = 256%nat -> byte sp -> stacked m sp st -> (length st < 256)%nat ->
  exists m',
    _PUSH None (Some v) (mkCPU p i f m [r0; r1; r2; r3; r4; r5; r6; sp] ie o)
    = Ret tt (mkCPU p i f m' [r0; r1; r2; r3; r4; r5; r6; sp_down sp] ie o) /\
    length m' = 256%nat /\
    stacked m' (sp_down sp) (v :: st) /\
    (Forall byte m -> byte v -> Forall byte m').
Proof.
  intros Hl Hsp Hst Hn.
  pose proof (sp_down_byte sp Hsp) as Hd.
  exists (<[Z.to_nat (sp_down sp) := v]> m).
  split; [|split; [|split]].
  - unfold _PUSH.
    erewrite (bind_Ret (reg_get spr)) by reflexivity.
    assert (Hdec : (if sp =? 0 then reg_set spr 0xFF
                    else do sp' <- reg_get spr; reg_set spr (sp' - 1))
                     (mkCPU p i f m [r0; r1; r2; r3; r4; r5; r6; sp] ie o)
                   = Ret tt (mkCPU p i f m [r0; r1; r2; r3; r4; r5; r6; sp_down sp] ie o)).
    { unfold sp_down. destruct (sp =? 0); reflexivity. }
    rewrite (bind_Ret _ _ _ _ _ Hdec).
    erewrite (bind_Ret (reg_get spr)) by reflexivity.
    apply ram_set_byte_index; assumption.
  - rewrite length_insert. assumption.
  - simpl. split.
    + apply list_lookup_insert_eq. unfold byte in Hd. lia.
    + rewrite sp_up_down by assumption.
      apply stacked_insert_outside; [assumption | | assumption].
      intros k Hk. apply sp_down_not_above; [assumption | lia].
  - intros Hm Hv. apply Forall_insert; assumption.
Qed.

Lemma pop_value_at p i f (m : list Z) r0 r1 r2 r3 r4 r5 r6 sp ie o v :
  length m = 256%nat -> byte sp -> m !! Z.to_nat sp = Some v ->
  pop_value (mkCPU p i f m [r0; r1; r2; r3; r4; r5; r6; sp] ie o)
  = Ret v (mkCPU p i f m [r0; r1; r2; r3; r4; r5; r6; sp_up sp] ie o).
Proof.
  intros Hl Hsp Hv.
  unfold pop_value.
  assert (Hinc : (if sp =? 0xFF then reg_set spr 0
                  else do c <- reg_get spr; reg_set spr (c + 1))
                   (mkCPU p i f m [r0; r1; r2; r3; r4; r5; r6; sp] ie o)
                 = Ret tt (mkCPU p i f m [r0; r1; r2; r3; r4; r5; r6; sp_up sp] ie o)).
  { unfold sp_up. destruct (sp =? 0xFF); reflexivity. }
  assert (Hget : ram_get sp (mkCPU p i f m [r0; r1; r2; r3; r4; r5; r6; sp_up sp] ie o)
                 = Ret v (mkCPU p i f m [r0; r1; r2; r3; r4; r5; r6; sp_up sp] ie o)).
  { apply ram_get_Some. simpl. rewrite getitem_byte_index; assumption. }
  assert (Hpop : _POP None true (mkCPU p i f m [r0; r1; r2; r3; r4; r5; r6; sp] ie o)
                 = Ret (Some v) (mkCPU p i f m [r0; r1; r2; r3; r4; r5; r6; sp_up sp] ie o)).
  { unfold _POP.
    erewrite (bind_Ret (reg_get spr)) by reflexivity.
    erewrite (bind_Ret (reg_get spr)) by reflexivity.
    rewrite (bind_Ret _ _ _ _ _ Hinc).
    rewrite (bind_Ret _ _ _ _ _ Hget).
    reflexivity. }
  rewrite (bind_Ret _ _ _ _ _ Hpop). reflexivity.
Qed.

Lemma bind_assoc {A B C} (c : M A) (k : A -> M B) (h : B -> M C) s :
  bind (bind c k) h s = bind c (fun a => bind (k a) h) s.
Proof. unfold bind. destruct (c s); reflexivity. Qed.

Lemma sp_up_down_iter (n : nat) sp :
  byte sp -> Nat.iter n sp_up (Nat.iter n sp_down sp) = sp.
Proof.
  intros H. induction n as [|n IH]; [reflexivity|].
  rewrite Nat.iter_succ_r. simpl.
  rewrite sp_up_down; [assumption|].
  clear IH. induction n; simpl; [assumption | apply sp_down_byte; assumption].
Qed.

Lemma sp_down_iter_byte (n : nat) sp : byte sp -> byte (Nat.iter n sp_down sp).
Proof. intros H. induction n; simpl; [assumption | apply sp_down_byte; assumption]. Qed.

Lemma land_255_mod x : Z.land x 255 = x mod 256.
Proof. change 255 with (Z.ones 8). rewrite Z.land_ones by lia. reflexivity. Qed.

Lemma byte_land_255 x : byte (Z.land x 255).
Proof.
  unfold byte. rewrite land_255_mod.
  pose proof (Z.mod_pos_bound x 256 ltac:(lia)). lia.
Qed.

Lemma byte_is_land_255 x : byte x -> x = Z.land x 255.
Proof.
  unfold byte. intros H. rewrite land_255_mod, Z.mod_small; lia.
Qed.

Lemma byte_land_l a b : byte a -> byte (Z.land a b).
Proof.
  intros Ha. rewrite (byte_is_land_255 a Ha).
  rewrite <- Z.land_assoc, (Z.land_comm 255 b), Z.land_assoc.
  apply byte_land_255.
Qed.

Lemma ivt_entry k :
  1 <= k <= 8 -> Py.getitem ivt (k - 1) = Some (0xF8 + (k - 1)) .
Proof.
  intros H.
  assert (E : k = 1 \/ k = 2 \/ k = 3 \/ k = 4 \/ k = 5 \/ k = 6 \/ k = 7 \/ k = 8) by lia.
  repeat (destruct E as [->|E]; [reflexivity|]). subst. reflexivity.
Qed.

(** One [_PUSH] of a value in front of a continuation, on a state whose
    registers are spelled out. *)
Ltac push_step Hl Hsp Hst :=
  let m' := fresh "m" in
  let Hp := fresh "Hpush" in
  let Hl' := fresh "Hlen" in
  let Hst' := fresh "Hst" in
  let Hb' := fresh "Hbytes" in
  lazymatch goal with
  | |- context [bind (_PUSH None (Some ?v)) _
                  (mkCPU ?p ?i ?f ?m [?r0; ?r1; ?r2; ?r3; ?r4; ?r5; ?r6; ?sp] ?ie ?o)] =>
      destruct (PUSH_value_stacked p i f m r0 r1 r2 r3 r4 r5 r6 sp ie o v _ Hl Hsp Hst)
        as (m' & Hp & Hl' & Hst' & Hb'); [simpl; lia|];
      rewrite (bind_Ret _ _ _ _ _ Hp)
  end.

(** Bring a state built by the setters back to the constructor form. *)
Ltac norm_state :=
  cbv [with_pc with_ir with_fl with_ram with_reg with_interrupts_enabled with_stdout
       pc ir fl ram reg interrupts_enabled stdout isr imr spr];
  change (Z.to_nat 0) with 0%nat; change (Z.to_nat 1) with 1%nat;
  change (Z.to_nat 2) with 2%nat; change (Z.to_nat 3) with 3%nat;
  change (Z.to_nat 4) with 4%nat; change (Z.to_nat 5) with 5%nat;
  change (Z.to_nat 6) with 6%nat; change (Z.to_nat 7) with 7%nat;
  cbv [insert list_insert].

Ltac push_auto :=
  lazymatch goal with
  | Hl : length ?m = 256%nat, Hst : stacked ?m ?sp _
    |- context [bind (_PUSH None (Some _)) _
                  (mkCPU _ _ _ ?m [_; _; _; _; _; _; _; ?sp] _ _)] =>
      let Hsp := fresh "Hsp" in
      assert (Hsp : byte sp) by (repeat apply sp_down_byte; assumption);
      push_step Hl Hsp Hst
  end.

Lemma service_interrupt_spec p i f (m : list Z) r0 r1 r2 r3 r4 r5 r6 sp ie o k :
  length m = 256%nat -> byte sp -> 1 <= k <= 8 ->
  exists m' h cleared,
    service_interrupt k (mkCPU p i f m [r0; r1; r2; r3; r4; r5; r6; sp] ie o)
    = Ret tt (mkCPU h i f m' [r0; r1; r2; r3; r4; r5; cleared; Nat.iter 9 sp_down sp] false o) /\
    unset_nth_bit r6 (k - 1) = Some cleared /\
    length m' = 256%nat /\
    stacked m' (Nat.iter 9 sp_down sp) [cleared; r5; r4; r3; r2; r1; r0; f; p] /\
    m' !! Z.to_nat (0xF8 + (k - 1)) = Some h /\
    (Forall byte m -> byte p -> byte f -> Forall byte [r0; r1; r2; r3; r4; r5; r6] ->
     Forall byte m' /\ byte h /\ byte cleared).
Proof.
  intros Hl Hsp Hk.
  assert (Hcl : unset_nth_bit r6 (k - 1) = Some (Z.land r6 (Z.lnot (Z.shiftl 1 (k - 1))))).
  { unfold unset_nth_bit, Py.lshift. destruct (Z.ltb_spec (k - 1) 0); [lia | reflexivity]. }
  set (cleared := Z.land r6 (Z.lnot (Z.shiftl 1 (k - 1)))) in *.
  unfold service_interrupt.
  erewrite (bind_Ret (set_interrupts_enabled false)) by reflexivity.
  erewrite (bind_Ret (reg_get isr)) by reflexivity.
  rewrite Hcl.
  erewrite (bind_Ret (lift _ _)) by reflexivity.
  erewrite (bind_Ret (reg_set isr cleared)) by reflexivity.
  erewrite (bind_Ret get_pc) by reflexivity.
  assert (Hst : stacked m sp []) by exact I.
  norm_state.
  push_step Hl Hsp Hst.
  erewrite (bind_Ret get_fl) by reflexivity. norm_state.
  pose proof (sp_down_byte _ Hsp) as Hsp1.
  push_step Hlen Hsp1 Hst0.
  change (Py.range 0 7) with [0; 1; 2; 3; 4; 5; 6]. cbv [for_each].
  do 7 (rewrite ?bind_assoc; erewrite (bind_Ret (reg_get _)) by reflexivity; push_auto).
  erewrite (bind_Ret (pure tt)) by reflexivity.
  rewrite (ivt_entry k Hk).
  erewrite (bind_Ret (lift _ _)) by reflexivity.
  match goal with
  | Hlm : length ?m' = 256%nat |- context [mkCPU _ _ _ ?m' _ _ _] =>
      destruct (lookup_lt_is_Some_2 m' (Z.to_nat (0xF8 + (k - 1)))) as [h Hh]; [lia|];
      exists m', h, cleared
  end.
  split; [|split; [reflexivity|split; [|split; [|split]]]]; try assumption.
  - erewrite (bind_Ret (ram_get _))
      by (apply ram_get_Some; cbv [ram]; rewrite getitem_nonneg by lia; exact Hh).
    reflexivity.
  - intros Hm Hp Hf Hr.
    repeat match goal with H : Forall byte (_ :: _) |- _ => inversion H; clear H; subst end.
    assert (Hc : byte cleared) by (apply byte_land_l; assumption).
    repeat match goal with
           | Hb : Forall byte ?a -> byte ?v -> Forall byte ?b, Ha : Forall byte ?a |- _ =>
               let Hn := fresh "Hm" in
               assert (Hn : Forall byte b) by (apply Hb; assumption); clear Hb
           end.
    split; [assumption|]. split; [|assumption].
    match goal with
    | Ha : Forall byte ?a, Hh' : ?a !! _ = Some h |- _ =>
        exact (proj1 (Forall_lookup byte a) Ha _ _ Hh')
    end.
Qed.

Ltac pop_step :=
  lazymatch goal with
  | Hl : length ?m = 256%nat, Hv : ?m !! Z.to_nat ?sp = Some ?v
    |- context [bind pop_value _
                  (mkCPU ?p ?i ?f ?m [?r0; ?r1; ?r2; ?r3; ?r4; ?r5; ?r6; ?sp] ?ie ?o)] =>
      let Hsp := fresh "Hsp" in
      assert (Hsp : byte sp) by (repeat apply sp_up_byte; assumption);
      rewrite (bind_Ret _ _ _ _ _
                 (pop_value_at p i f m r0 r1 r2 r3 r4 r5 r6 sp ie o v Hl Hsp Hv))
  end.

Lemma IRET_spec p i f (m : list Z) r0 r1 r2 r3 r4 r5 r6 sp ie o
      v6 v5 v4 v3 v2 v1 v0 f' p' :
  length m = 256%nat -> byte sp ->
  stacked m sp [v6; v5; v4; v3; v2; v1; v0; f'; p'] ->
  _IRET (mkCPU p i f m [r0; r1; r2; r3; r4; r5; r6; sp] ie o)
  = Ret tt (mkCPU p' i f' m [v0; v1; v2; v3; v4; v5; v6; Nat.iter 9 sp_up sp] true o).
Proof.
  intros Hl Hsp Hst. simpl in Hst.
  destruct Hst as (H6 & H5 & H4 & H3 & H2 & H1 & H0 & Hf & Hp & _).
  unfold _IRET.
  change (Py.range_down 6 (-1)) with [6; 5; 4; 3; 2; 1; 0]. cbv [for_each].
  do 7 (rewrite ?bind_assoc; pop_step;
        erewrite (bind_Ret (reg_set _ _)) by reflexivity; norm_state).
  erewrite (bind_Ret (pure tt)) by reflexivity.
  pop_step. erewrite (bind_Ret (set_fl _)) by reflexivity. norm_state.
  pop_step. erewrite (bind_Ret (set_pc _)) by reflexivity. norm_state.
  reflexivity.
Qed.

(** ** Dispatch followed by IRET *)

Lemma interrupt_loop_cases masked (l : list Z) s :
  interrupt_loop masked l s = Ret tt s \/
  exists k, In k l /\ interrupt_loop masked l s = service_interrupt k s.
Proof.
  induction l as [|i l IH]; simpl; [left; reflexivity|].
  destruct (Py.truthy (Z.land i masked)).
  - right. exists i. split; [left; reflexivity | reflexivity].
  - destruct IH as [IH | (k & Hin & IH)]; [left; assumption|].
    right. exists k. split; [right; assumption | assumption].
Qed.

Lemma reg_get_defined s r :
  length (reg s) = 8%nat -> 0 <= r < 8 ->
  exists v, reg s !! Z.to_nat r = Some v /\ reg_get r s = Ret v s.
Proof.
  intros Hl Hr.
  destruct (lookup_lt_is_Some_2 (reg s) (Z.to_nat r)) as [v Hv]; [lia|].
  exists v. split; [assumption|].
  apply reg_get_Some. rewrite getitem_nonneg by lia. assumption.
Qed.

Lemma handle_interrupts_cases s :
  length (reg s) = 8%nat ->
  _handle_interrupts s = Ret tt s \/
  exists k, 1 <= k <= 8 /\ _handle_interrupts s = service_interrupt k s.
Proof.
  intros Hl. unfold _handle_interrupts.
  destruct (reg_get_defined s imr Hl) as (im & _ & Him); [unfold imr; lia|].
  destruct (reg_get_defined s isr Hl) as (st & _ & Hst); [unfold isr; lia|].
  rewrite (bind_Ret _ _ _ _ _ Him), (bind_Ret _ _ _ _ _ Hst).
  change (Py.range 1 (Z.of_nat (length ivt) + 1)) with [1; 2; 3; 4; 5; 6; 7; 8].
  destruct (interrupt_loop_cases (Z.land im st) [1; 2; 3; 4; 5; 6; 7; 8] s)
    as [H | (k & Hin & H)]; [left; assumption|].
  right. exists k. split; [|assumption].
  simpl in Hin. intuition lia.
Qed.

Lemma set_nth_bit_nonneg b n : 0 <= n -> set_nth_bit b n = Some (Z.lor b (Z.shiftl 1 n)).
Proof.
  intros Hn. unfold set_nth_bit, Py.lshift.
  destruct (Z.ltb_spec n 0); [lia | reflexivity].
Qed.

Lemma unset_nth_bit_nonneg b n :
  0 <= n -> unset_nth_bit b n = Some (Z.land b (Z.lnot (Z.shiftl 1 n))).
Proof.
  intros Hn. unfold unset_nth_bit, Py.lshift.
  destruct (Z.ltb_spec n 0); [lia | reflexivity].
Qed.

Lemma testbit_one_shifted n j : 0 <= n -> 0 <= j -> Z.testbit (Z.shiftl 1 n) j = (j =? n).
Proof.
  intros Hn Hj. rewrite Z.shiftl_1_l.
  destruct (Z.eqb_spec j n) as [->|Hne].
  - apply Z.pow2_bits_true. assumption.
  - apply Z.pow2_bits_false. congruence.
Qed.

Lemma execute_IRET p f (m rs : list Z) ie o :
  _execute_instruction (mkCPU p 0x13 f m rs ie o)
  = (do _ <- _IRET;
     do i4 <- get_ir;
     if negb (Py.truthy (Z.land 0x10 i4)) then do q <- get_pc; set_pc (q + (1 + 0))
     else pure tt) (mkCPU p 0x13 f m rs ie o).
Proof. reflexivity. Qed.

(** C1, as the code has it.  Take a machine of 256 cells and 8 registers
    with SP in [0, 255] and interrupts enabled, in which the lowest bit
    set in [IM & IS] is bit k with k = 0 or k = 1, and let the handler
    the pre-fetch check dispatches to begin with IRET (the keyboard
    thread storing nothing meanwhile).  The check
    dispatches interrupt k: it leaves [interrupts_enabled] false and
    [pc] loaded from the vector cell 0xF8 + k.  The cycle then completes,
    and after it [reg[0]] to [reg[5]], SP, [fl] and [pc] have their
    values from before the dispatch and [interrupts_enabled] is true
    again.  [reg[6]] holds its value from before the dispatch with bit k
    cleared and every other bit as it was; bit k was set, so [reg[6]] is
    not what it was before the dispatch. *)
Theorem interrupt_dispatch_then_IRET (s s1 : CPU) (sp im st k : Z) :
  well_shaped s ->
  Py.getitem (reg s) spr = Some sp -> byte sp ->
  Py.getitem (reg s) imr = Some im ->
  Py.getitem (reg s) isr = Some st ->
  interrupts_enabled s = true ->
  (k = 0 /\ Z.testbit (Z.land im st) 0 = true \/
   k = 1 /\ Z.testbit (Z.land im st) 0 = false /\ Z.testbit (Z.land im st) 1 = true) ->
  _handle_interrupts s = Ret tt s1 ->
  Py.getitem (ram s1) (pc s1) = Some 0x13 ->
  interrupts_enabled s1 = false /\
  Py.getitem (ram s1) (0xF8 + k) = Some (pc s1) /\
  exists s2,
    cycle false s = Ret tt s2 /\
    (forall r, 0 <= r <= 5 -> Py.getitem (reg s2) r = Py.getitem (reg s) r) /\
    Py.getitem (reg s2) spr = Some sp /\
    fl s2 = fl s /\
    pc s2 = pc s /\
    interrupts_enabled s2 = true /\
    Py.getitem (reg s2) isr = Some (Z.land st (Z.lnot (Z.shiftl 1 k))) /\
    Z.testbit st k = true /\
    (forall j, 0 <= j ->
       Z.testbit (Z.land st (Z.lnot (Z.shiftl 1 k))) j = negb (j =? k) && Z.testbit st j) /\
    Py.getitem (reg s2) isr <> Py.getitem (reg s) isr.
Proof.
  intros [Hram Hreg] Hsp Hbyte Him Hst Hie Hk Hdisp Hiret.
  assert (Hserv : _handle_interrupts s = service_interrupt (k + 1) s).
  { destruct (handle_interrupts_services_bits_0_and_1 s im st Him Hst) as [H0 H1].
    destruct Hk as [[-> B0] | (-> & B0 & B1)]; [exact (H0 B0) | exact (H1 B0 B1)]. }
  assert (Hk0 : 0 <= k <= 1) by (destruct Hk as [[-> _] | [-> _]]; lia).
  assert (Hbit : Z.testbit st k = true).
  { destruct Hk as [[-> B] | (-> & _ & B)];
      rewrite Z.land_spec in B; apply andb_prop in B; tauto. }
  assert (Hclr : forall j, 0 <= j ->
            Z.testbit (Z.land st (Z.lnot (Z.shiftl 1 k))) j
            = negb (j =? k) && Z.testbit st j).
  { intros j Hj. rewrite Z.land_spec, Z.lnot_spec, testbit_one_shifted by lia.
    apply andb_comm. }
  clear Hk.
  destruct s as [p i f m rs ie o]. cbn [pc ir fl ram reg interrupts_enabled] in *.
  do 9 (destruct rs as [|? rs]; try discriminate Hreg).
  inversion Hsp; subst; clear Hsp.
  inversion Him; subst; clear Him.
  inversion Hst; subst; clear Hst.
  destruct (service_interrupt_spec p i f m z z0 z1 z2 z3 im st sp true o (k + 1)
              Hram Hbyte ltac:(lia))
    as (m' & h & cleared & Hs1 & Hcl & Hlen' & Hstk & Hh & _).
  replace (k + 1 - 1) with k in Hcl, Hh by lia.
  rewrite (unset_nth_bit_nonneg st k (proj1 Hk0)) in Hcl.
  inversion Hcl; subst cleared; clear Hcl.
  rewrite Hserv, Hs1 in Hdisp. inversion Hdisp; subst s1; clear Hdisp.
  cbn [pc ram interrupts_enabled] in *.
  split; [reflexivity|].
  split; [rewrite getitem_nonneg by lia; exact Hh|].
  eexists. split.
  - unfold cycle.
    erewrite (bind_Ret get_interrupts_enabled) by reflexivity.
    rewrite (bind_Ret _ _ _ _ _ (eq_trans Hserv Hs1)).
    unfold _read_instruction, _ram_read.
    rewrite bind_assoc. erewrite (bind_Ret get_pc) by reflexivity.
    rewrite bind_assoc.
    erewrite (bind_Ret (ram_get _)) by (apply ram_get_Some; exact Hiret).
    erewrite (bind_Ret (set_ir _)) by reflexivity.
    erewrite (bind_Ret (pure tt)) by reflexivity.
    norm_state. rewrite execute_IRET.
    erewrite (bind_Ret _IRET)
      by (apply IRET_spec; [exact Hlen' | apply sp_down_iter_byte; exact Hbyte | exact Hstk]).
    reflexivity.
  - rewrite sp_up_down_iter by assumption. cbn [pc fl reg interrupts_enabled].
    split; [|split; [reflexivity|split; [reflexivity|split; [reflexivity|
            split; [reflexivity|split; [reflexivity|split; [exact Hbit|
            split; [exact Hclr|]]]]]]]].
    + intros r Hr.
      assert (E : r = 0 \/ r = 1 \/ r = 2 \/ r = 3 \/ r = 4 \/ r = 5) by lia.
      repeat (destruct E as [->|E]; [reflexivity|]). subst. reflexivity.
    + intros E. injection E as E.
      pose proof (Hclr k (proj1 Hk0)) as Hc.
      rewrite E, Hbit, Z.eqb_refl in Hc. discriminate Hc.
Qed.

Lemma interrupt_dispatch_then_IRET_witness :
  interrupts_enabled irq0_dispatched = false /\
  Py.getitem (ram irq0_dispatched) (0xF8 + 0) = Some (pc irq0_dispatched) /\
  exists s2,
    cycle false irq0_pending = Ret tt s2 /\
    (forall r, 0 <= r <= 5 -> Py.getitem (reg s2) r = Py.getitem (reg irq0_pending) r) /\
    Py.getitem (reg s2) spr = Some 0xF4 /\
    fl s2 = fl irq0_pending /\
    pc s2 = pc irq0_pending /\
    interrupts_enabled s2 = true /\
    Py.getitem (reg s2) isr = Some (Z.land 1 (Z.lnot (Z.shiftl 1 0))) /\
    Z.testbit 1 0 = true /\
    (forall j, 0 <= j ->
       Z.testbit (Z.land 1 (Z.lnot (Z.shiftl 1 0))) j = negb (j =? 0) && Z.testbit 1 j) /\
    Py.getitem (reg s2) isr <> Py.getitem (reg irq0_pending) isr.
Proof.
  apply (interrupt_dispatch_then_IRET irq0_pending irq0_dispatched 0xF4 1 1 0).
  - split; reflexivity.
  - reflexivity.
  - unfold byte. lia.
  - reflexivity.
  - reflexivity.
  - reflexivity.
  - left. split; reflexivity.
  - vm_compute. reflexivity.
  - reflexivity.
Defined.

(** ** Bytes stay bytes: stepping through a method that returned *)

Lemma bind_inv {A B} (c : M A) (k : A -> M B) s b s' :
  bind c k s = Ret b s' -> exists a s1, c s = Ret a s1 /\ k a s1 = Ret b s'.
Proof.
  unfold bind. destruct (c s) as [a s1| |] eqn:E; try discriminate.
  intros H. exists a, s1. split; [reflexivity | assumption].
Qed.

Lemma getitem_Forall (P : Z -> Prop) (l : list Z) i v :
  Forall P l -> Py.getitem l i = Some v -> P v.
Proof.
  unfold Py.getitem. intros Hl H.
  destruct (Py.py_index (length l) i); [|discriminate].
  exact (proj1 (Forall_lookup P l) Hl _ _ H).
Qed.

Lemma setitem_Forall (P : Z -> Prop) (l l' : list Z) i v :
  Forall P l -> P v -> Py.setitem l i v = Some l' ->
  Forall P l' /\ length l' = length l.
Proof.
  unfold Py.setitem. intros Hl Hv H.
  destruct (Py.py_index (length l) i); [|discriminate].
  inversion H; subst. split; [apply Forall_insert; assumption | apply length_insert].
Qed.

Lemma bytes_at_intro p i s :
  length (ram s) = 256%nat -> length (reg s) = 8%nat ->
  Forall byte (ram s) -> Forall byte (reg s) -> byte (fl s) -> byte (ir s) ->
  pc s = p -> ir s = i -> bytes_at p i s.
Proof. intros. unfold bytes_at, all_bytes_but_pc, well_shaped. tauto. Qed.

Section Steps.
Variables (p i : Z) (s s' : CPU).
Hypothesis Hs : bytes_at p i s.

Lemma reg_get_step r v :
  reg_get r s = Ret v s' ->
  s' = s /\ byte v /\ Py.getitem (reg s) r = Some v.
Proof.
  unfold reg_get. destruct (Py.getitem (reg s) r) as [x|] eqn:E; [|discriminate].
  intros H. inversion H; subst. split; [reflexivity|]. split; [|reflexivity].
  destruct Hs as ((_ & _ & Hr & _) & _). exact (getitem_Forall byte _ _ _ Hr E).
Qed.

Lemma ram_get_step a v :
  ram_get a s = Ret v s' -> s' = s /\ byte v /\ a <= 255.
Proof.
  unfold ram_get. destruct (Py.getitem (ram s) a) as [x|] eqn:E; [|discriminate].
  intros H. inversion H; subst. split; [reflexivity|].
  destruct Hs as (((Hl & _) & Hm & _) & _).
  split; [exact (getitem_Forall byte _ _ _ Hm E)|].
  destruct (Z_le_gt_dec a 255) as [Hle|Hgt]; [assumption|].
  rewrite getitem_out in E by lia. discriminate.
Qed.

Lemma get_pc_step v : get_pc s = Ret v s' -> s' = s /\ v = p.
Proof. destruct Hs as (_ & Hp & _). intros H. inversion H. subst. split; reflexivity. Qed.

Lemma get_ir_step v : get_ir s = Ret v s' -> s' = s /\ v = i.
Proof. destruct Hs as (_ & _ & Hi). intros H. inversion H. subst. split; reflexivity. Qed.

Lemma get_fl_step v : get_fl s = Ret v s' -> s' = s /\ byte v.
Proof.
  destruct Hs as ((_ & _ & _ & Hf & _) & _). intros H. inversion H. subst.
  split; [reflexivity | assumption].
Qed.

Lemma reg_set_step r v : reg_set r v s = Ret tt s' -> byte v -> bytes_at p i s'.
Proof.
  unfold reg_set. destruct (Py.setitem (reg s) r v) as [l|] eqn:E; [|discriminate].
  intros H Hv. inversion H; subst; clear H.
  destruct Hs as (((Hlm & Hlr) & Hm & Hr & Hf & Hi) & Hp & Hir).
  destruct (setitem_Forall byte _ _ _ _ Hr Hv E) as [Hl' Hlen].
  apply bytes_at_intro; simpl; try assumption; congruence.
Qed.

Lemma ram_set_step a v : ram_set a v s = Ret tt s' -> byte v -> bytes_at p i s'.
Proof.
  unfold ram_set. destruct (Py.setitem (ram s) a v) as [l|] eqn:E; [|discriminate].
  intros H Hv. inversion H; subst; clear H.
  destruct Hs as (((Hlm & Hlr) & Hm & Hr & Hf & Hi) & Hp & Hir).
  destruct (setitem_Forall byte _ _ _ _ Hm Hv E) as [Hl' Hlen].
  apply bytes_at_intro; simpl; try assumption; congruence.
Qed.

Lemma set_fl_step v : set_fl v s = Ret tt s' -> byte v -> bytes_at p i s'.
Proof.
  intros H Hv. inversion H; subst; clear H.
  destruct Hs as (((Hlm & Hlr) & Hm & Hr & Hf & Hi) & Hp & Hir).
  apply bytes_at_intro; simpl; auto.
Qed.

Lemma set_ir_step v : set_ir v s = Ret tt s' -> byte v -> bytes_at p v s'.
Proof.
  intros H Hv. inversion H; subst; clear H.
  destruct Hs as (((Hlm & Hlr) & Hm & Hr & Hf & Hi) & Hp & Hir).
  apply bytes_at_intro; simpl; auto.
Qed.

Lemma set_pc_step v : set_pc v s = Ret tt s' -> bytes_at v i s'.
Proof.
  intros H. inversion H; subst; clear H.
  destruct Hs as (((Hlm & Hlr) & Hm & Hr & Hf & Hi) & Hp & Hir).
  apply bytes_at_intro; simpl; auto.
Qed.

Lemma set_interrupts_enabled_step b :
  set_interrupts_enabled b s = Ret tt s' -> bytes_at p i s'.
Proof.
  intros H. inversion H; subst; clear H.
  destruct Hs as (((Hlm & Hlr) & Hm & Hr & Hf & Hi) & Hp & Hir).
  apply bytes_at_intro; simpl; auto.
Qed.

Lemma print_step t e : print t e s = Ret tt s' -> bytes_at p i s'.
Proof.
  intros H. inversion H; subst; clear H.
  destruct Hs as (((Hlm & Hlr) & Hm & Hr & Hf & Hi) & Hp & Hir).
  apply bytes_at_intro; simpl; auto.
Qed.
End Steps.

Lemma lift_step {A} e (o : option A) s v s' :
  lift e o s = Ret v s' -> s' = s /\ o = Some v.
Proof. destruct o; simpl; intros H; inversion H; subst; split; reflexivity. Qed.

Lemma pure_step {A} (a : A) s v s' : pure a s = Ret v s' -> s' = s /\ v = a.
Proof. intros H. inversion H; subst. split; reflexivity. Qed.

(** Bytes are closed under the masked and bitwise operations of the ALU. *)

Lemma byte_land_255_l x : byte (Z.land 255 x).
Proof. rewrite Z.land_comm. apply byte_land_255. Qed.

Lemma byte_lor a b : byte a -> byte b -> byte (Z.lor a b).
Proof.
  intros Ha Hb. rewrite (byte_is_land_255 a Ha), (byte_is_land_255 b Hb).
  rewrite <- Z.land_lor_distr_l. apply byte_land_255.
Qed.

Lemma byte_lxor a b : byte a -> byte b -> byte (Z.lxor a b).
Proof.
  intros Ha Hb. pose proof (byte_lor a b Ha Hb) as Ho.
  pose proof (byte_land_l a b Ha) as Hn.
  pose proof (Z.sub_lor_land a b) as E.
  assert (0 <= Z.lxor a b) by (apply Z.lxor_nonneg; unfold byte in *; lia).
  unfold byte in *. lia.
Qed.

Lemma byte_div a b : byte a -> byte b -> byte (a / b).
Proof.
  unfold byte. intros Ha Hb.
  destruct (Z.eq_dec b 0) as [->|Hn].
  - rewrite Z.div_0_r. lia.
  - split; [apply Z.div_pos; lia|].
    apply Z.le_trans with a; [|lia]. apply Z.div_le_upper_bound; nia.
Qed.

Lemma byte_mod a b : byte a -> byte b -> byte (a mod b).
Proof.
  unfold byte. intros Ha Hb.
  destruct (Z.eq_dec b 0) as [->|Hn].
  - rewrite Z.mod_0_r. lia.
  - pose proof (Z.mod_pos_bound a b ltac:(lia)). lia.
Qed.

Lemma byte_rshift a n v : Py.rshift a n = Some v -> byte a -> byte v.
Proof.
  unfold Py.rshift, byte. destruct (Z.ltb_spec n 0); [discriminate|].
  intros E Ha. inversion E; subst; clear E.
  rewrite Z.shiftr_div_pow2 by assumption.
  assert (0 < 2 ^ n) by (apply Z.pow_pos_nonneg; lia).
  split; [apply Z.div_pos; lia|].
  apply Z.le_trans with a; [|lia]. apply Z.div_le_upper_bound; nia.
Qed.

Lemma byte_set_bit_1 v b : set_nth_bit v 1 = Some b -> byte v -> byte b.
Proof.
  unfold set_nth_bit, Py.lshift. change (1 <? 0) with false.
  change (Z.shiftl 1 1) with 2. intros E Hv. inversion E; subst.
  apply byte_lor; [assumption | unfold byte; lia].
Qed.

Lemma byte_unset_nth_bit v n b : unset_nth_bit v n = Some b -> byte v -> byte b.
Proof.
  unfold unset_nth_bit. destruct (Py.lshift 1 n); [|discriminate].
  intros E Hv. inversion E; subst. apply byte_land_l. assumption.
Qed.

Lemma byte_literal_1 : byte 1. Proof. unfold byte; lia. Qed.
Lemma byte_literal_2 : byte 2. Proof. unfold byte; lia. Qed.
Lemma byte_literal_4 : byte 4. Proof. unfold byte; lia. Qed.
Lemma byte_literal_0 : byte 0. Proof. unfold byte; lia. Qed.
Lemma byte_literal_255 : byte 255. Proof. unfold byte; lia. Qed.

Create HintDb bytes.
#[local] Hint Resolve byte_land_255 byte_land_255_l byte_lor byte_lxor byte_land_l
  byte_div byte_mod byte_rshift byte_set_bit_1 byte_unset_nth_bit
  byte_literal_0 byte_literal_1 byte_literal_2 byte_literal_4 byte_literal_255 : bytes.

(** Two reads of one subscript of one list agree; comparisons become
    (in)equations; the rest is linear arithmetic on bytes. *)
Ltac byte_arith :=
  repeat match goal with
         | H1 : Py.getitem ?l ?r = Some ?a, H2 : Py.getitem ?l ?r = Some ?b |- _ =>
             tryif constr_eq a b then fail
             else (assert (a = b) by congruence; subst b; clear H2)
         | H : (_ =? _) = false |- _ => apply Z.eqb_neq in H
         | H : (_ =? _) = true |- _ => apply Z.eqb_eq in H
         end;
  unfold byte in *; lia.

Ltac byte_solver := first [ assumption | solve [eauto with bytes] | byte_arith ].

(** Methods with a step lemma of their own are added here once proved. *)
Ltac step_more H := idtac.

(** Run a returned method backwards through its binds, turning each
    primitive into what it says about the bytes. *)
Ltac step H :=
  lazymatch type of H with
  | bind _ _ _ = Ret _ _ =>
      let a := fresh "v" in
      let s1 := fresh "s" in
      let H1 := fresh "H" in
      apply bind_inv in H; destruct H as (a & s1 & H1 & H);
      lazymatch type of a with unit => destruct a | _ => idtac end;
      step H1; step H
  | reg_get _ _ = Ret _ _ =>
      eapply reg_get_step in H; [|eassumption]; destruct H as (-> & ? & ?)
  | ram_get _ _ = Ret _ _ =>
      eapply ram_get_step in H; [|eassumption]; destruct H as (-> & ? & ?)
  | _ram_read _ _ = Ret _ _ => unfold _ram_read in H; step H
  | get_pc _ = Ret _ _ =>
      eapply get_pc_step in H; [|eassumption]; destruct H as (-> & ->)
  | get_ir _ = Ret _ _ =>
      eapply get_ir_step in H; [|eassumption]; destruct H as (-> & ->)
  | get_fl _ = Ret _ _ =>
      eapply get_fl_step in H; [|eassumption]; destruct H as (-> & ?)
  | reg_set _ _ _ = Ret _ _ => eapply reg_set_step in H; [|eassumption|byte_solver]
  | ram_set _ _ _ = Ret _ _ => eapply ram_set_step in H; [|eassumption|byte_solver]
  | set_fl _ _ = Ret _ _ => eapply set_fl_step in H; [|eassumption|byte_solver]
  | set_ir _ _ = Ret _ _ => eapply set_ir_step in H; [|eassumption|byte_solver]
  | set_pc _ _ = Ret _ _ => eapply set_pc_step in H; [|eassumption]
  | set_interrupts_enabled _ _ = Ret _ _ =>
      eapply set_interrupts_enabled_step in H; [|eassumption]
  | print _ _ _ = Ret _ _ => eapply print_step in H; [|eassumption]
  | lift _ _ _ = Ret _ _ => apply lift_step in H; destruct H as (-> & ?)
  | pure _ _ = Ret _ _ => apply pure_step in H; destruct H as (-> & ?); subst
  | exit _ _ = Ret _ _ => discriminate H
  | raise _ _ = Ret _ _ => discriminate H
  | (if ?b then _ else _) _ = Ret _ _ => destruct b eqn:?; step H
  | reg_get_obj ?r _ = Ret _ _ => destruct r; unfold reg_get_obj in H; step H
  | reg_set_obj ?r _ _ = Ret _ _ => destruct r; unfold reg_set_obj in H; step H
  | _operand_a _ = Ret _ _ => unfold _operand_a in H; step H
  | _operand_b _ = Ret _ _ => unfold _operand_b in H; step H
  | (match ?o with Some _ => _ | None => _ end) _ = Ret _ _ => destruct o; step H
  | jump_if _ _ _ = Ret _ _ => unfold jump_if in H; step H
  | _ => step_more H
  end.

Ltac keeps h :=
  let H := fresh "Hrun" in
  intros ? ? ? ? ? H; unfold h in H; step H; eassumption.

Ltac moves_unary h :=
  let H := fresh "Hrun" in
  intros ? ? ? ? ? ? H; unfold unary, h in H; step H;
  eexists; (split; [eassumption | byte_arith]).

Lemma keeps_NOP : keeps_pc _NOP.
Proof. keeps _NOP. Qed.

Lemma keeps_exit n : keeps_pc (exit n).
Proof. intros ? ? ? ? ? H. discriminate H. Qed.

Lemma keeps_PRA r : keeps_pc (_PRA r).
Proof. keeps _PRA. Qed.

Lemma prm_loop_reads (addrs : list Z) :
  forall acc s x s', prm_loop addrs acc s = Ret x s' -> s' = s.
Proof.
  induction addrs as [|a addrs IH]; intros acc s x s' H; simpl in H.
  - inversion H. reflexivity.
  - apply bind_inv in H. destruct H as (v & s1 & H1 & H).
    unfold ram_get in H1. apply lift_step in H1. destruct H1 as [-> _].
    apply bind_inv in H. destruct H as (c & s2 & H2 & H).
    apply lift_step in H2. destruct H2 as [-> _].
    exact (IH _ _ _ _ H).
Qed.

Lemma keeps_PRM ra rb : keeps_pc (_PRM ra rb).
Proof.
  intros p i s s' Hs H. unfold _PRM in H.
  apply bind_inv in H. destruct H as (a & s1 & Hra & H). step Hra.
  apply bind_inv in H. destruct H as (b & s2 & Hrb & H). step Hrb.
  apply bind_inv in H. destruct H as (x & s3 & Hloop & H).
  apply prm_loop_reads in Hloop. subst s3. step H. assumption.
Qed.

Lemma keeps_PRN r : keeps_pc (_PRN r).
Proof. keeps _PRN. Qed.

Lemma keeps_LD ra rb : keeps_pc (_LD ra rb).
Proof. keeps _LD. Qed.

Lemma keeps_LDI r v : keeps_pc (_LDI r v).
Proof. keeps _LDI. Qed.

Lemma keeps_ST ra rb : keeps_pc (_ST ra rb).
Proof. keeps _ST. Qed.

Lemma keeps_PUSH r value : (value = None \/ exists v, value = Some v /\ byte v) ->
  keeps_pc (_PUSH r value).
Proof.
  intros [->|(v & -> & Hv)]; keeps _PUSH.
Qed.

Lemma keeps_PUSH_reg r : keeps_pc (_PUSH (Some r) None).
Proof. apply keeps_PUSH. left. reflexivity. Qed.

Lemma POP_step r ret p i s o s' :
  bytes_at p i s -> _POP r ret s = Ret o s' ->
  bytes_at p i s' /\ (ret = true -> exists v, o = Some v /\ byte v).
Proof.
  intros Hs H. unfold _POP in H. step H;
    (split; [assumption|]); intros Hret;
    first [ discriminate Hret | eexists; split; [reflexivity | assumption] ].
Qed.

Lemma keeps_POP r : keeps_pc (do _ <- _POP (Some r) false; pure tt).
Proof.
  intros p i s s' Hs H.
  apply bind_inv in H. destruct H as (o & s1 & Hpop & H).
  apply pure_step in H. destruct H as [-> _].
  exact (proj1 (POP_step _ _ _ _ _ _ _ Hs Hpop)).
Qed.

Lemma pop_value_step p i s v s' :
  bytes_at p i s -> pop_value s = Ret v s' -> bytes_at p i s' /\ byte v.
Proof.
  intros Hs H. unfold pop_value in H.
  apply bind_inv in H. destruct H as (o & s1 & Hpop & H).
  apply lift_step in H. destruct H as [-> ->].
  destruct (POP_step _ _ _ _ _ _ _ Hs Hpop) as [Hs' Hv].
  destruct (Hv eq_refl) as (x & E & Hx). inversion E; subst.
  split; assumption.
Qed.

Lemma moves_INT : moves_pc (unary _INT).
Proof. moves_unary _INT. Qed.

Lemma PUSH_value_step p i s v s' :
  bytes_at p i s -> _PUSH None (Some v) s = Ret tt s' -> byte v -> bytes_at p i s'.
Proof.
  intros Hs H Hv. refine (keeps_PUSH None (Some v) _ _ _ _ _ Hs H).
  right. exists v. split; [reflexivity | assumption].
Qed.

Ltac step_more H ::=
  lazymatch type of H with
  | pop_value _ = Ret _ _ =>
      eapply pop_value_step in H; [|eassumption]; destruct H as (? & ?)
  | _PUSH None (Some _) _ = Ret _ _ =>
      eapply PUSH_value_step in H; [|eassumption|byte_solver]
  | _ => idtac
  end.

(** [_IRET]: seven register pops, then [fl], then [pc]. *)
Lemma moves_IRET : moves_pc _IRET.
Proof.
  intros p i s s' Hs Hp H. unfold _IRET in H.
  change (Py.range_down 6 (-1)) with [6; 5; 4; 3; 2; 1; 0] in H.
  cbv [for_each] in H. step H.
  eexists. split; [eassumption | byte_arith].
Qed.

Lemma moves_JMP : moves_pc (unary _JMP).
Proof. moves_unary _JMP. Qed.

Lemma moves_JLT : moves_pc (unary _JLT).
Proof. moves_unary _JLT. Qed.

Lemma moves_JGT : moves_pc (unary _JGT).
Proof. moves_unary _JGT. Qed.

Lemma moves_JEQ : moves_pc (unary _JEQ).
Proof. moves_unary _JEQ. Qed.

Lemma moves_JLE : moves_pc (unary _JLE).
Proof. moves_unary _JLE. Qed.

Lemma moves_JGE : moves_pc (unary _JGE).
Proof. moves_unary _JGE. Qed.

Lemma moves_JNE : moves_pc (unary _JNE).
Proof. moves_unary _JNE. Qed.

Lemma keeps_ALU_ADD ra rb : keeps_pc (_ALU_ADD ra rb).
Proof. keeps _ALU_ADD. Qed.

Lemma keeps_ALU_ADDi r v : keeps_pc (_ALU_ADDi r v).
Proof. keeps _ALU_ADDi. Qed.

Lemma keeps_ALU_SUB ra rb : keeps_pc (_ALU_SUB ra rb).
Proof. keeps _ALU_SUB. Qed.

Lemma keeps_ALU_MUL ra rb : keeps_pc (_ALU_MUL ra rb).
Proof. keeps _ALU_MUL. Qed.

Lemma keeps_ALU_DIV ra rb : keeps_pc (_ALU_DIV ra rb).
Proof. keeps _ALU_DIV. Qed.

Lemma keeps_ALU_MOD ra rb : keeps_pc (_ALU_MOD ra rb).
Proof. keeps _ALU_MOD. Qed.

Lemma keeps_ALU_INC r : keeps_pc (_ALU_INC r).
Proof. keeps _ALU_INC. Qed.

Lemma keeps_ALU_DEC r : keeps_pc (_ALU_DEC r).
Proof. keeps _ALU_DEC. Qed.

Lemma keeps_ALU_AND ra rb : keeps_pc (_ALU_AND ra rb).
Proof. keeps _ALU_AND. Qed.

Lemma keeps_ALU_OR ra rb : keeps_pc (_ALU_OR ra rb).
Proof. keeps _ALU_OR. Qed.

Lemma keeps_ALU_XOR ra rb : keeps_pc (_ALU_XOR ra rb).
Proof. keeps _ALU_XOR. Qed.

Lemma keeps_ALU_SHL ra rb : keeps_pc (_ALU_SHL ra rb).
Proof. keeps _ALU_SHL. Qed.

Lemma keeps_ALU_SHR ra rb : keeps_pc (_ALU_SHR ra rb).
Proof. keeps _ALU_SHR. Qed.

Lemma keeps_ALU_CMP ra rb : keeps_pc (_ALU_CMP ra rb).
Proof. keeps _ALU_CMP. Qed.

(** Operand reads leave the state alone, and succeed only below the top
    of memory. *)
Lemma fetches_nullary h : keeps_pc h -> fetches 0 h.
Proof.
  intros Hh p i s s' Hs Hp H. split; [exact (Hh _ _ _ _ Hs H) | byte_arith].
Qed.

Lemma fetches_unary f : (forall r, keeps_pc (f r)) -> fetches 1 (unary f).
Proof.
  intros Hf p i s s' Hs Hp H. unfold unary in H.
  apply bind_inv in H. destruct H as (a & s1 & Ha & H). step Ha.
  split; [exact (Hf _ _ _ _ _ Hs H) | byte_arith].
Qed.

Lemma fetches_binary f : (forall a b, keeps_pc (f a b)) -> fetches 2 (binary f).
Proof.
  intros Hf p i s s' Hs Hp H. unfold binary in H.
  apply bind_inv in H. destruct H as (a & s1 & Ha & H). step Ha.
  apply bind_inv in H. destruct H as (b & s2 & Hb & H). step Hb.
  split; [exact (Hf _ _ _ _ _ _ Hs H) | byte_arith].
Qed.

Lemma moves_exit n : moves_pc (exit n).
Proof. intros ? ? ? ? ? ? H. discriminate H. Qed.

Create HintDb handlers.
#[local] Hint Resolve keeps_PUSH_reg keeps_NOP keeps_exit keeps_PRA keeps_PRM keeps_PRN keeps_LD
  keeps_LDI keeps_ST keeps_POP moves_INT moves_IRET moves_JMP moves_JLT moves_JGT
  moves_JEQ moves_JLE moves_JGE moves_JNE keeps_ALU_ADD keeps_ALU_ADDi keeps_ALU_SUB
  keeps_ALU_MUL keeps_ALU_DIV keeps_ALU_MOD keeps_ALU_INC keeps_ALU_DEC keeps_ALU_AND
  keeps_ALU_OR keeps_ALU_XOR keeps_ALU_SHL keeps_ALU_SHR keeps_ALU_CMP
  fetches_nullary fetches_unary fetches_binary moves_exit : handlers.

Ltac fetching n :=
  exists n; split; [solve [auto with handlers] | vm_compute; discriminate].

Ltac entry :=
  unfold entry_keeps_bytes, unmasked_opcode, Py.truthy; simpl;
  first [ left; solve [auto]
        | right;
          first [ fetching 0 | fetching 1 | fetching 2 | solve [auto with handlers] ] ].

Lemma instructions_keep_bytes : Forall entry_keeps_bytes instructions.
Proof.
  unfold instructions.
  repeat first [ apply List.Forall_nil | apply List.Forall_cons; [entry|] ].
Qed.

Lemma alu_instructions_keep_bytes : Forall entry_keeps_bytes alu_instructions.
Proof.
  unfold alu_instructions.
  repeat first [ apply List.Forall_nil | apply List.Forall_cons; [entry|] ].
Qed.

Lemma trace_step p i s s' : bytes_at p i s -> _trace s = Ret tt s' -> bytes_at p i s'.
Proof.
  intros Hs H. unfold _trace in H.
  change (Py.range 0 8) with [0; 1; 2; 3; 4; 5; 6; 7] in H.
  cbv [for_each] in H. step H. assumption.
Qed.

Lemma service_interrupt_step k p i s s' :
  bytes_at p i s -> byte p -> service_interrupt k s = Ret tt s' ->
  exists p', bytes_at p' i s' /\ byte p'.
Proof.
  intros Hs Hp H. unfold service_interrupt in H.
  change (Py.range 0 7) with [0; 1; 2; 3; 4; 5; 6] in H.
  cbv [for_each] in H. step H.
  eexists. split; [eassumption | assumption].
Qed.

Lemma handle_interrupts_step p i s s' :
  bytes_at p i s -> byte p -> _handle_interrupts s = Ret tt s' ->
  exists p', bytes_at p' i s' /\ byte p'.
Proof.
  intros Hs Hp H.
  destruct (handle_interrupts_cases s) as [Hno | (k & _ & Hk)].
  - destruct Hs as (((_ & Hl) & _) & _). exact Hl.
  - rewrite Hno in H. inversion H; subst. exists p. split; assumption.
  - rewrite Hk in H. exact (service_interrupt_step _ _ _ _ _ Hs Hp H).
Qed.

Lemma dict_get_In (d : list (Z * M unit)) k h :
  dict_get d k = Some h -> In (k, h) d.
Proof.
  induction d as [|[k' v] d IH]; simpl; [discriminate|].
  destruct (Z.eqb_spec k k') as [->|Hne].
  - intros E. inversion E; subst. left. reflexivity.
  - intros E. right. exact (IH E).
Qed.

Lemma dispatch_step (d : list (Z * M unit)) msg p i s s' :
  Forall entry_keeps_bytes d ->
  bytes_at p i s ->
  match dict_get d i with
  | Some execute => execute
  | None => do _ <- print msg newline; do _ <- _trace; exit 1
  end s = Ret tt s' ->
  exists h, In (i, h) d /\ entry_keeps_bytes (i, h) /\ h s = Ret tt s'.
Proof.
  intros Hd Hs H.
  destruct (dict_get d i) as [h|] eqn:E.
  - exists h. pose proof (dict_get_In _ _ _ E) as Hin.
    split; [assumption|]. split; [|assumption].
    exact (proj1 (List.Forall_forall entry_keeps_bytes d) Hd _ Hin).
  - apply bind_inv in H. destruct H as (? & ? & _ & H).
    apply bind_inv in H. destruct H as (? & ? & _ & H). discriminate H.
Qed.

(** *** [ir] is written by the fetch alone *)

Lemma keeps_ir_bind {A B} (c : M A) (k : A -> M B) :
  keeps_ir c -> (forall a, keeps_ir (k a)) -> keeps_ir (bind c k).
Proof.
  intros Hc Hk s b s' H. apply bind_inv in H. destruct H as (a & s1 & H1 & H2).
  rewrite (Hk _ _ _ _ H2). exact (Hc _ _ _ H1).
Qed.

Lemma keeps_ir_lift {A} e (o : option A) : keeps_ir (lift e o).
Proof. intros s a s' H. apply lift_step in H. destruct H as [-> _]. reflexivity. Qed.

Lemma keeps_ir_pure {A} (a : A) : keeps_ir (pure a).
Proof. intros s b s' H. inversion H. reflexivity. Qed.

Lemma keeps_ir_exit {A} n : keeps_ir (@exit A n).
Proof. intros s b s' H. discriminate H. Qed.

Lemma keeps_ir_raise {A} e : keeps_ir (@raise A e).
Proof. intros s b s' H. discriminate H. Qed.

Lemma keeps_ir_reg_get r : keeps_ir (reg_get r).
Proof. unfold reg_get. intros s. apply keeps_ir_lift. Qed.

Lemma keeps_ir_ram_get a : keeps_ir (ram_get a).
Proof. unfold ram_get. intros s. apply keeps_ir_lift. Qed.

Lemma keeps_ir_reg_set r v : keeps_ir (reg_set r v).
Proof.
  intros s a s' H. unfold reg_set in H.
  destruct (Py.setitem (reg s) r v); inversion H. reflexivity.
Qed.

Lemma keeps_ir_ram_set a v : keeps_ir (ram_set a v).
Proof.
  intros s x s' H. unfold ram_set in H.
  destruct (Py.setitem (ram s) a v); inversion H. reflexivity.
Qed.

Lemma keeps_ir_get_pc : keeps_ir get_pc.
Proof. intros s a s' H. inversion H. reflexivity. Qed.

Lemma keeps_ir_get_ir : keeps_ir get_ir.
Proof. intros s a s' H. inversion H. reflexivity. Qed.

Lemma keeps_ir_get_fl : keeps_ir get_fl.
Proof. intros s a s' H. inversion H. reflexivity. Qed.

Lemma keeps_ir_set_pc v : keeps_ir (set_pc v).
Proof. intros s a s' H. inversion H. reflexivity. Qed.

Lemma keeps_ir_set_fl v : keeps_ir (set_fl v).
Proof. intros s a s' H. inversion H. reflexivity. Qed.

Lemma keeps_ir_set_interrupts_enabled b : keeps_ir (set_interrupts_enabled b).
Proof. intros s a s' H. inversion H. reflexivity. Qed.

Lemma keeps_ir_print t e : keeps_ir (print t e).
Proof. intros s a s' H. inversion H. reflexivity. Qed.

Lemma keeps_ir_for_each (xs : list Z) body :
  (forall x, keeps_ir (body x)) -> keeps_ir (for_each xs body).
Proof.
  intros Hb. induction xs as [|x xs IH]; simpl.
  - apply keeps_ir_pure.
  - apply keeps_ir_bind; [apply Hb | intros _; exact IH].
Qed.

Lemma keeps_ir_prm_loop (addrs : list Z) : forall acc, keeps_ir (prm_loop addrs acc).
Proof.
  induction addrs as [|a addrs IH]; intros acc; simpl.
  - apply keeps_ir_pure.
  - apply keeps_ir_bind; [apply keeps_ir_ram_get | intros v].
    apply keeps_ir_bind; [apply keeps_ir_lift | intros c]. apply IH.
Qed.

Create HintDb frame.
#[local] Hint Resolve keeps_ir_lift keeps_ir_pure keeps_ir_exit keeps_ir_raise
  keeps_ir_reg_get keeps_ir_ram_get keeps_ir_reg_set keeps_ir_ram_set keeps_ir_get_pc
  keeps_ir_get_ir keeps_ir_get_fl keeps_ir_set_pc keeps_ir_set_fl
  keeps_ir_set_interrupts_enabled keeps_ir_print keeps_ir_prm_loop : frame.

(** Decompose a method into binds, branches and loops down to the
    accessors. *)
Ltac frame :=
  repeat first
    [ solve [auto with frame]
    | apply keeps_ir_bind; [|intro]
    | apply keeps_ir_for_each; intro
    | match goal with
      | |- keeps_ir (if ?b then _ else _) => destruct b
      | |- keeps_ir (match ?o with Some _ => _ | None => _ end) => destruct o
      | |- keeps_ir (?h _ _ _) => unfold h
      | |- keeps_ir (?h _ _) => unfold h
      | |- keeps_ir (?h _) => unfold h
      | |- keeps_ir ?h => unfold h
      end ].

Lemma keeps_ir_trace : keeps_ir _trace.
Proof. frame. Qed.

Lemma keeps_ir_table_entry (d : list (Z * M unit)) :
  Forall (fun e => keeps_ir (snd e)) d ->
  forall k h, dict_get d k = Some h -> keeps_ir h.
Proof.
  intros Hd k h E. apply dict_get_In in E.
  exact (proj1 (List.Forall_forall _ d) Hd _ E).
Qed.

Lemma instructions_keep_ir : Forall (fun e => keeps_ir (snd e)) instructions.
Proof.
  unfold instructions.
  repeat first [ apply List.Forall_nil | apply List.Forall_cons; [simpl; frame|] ].
Qed.

Lemma alu_instructions_keep_ir : Forall (fun e => keeps_ir (snd e)) alu_instructions.
Proof.
  unfold alu_instructions.
  repeat first [ apply List.Forall_nil | apply List.Forall_cons; [simpl; frame|] ].
Qed.

Lemma execute_instruction_keeps_ir : keeps_ir _execute_instruction.
Proof.
  unfold _execute_instruction.
  apply keeps_ir_bind; [apply keeps_ir_get_ir | intros instruction].
  apply keeps_ir_bind; [apply keeps_ir_get_ir | intros i1].
  apply keeps_ir_bind; [apply keeps_ir_get_ir | intros i2].
  apply keeps_ir_bind.
  - destruct (Py.truthy (Z.land 32 i2)).
    + unfold _alu. destruct (dict_get alu_instructions instruction) eqn:E.
      * exact (keeps_ir_table_entry _ alu_instructions_keep_ir _ _ E).
      * frame.
    + apply keeps_ir_bind; [apply keeps_ir_get_ir | intros i3].
      destruct (dict_get instructions i3) eqn:E.
      * exact (keeps_ir_table_entry _ instructions_keep_ir _ _ E).
      * frame.
  - intros _. frame.
Qed.

Lemma execute_instruction_step p i s s' :
  bytes_at p i s -> byte p -> ~ unmasked_opcode i ->
  _execute_instruction s = Ret tt s' ->
  exists p', bytes_at p' i s' /\ 0 <= p' <= 256.
Proof.
  intros Hs Hp Hop H. unfold _execute_instruction in H.
  apply bind_inv in H. destruct H as (i0 & s0 & Hi0 & H). step Hi0.
  apply bind_inv in H. destruct H as (i1 & s1 & Hi1 & H). step Hi1.
  apply bind_inv in H. destruct H as (i2 & s2 & Hi2 & H). step Hi2.
  apply bind_inv in H. destruct H as ([] & s3 & Hexec & H).
  assert (Hentry : exists h, entry_keeps_bytes (i, h) /\ h s = Ret tt s3).
  { destruct (Py.truthy (Z.land 32 i)).
    - unfold _alu in Hexec.
      destruct (dispatch_step _ _ _ _ _ _ alu_instructions_keep_bytes Hs Hexec)
        as (h & _ & Hh & Hrun).
      exists h. split; assumption.
    - apply bind_inv in Hexec. destruct Hexec as (i3 & s4 & Hi3 & Hexec). step Hi3.
      destruct (dispatch_step _ _ _ _ _ _ instructions_keep_bytes Hs Hexec)
        as (h & _ & Hh & Hrun).
      exists h. split; assumption. }
  destruct Hentry as (h & [Hbad | Hh] & Hrun); [contradiction|].
  simpl in Hh.
  destruct (Py.truthy (Z.land 16 i)) eqn:Hbit.
  - destruct (Hh _ _ _ _ Hs Hp Hrun) as (p' & Hs3 & Hp').
    apply bind_inv in H. destruct H as (i4 & s5 & Hi4 & H). step Hi4.
    rewrite Hbit in H. simpl in H. step H.
    exists p'. split; assumption.
  - destruct Hh as (n & Hfetch & Hn).
    destruct (Hfetch _ _ _ _ Hs Hp Hrun) as (Hs3 & Hroom).
    apply bind_inv in H. destruct H as (i4 & s5 & Hi4 & H). step Hi4.
    rewrite Hbit in H. simpl in H. step H.
    eexists. split; [eassumption|].
    assert (0 <= Z.shiftr (Z.land 192 i) 6).
    { apply Z.shiftr_nonneg, Z.land_nonneg. left. lia. }
    unfold byte in Hp. lia.
Qed.

Lemma read_instruction_step p i s s' :
  bytes_at p i s -> _read_instruction s = Ret tt s' -> exists v, bytes_at p v s'.
Proof.
  intros Hs H. unfold _read_instruction in H. step H.
  eexists. eassumption.
Qed.

Lemma cycle_step (trace_cycle : bool) p i s s' :
  bytes_at p i s -> byte p ->
  cycle trace_cycle s = Ret tt s' ->
  ~ unmasked_opcode (ir s') ->
  exists p', bytes_at p' (ir s') s' /\ 0 <= p' <= 256.
Proof.
  intros Hat Hp H Hop.
  unfold cycle in H.
  apply bind_inv in H. destruct H as (enabled & s0 & He & H).
  inversion He; subst s0; clear He.
  apply bind_inv in H. destruct H as ([] & s1 & Hint & H).
  assert (Hs1 : exists p1, bytes_at p1 i s1 /\ byte p1).
  { destruct enabled.
    - exact (handle_interrupts_step _ _ _ _ Hat Hp Hint).
    - inversion Hint; subst. exists p. split; assumption. }
  destruct Hs1 as (p1 & Hat1 & Hp1).
  apply bind_inv in H. destruct H as ([] & s2 & Hread & H).
  destruct (read_instruction_step _ _ _ _ Hat1 Hread) as (v0 & Hat2).
  apply bind_inv in H. destruct H as ([] & s3 & Htrace & H).
  assert (Hat3 : bytes_at p1 v0 s3).
  { destruct trace_cycle.
    - exact (trace_step _ _ _ _ Hat2 Htrace).
    - inversion Htrace; subst. assumption. }
  assert (Hir : ir s' = v0).
  { rewrite (execute_instruction_keeps_ir _ _ _ H). destruct Hat3 as (_ & _ & E). exact E. }
  rewrite Hir in *.
  exact (execute_instruction_step _ _ _ _ Hat3 Hp1 Hop H).
Qed.

Lemma is_byte_spec v : is_byte v = true -> byte v.
Proof.
  unfold is_byte, byte. intros H. apply andb_prop in H. destruct H as [H1 H2].
  apply Z.leb_le in H1. apply Z.leb_le in H2. lia.
Qed.

Lemma forallb_is_byte (l : list Z) : forallb is_byte l = true -> Forall byte l.
Proof.
  induction l as [|x l IH]; simpl; intros H; [apply List.Forall_nil|].
  apply andb_prop in H. destruct H as [Hx Hl].
  apply List.Forall_cons; [apply is_byte_spec; assumption | apply IH; assumption].
Qed.

Lemma all_bytes_check_spec s : all_bytes_check s = true -> all_bytes s.
Proof.
  unfold all_bytes_check. intros H.
  repeat (apply andb_prop in H; let H' := fresh "H" in destruct H as [H H']).
  apply Nat.eqb_eq in H.
  repeat match goal with
         | E : Nat.eqb _ _ = true |- _ => apply Nat.eqb_eq in E
         | E : forallb is_byte _ = true |- _ => apply forallb_is_byte in E
         | E : is_byte _ = true |- _ => apply is_byte_spec in E
         end.
  unfold all_bytes, all_bytes_but_pc, well_shaped. tauto.
Qed.


(** NOT is the one ALU operation that stores without masking: NOT R0 on a
    fresh CPU completes its cycle with [reg[0] = -1]. *)
Lemma ALU_NOT_stores_negative :
  all_bytes not_r0_loaded /\
  exists s', cycle false not_r0_loaded = Ret tt s' /\
             Py.getitem (reg s') 0 = Some (-1) /\ ir s' = 0x69.
Proof.
  split; [apply all_bytes_check_spec; vm_compute; reflexivity|].
  eexists. split; [vm_compute; reflexivity|]. split; reflexivity.
Qed.

(** *** Along a run *)

Lemma byte_set_bit_0 v b : set_nth_bit v 0 = Some b -> byte v -> byte b.
Proof.
  unfold set_nth_bit, Py.lshift. change (0 <? 0) with false.
  change (Z.shiftl 1 0) with 1. intros E Hv. inversion E; subst.
  apply byte_lor; [assumption | unfold byte; lia].
Qed.

Lemma raise_timer_interrupt_step p i s s' :
  bytes_at p i s -> raise_interrupt timer_interrupt_bit s = Ret tt s' -> bytes_at p i s'.
Proof.
  intros Hs H. unfold raise_interrupt, timer_interrupt_bit in H.
  apply bind_inv in H. destruct H as (v & s1 & Hv & H). step Hv.
  apply bind_inv in H. destruct H as (b & s2 & Hb & H). step Hb.
  eapply reg_set_step in H; [exact H | eassumption | eapply byte_set_bit_0; eassumption].
Qed.

Lemma run_unfold trace_cycle (tick : bool) rest s s1 s2 :
  cycle trace_cycle s = Ret tt s1 ->
  (if tick then raise_interrupt timer_interrupt_bit else pure tt : M unit) s1 = Ret tt s2 ->
  run trace_cycle (tick :: rest) s = run trace_cycle rest s2.
Proof.
  intros Hc Ht. simpl.
  rewrite (bind_Ret _ _ _ _ _ Hc), (bind_Ret _ _ _ _ _ Ht). reflexivity.
Qed.



(** The keyboard thread is the other writer of the machine: it stores
    the code point of the character read as it is.  The euro sign typed
    at a fresh CPU leaves 8364 in the mailbox cell. *)
Lemma keyboard_stores_code_point_unmasked :
  all_bytes init /\
  exists s', Keyboard_poll 8364 init = Ret tt s' /\
             Py.getitem (ram s') 0xF4 = Some 8364 /\
             Py.getitem (reg s') isr = Some 2 /\
             ~ all_bytes_but_pc s'.
Proof.
  split; [apply all_bytes_check_spec; vm_compute; reflexivity|].
  eexists. split; [vm_compute; reflexivity|].
  split; [reflexivity|]. split; [reflexivity|].
  intros (_ & Hm & _).
  pose proof (proj1 (Forall_lookup byte _) Hm 0xF4%nat 8364 eq_refl) as Hb.
  unfold byte in Hb. lia.
Qed.


(** ** The programs of the specification's scenarios, run *)

Example ldi_then_prn_prints_5 :
  exists s', run false (replicate 3 false) (final (load ldi_then_prn init)) = Exit 0 s' /\
             stdout s' = Py.lit "5" ++ newline.
Proof. eexists. split; [vm_compute; reflexivity | reflexivity]. Qed.

(** [wrap_on_add] leaves [reg[0] = (200 + 100) mod 256] and prints it. *)
Example wrap_on_add_prints_44 :
  exists s', run false (replicate 5 false) wrap_on_add_loaded = Exit 0 s' /\
             stdout s' = Py.lit "44" ++ newline.
Proof. eexists. split; [vm_compute; reflexivity | reflexivity]. Qed.

(** [division_by_zero] ends in the third cycle with status 0, having
    printed the diagnostic line only. *)
Example division_by_zero_exits_with_0 :
  exists s', run false (replicate 3 false) (final (load division_by_zero init)) = Exit 0 s' /\
             stdout s' = Py.lit "Cannot divide by 0!" ++ newline /\
             Py.getitem (reg s') 0 = Some 1.
Proof. eexists. split; [vm_compute; reflexivity | split; reflexivity]. Qed.

(** [iret_then_jne]: after thirteen cycles IRET has left [fl = 0b011] and
    [pc = 30]; the fourteenth, JNE R0, jumps to 40 although E is set. *)
Example iret_then_jne_jumps :
  (exists s13, run false (replicate 13 false) (final (load iret_then_jne init)) = Ret tt s13 /\
               fl s13 = 3 /\ pc s13 = 30) /\
  (exists s14, run false (replicate 14 false) (final (load iret_then_jne init)) = Ret tt s14 /\
               ir s14 = 0x56 /\ fl s14 = 3 /\ pc s14 = 40).
Proof.
  split; eexists; (split; [vm_compute; reflexivity | repeat split]).
Qed.

(** * Further properties of the methods *)

(** ** Subscripts *)

Lemma py_index_Some_lt n i k : Py.py_index n i = Some k -> (k < n)%nat.
Proof.
  unfold Py.py_index.
  destruct (Z.leb_spec 0 i); destruct (Z.ltb_spec i (Z.of_nat n)); simpl;
    try (intros E; inversion E; lia);
    destruct (Z.leb_spec (- Z.of_nat n) i); destruct (Z.ltb_spec i 0); simpl;
    intros E; inversion E; lia.
Qed.

Lemma getitem_slot (l : list Z) i a :
  Py.getitem l i = Some a ->
  exists k, Py.py_index (length l) i = Some k /\ l !! k = Some a /\ (k < length l)%nat.
Proof.
  unfold Py.getitem. destruct (Py.py_index (length l) i) as [k|] eqn:E; [|discriminate].
  intros H. exists k. split; [reflexivity|]. split; [assumption|].
  exact (py_index_Some_lt _ _ _ E).
Qed.

Lemma reg_get_slot s r k a :
  reg_slot s r = Some k -> reg s !! k = Some a -> reg_get r s = Ret a s.
Proof.
  unfold reg_slot. intros Hk Ha. apply reg_get_Some. unfold Py.getitem.
  rewrite Hk. assumption.
Qed.

Lemma reg_set_slot s r k v :
  reg_slot s r = Some k -> reg_set r v s = Ret tt (with_reg (<[k := v]> (reg s)) s).
Proof. unfold reg_slot, reg_set, Py.setitem. intros ->. reflexivity. Qed.

Lemma reg_get_no_slot s r : reg_slot s r = None -> reg_get r s = Raise Py.IndexError s.
Proof.
  unfold reg_slot. intros Hk. apply reg_get_None. unfold Py.getitem. rewrite Hk. reflexivity.
Qed.

Lemma reg_set_no_slot s r v : reg_slot s r = None -> reg_set r v s = Raise Py.IndexError s.
Proof. unfold reg_slot, reg_set, Py.setitem. intros ->. reflexivity. Qed.

Lemma reg_slot_with_reg s l r :
  length l = length (reg s) -> reg_slot (with_reg l s) r = reg_slot s r.
Proof. unfold reg_slot. simpl. intros ->. reflexivity. Qed.

Lemma reg_slot_byte_register s r :
  length (reg s) = 8%nat -> 0 <= r < 8 -> reg_slot s r = Some (Z.to_nat r).
Proof. intros Hl Hr. unfold reg_slot. apply py_index_nonneg. lia. Qed.

Lemma reg_slot_outside s r :
  length (reg s) = 8%nat -> r < -8 \/ 8 <= r -> reg_slot s r = None.
Proof.
  intros Hl Hr. unfold reg_slot, Py.py_index. rewrite Hl.
  destruct (Z.leb_spec 0 r); destruct (Z.ltb_spec r (Z.of_nat 8)); simpl;
    destruct (Z.leb_spec (- Z.of_nat 8) r); destruct (Z.ltb_spec r 0); simpl;
    try reflexivity; lia.
Qed.

(** A binary ALU method that stores [f a b] in [reg[ra]]. *)
Lemma alu_binary_stores (f : Z -> Z -> Z) (op : Z -> Z -> M unit) s ra rb ka kb a b :
  (forall ra rb, op ra rb
                 = do a <- reg_get ra; do b <- reg_get rb; reg_set ra (f a b)) ->
  reg_slot s ra = Some ka -> reg s !! ka = Some a ->
  reg_slot s rb = Some kb -> reg s !! kb = Some b ->
  op ra rb s = Ret tt (with_reg (<[ka := f a b]> (reg s)) s).
Proof.
  intros Hop Hka Ha Hkb Hb. rewrite Hop.
  rewrite (bind_Ret _ _ _ _ _ (reg_get_slot _ _ _ _ Hka Ha)).
  rewrite (bind_Ret _ _ _ _ _ (reg_get_slot _ _ _ _ Hkb Hb)).
  apply reg_set_slot. assumption.
Qed.

(** ** Arithmetic *)

(** X1. ADD, SUB and MUL store the mathematical result reduced modulo 256
    in [reg[ra]] and change nothing else, whatever integers the two
    registers hold (and also when [ra] and [rb] are one register). *)
Theorem ALU_ADD_SUB_MUL_wrap (s : CPU) (ra rb : Z) (ka kb : nat) (a b : Z) :
  reg_slot s ra = Some ka -> reg s !! ka = Some a ->
  reg_slot s rb = Some kb -> reg s !! kb = Some b ->
  _ALU_ADD ra rb s = Ret tt (with_reg (<[ka := (a + b) mod 256]> (reg s)) s) /\
  _ALU_SUB ra rb s = Ret tt (with_reg (<[ka := (a - b) mod 256]> (reg s)) s) /\
  _ALU_MUL ra rb s = Ret tt (with_reg (<[ka := (a * b) mod 256]> (reg s)) s) /\
  byte ((a + b) mod 256) /\ byte ((a - b) mod 256) /\ byte ((a * b) mod 256).
Proof.
  intros Hka Ha Hkb Hb.
  rewrite <- !land_255_mod.
  split; [|split; [|split; [|split; [|split]]]]; try apply byte_land_255.
  - exact (alu_binary_stores (fun x y => Z.land (x + y) 255) _ALU_ADD
             s ra rb ka kb a b (fun _ _ => eq_refl) Hka Ha Hkb Hb).
  - exact (alu_binary_stores (fun x y => Z.land (x - y) 255) _ALU_SUB
             s ra rb ka kb a b (fun _ _ => eq_refl) Hka Ha Hkb Hb).
  - exact (alu_binary_stores (fun x y => Z.land (x * y) 255) _ALU_MUL
             s ra rb ka kb a b (fun _ _ => eq_refl) Hka Ha Hkb Hb).
Qed.

Lemma ALU_ADD_SUB_MUL_wrap_witness :
  _ALU_ADD 0 1 (cpu_with_regs [200; 100; 0; 0; 0; 0; 0; 0xF4])
  = Ret tt (with_reg (<[0%nat := (200 + 100) mod 256]> [200; 100; 0; 0; 0; 0; 0; 0xF4])
              (cpu_with_regs [200; 100; 0; 0; 0; 0; 0; 0xF4])) /\
  (200 + 100) mod 256 = 44.
Proof.
  split; [|reflexivity].
  apply (ALU_ADD_SUB_MUL_wrap (cpu_with_regs [200; 100; 0; 0; 0; 0; 0; 0xF4])
           0 1 0%nat 1%nat 200 100); reflexivity.
Defined.

Lemma alu_unary_stores (f : Z -> Z) (op : Z -> M unit) s r k a :
  (forall r, op r = do a <- reg_get r; reg_set r (f a)) ->
  reg_slot s r = Some k -> reg s !! k = Some a ->
  op r s = Ret tt (with_reg (<[k := f a]> (reg s)) s).
Proof.
  intros Hop Hk Ha. rewrite Hop.
  rewrite (bind_Ret _ _ _ _ _ (reg_get_slot _ _ _ _ Hk Ha)).
  apply reg_set_slot. assumption.
Qed.

Lemma list_insert_insert_same (l : list Z) k v w :
  <[k := w]> (<[k := v]> l) = <[k := w]> l.
Proof.
  revert k. induction l as [|x l IH]; intros [|k]; simpl; try reflexivity.
  rewrite IH. reflexivity.
Qed.

Lemma list_insert_same (l : list Z) k v : l !! k = Some v -> <[k := v]> l = l.
Proof.
  revert k. induction l as [|x l IH]; intros [|k]; simpl; try discriminate.
  - intros E. inversion E. reflexivity.
  - intros E. rewrite IH by assumption. reflexivity.
Qed.

Lemma with_reg_same s : with_reg (reg s) s = s.
Proof. destruct s. reflexivity. Qed.

Lemma with_reg_with_reg l l' s : with_reg l' (with_reg l s) = with_reg l' s.
Proof. reflexivity. Qed.

Lemma lookup_insert_here (l : list Z) k v a :
  l !! k = Some a -> <[k := v]> l !! k = Some v.
Proof. intros H. apply list_lookup_insert_eq. exact (proj1 (lookup_lt_is_Some l k) (ex_intro _ a H)). Qed.

(** Two unary stores into one register, one after the other. *)
Lemma alu_unary_twice (f g : Z -> Z) (op1 op2 : Z -> M unit) s r k a :
  (forall r, op1 r = do a <- reg_get r; reg_set r (f a)) ->
  (forall r, op2 r = do a <- reg_get r; reg_set r (g a)) ->
  reg_slot s r = Some k -> reg s !! k = Some a ->
  (do _ <- op1 r; op2 r) s = Ret tt (with_reg (<[k := g (f a)]> (reg s)) s).
Proof.
  intros H1 H2 Hk Ha.
  rewrite (bind_Ret _ _ _ _ _ (alu_unary_stores f op1 s r k a H1 Hk Ha)).
  rewrite (alu_unary_stores g op2 _ r k (f a) H2).
  - simpl. rewrite list_insert_insert_same. reflexivity.
  - rewrite reg_slot_with_reg; [assumption | apply length_insert].
  - simpl. exact (lookup_insert_here _ _ _ _ Ha).
Qed.

(** X2. On a register that holds a byte, INC followed by DEC, and DEC
    followed by INC, leave the machine exactly as it was: the wrap of INC
    at 255 and the wrap of DEC at 0 undo each other. *)
Theorem INC_DEC_round_trip (s : CPU) (r : Z) (k : nat) (a : Z) :
  reg_slot s r = Some k -> reg s !! k = Some a -> byte a ->
  (do _ <- _ALU_INC r; _ALU_DEC r) s = Ret tt s /\
  (do _ <- _ALU_DEC r; _ALU_INC r) s = Ret tt s.
Proof.
  intros Hk Ha Hb.
  assert (E1 : Z.land (Z.land (a + 1) 255 - 1) 255 = a).
  { rewrite !land_255_mod. unfold byte in Hb.
    destruct (Z.eq_dec a 255) as [->|Hne]; [reflexivity|].
    rewrite (Z.mod_small (a + 1)) by lia. rewrite Z.mod_small; lia. }
  assert (E2 : Z.land (Z.land (a - 1) 255 + 1) 255 = a).
  { rewrite !land_255_mod. unfold byte in Hb.
    destruct (Z.eq_dec a 0) as [->|Hne]; [reflexivity|].
    rewrite (Z.mod_small (a - 1)) by lia. rewrite Z.mod_small; lia. }
  split.
  - rewrite (alu_unary_twice (fun x => Z.land (x + 1) 255) (fun x => Z.land (x - 1) 255)
               _ALU_INC _ALU_DEC s r k a (fun _ => eq_refl) (fun _ => eq_refl) Hk Ha).
    rewrite E1, list_insert_same by assumption. rewrite with_reg_same. reflexivity.
  - rewrite (alu_unary_twice (fun x => Z.land (x - 1) 255) (fun x => Z.land (x + 1) 255)
               _ALU_DEC _ALU_INC s r k a (fun _ => eq_refl) (fun _ => eq_refl) Hk Ha).
    rewrite E2, list_insert_same by assumption. rewrite with_reg_same. reflexivity.
Qed.

Lemma INC_DEC_round_trip_witness :
  (do _ <- _ALU_INC 0; _ALU_DEC 0) (cpu_with_regs [255; 0; 0; 0; 0; 0; 0; 0xF4])
  = Ret tt (cpu_with_regs [255; 0; 0; 0; 0; 0; 0; 0xF4]) /\
  (do _ <- _ALU_DEC 0; _ALU_INC 0) (cpu_with_regs [255; 0; 0; 0; 0; 0; 0; 0xF4])
  = Ret tt (cpu_with_regs [255; 0; 0; 0; 0; 0; 0; 0xF4]).
Proof.
  apply (INC_DEC_round_trip (cpu_with_regs [255; 0; 0; 0; 0; 0; 0; 0xF4]) 0 0%nat 255);
    [reflexivity | reflexivity | unfold byte; lia].
Defined.

(** X3. NOT stores [-(a + 1)] (never a byte when [a] is one), and NOT
    executed twice leaves the machine exactly as it was. *)
Theorem ALU_NOT_involution (s : CPU) (r : Z) (k : nat) (a : Z) :
  reg_slot s r = Some k -> reg s !! k = Some a ->
  _ALU_NOT r s = Ret tt (with_reg (<[k := - (a + 1)]> (reg s)) s) /\
  (byte a -> -256 <= - (a + 1) <= -1) /\
  (do _ <- _ALU_NOT r; _ALU_NOT r) s = Ret tt s.
Proof.
  intros Hk Ha.
  assert (E : Z.lnot a = - (a + 1)) by (rewrite Z.lnot_eq_pred_opp; lia).
  split; [|split].
  - rewrite <- E.
    exact (alu_unary_stores Z.lnot _ALU_NOT s r k a (fun _ => eq_refl) Hk Ha).
  - unfold byte. lia.
  - rewrite (alu_unary_twice Z.lnot Z.lnot _ALU_NOT _ALU_NOT s r k a
               (fun _ => eq_refl) (fun _ => eq_refl) Hk Ha).
    rewrite Z.lnot_involutive, list_insert_same by assumption.
    rewrite with_reg_same. reflexivity.
Qed.

Lemma ALU_NOT_involution_witness :
  _ALU_NOT 7 init = Ret tt (with_reg (<[7%nat := - (0xF4 + 1)]> (reg init)) init) /\
  (byte 0xF4 -> -256 <= - (0xF4 + 1) <= -1) /\
  (do _ <- _ALU_NOT 7; _ALU_NOT 7) init = Ret tt init.
Proof.
  apply (ALU_NOT_involution init 7 7%nat 0xF4); reflexivity.
Defined.

(** X4. AND, OR and XOR store the bitwise result in [reg[ra]] and change
    nothing else; on two bytes the result is a byte again. *)
Theorem ALU_AND_OR_XOR_bytes (s : CPU) (ra rb : Z) (ka kb : nat) (a b : Z) :
  reg_slot s ra = Some ka -> reg s !! ka = Some a ->
  reg_slot s rb = Some kb -> reg s !! kb = Some b ->
  _ALU_AND ra rb s = Ret tt (with_reg (<[ka := Z.land a b]> (reg s)) s) /\
  _ALU_OR ra rb s = Ret tt (with_reg (<[ka := Z.lor a b]> (reg s)) s) /\
  _ALU_XOR ra rb s = Ret tt (with_reg (<[ka := Z.lxor a b]> (reg s)) s) /\
  (byte a -> byte b -> byte (Z.land a b) /\ byte (Z.lor a b) /\ byte (Z.lxor a b)).
Proof.
  intros Hka Ha Hkb Hb.
  split; [|split; [|split]].
  - exact (alu_binary_stores Z.land _ALU_AND s ra rb ka kb a b
             (fun _ _ => eq_refl) Hka Ha Hkb Hb).
  - exact (alu_binary_stores Z.lor _ALU_OR s ra rb ka kb a b
             (fun _ _ => eq_refl) Hka Ha Hkb Hb).
  - exact (alu_binary_stores Z.lxor _ALU_XOR s ra rb ka kb a b
             (fun _ _ => eq_refl) Hka Ha Hkb Hb).
  - intros Hba Hbb. split; [apply byte_land_l; assumption|].
    split; [apply byte_lor | apply byte_lxor]; assumption.
Qed.

Lemma ALU_AND_OR_XOR_bytes_witness :
  _ALU_XOR 0 1 (cpu_with_regs [12; 10; 0; 0; 0; 0; 0; 0xF4])
  = Ret tt (cpu_with_regs [6; 10; 0; 0; 0; 0; 0; 0xF4]).
Proof.
  exact (proj1 (proj2 (proj2
    (ALU_AND_OR_XOR_bytes (cpu_with_regs [12; 10; 0; 0; 0; 0; 0; 0xF4])
       0 1 0%nat 1%nat 12 10 eq_refl eq_refl eq_refl eq_refl)))).
Defined.

(** X5. SHL and SHR with a negative count in [reg[rb]] raise [ValueError]
    and leave the machine as it was.  With a count [b >= 0], SHL stores
    [(a * 2^b) mod 256] and SHR stores the floor of [a / 2^b]; shifting a
    byte by 8 or more gives 0 either way. *)
Theorem ALU_SHL_SHR_counts (s : CPU) (ra rb : Z) (ka kb : nat) (a b : Z) :
  reg_slot s ra = Some ka -> reg s !! ka = Some a ->
  reg_slot s rb = Some kb -> reg s !! kb = Some b ->
  (b < 0 ->
   _ALU_SHL ra rb s = Raise Py.ValueError s /\
   _ALU_SHR ra rb s = Raise Py.ValueError s) /\
  (0 <= b ->
   _ALU_SHL ra rb s = Ret tt (with_reg (<[ka := (a * 2 ^ b) mod 256]> (reg s)) s) /\
   _ALU_SHR ra rb s = Ret tt (with_reg (<[ka := a / 2 ^ b]> (reg s)) s)) /\
  (byte a -> 8 <= b -> (a * 2 ^ b) mod 256 = 0 /\ a / 2 ^ b = 0).
Proof.
  intros Hka Ha Hkb Hb.
  assert (Hl : _ALU_SHL ra rb s
               = (do v <- lift Py.ValueError (Py.lshift a b);
                  reg_set ra (Z.land v 255)) s).
  { unfold _ALU_SHL.
    rewrite (bind_Ret _ _ _ _ _ (reg_get_slot _ _ _ _ Hka Ha)).
    rewrite (bind_Ret _ _ _ _ _ (reg_get_slot _ _ _ _ Hkb Hb)). reflexivity. }
  assert (Hr : _ALU_SHR ra rb s
               = (do v <- lift Py.ValueError (Py.rshift a b); reg_set ra v) s).
  { unfold _ALU_SHR.
    rewrite (bind_Ret _ _ _ _ _ (reg_get_slot _ _ _ _ Hka Ha)).
    rewrite (bind_Ret _ _ _ _ _ (reg_get_slot _ _ _ _ Hkb Hb)). reflexivity. }
  rewrite Hl, Hr. unfold Py.lshift, Py.rshift.
  split; [|split].
  - intros Hneg. destruct (Z.ltb_spec b 0); [|lia]. split; reflexivity.
  - intros Hpos. destruct (Z.ltb_spec b 0); [lia|].
    split.
    + erewrite (bind_Ret (lift _ _)) by reflexivity.
      rewrite Z.shiftl_mul_pow2, land_255_mod by assumption.
      apply reg_set_slot. assumption.
    + erewrite (bind_Ret (lift _ _)) by reflexivity.
      rewrite Z.shiftr_div_pow2 by assumption.
      apply reg_set_slot. assumption.
  - intros Hbyte Hbig. unfold byte in Hbyte.
    replace b with ((b - 8) + 8) by lia.
    rewrite Z.pow_add_r by lia. change (2 ^ 8) with 256.
    assert (0 < 2 ^ (b - 8)) by (apply Z.pow_pos_nonneg; lia).
    split.
    + rewrite Z.mul_assoc. apply Z_mod_mult.
    + apply Z.div_small. nia.
Qed.

Lemma ALU_SHL_SHR_counts_witness :
  _ALU_SHL 0 1 (cpu_with_regs [0x81; 1; 0; 0; 0; 0; 0; 0xF4])
  = Ret tt (cpu_with_regs [2; 1; 0; 0; 0; 0; 0; 0xF4]) /\
  _ALU_SHR 0 1 (cpu_with_regs [0x81; 1; 0; 0; 0; 0; 0; 0xF4])
  = Ret tt (cpu_with_regs [0x40; 1; 0; 0; 0; 0; 0; 0xF4]).
Proof.
  apply (proj1 (proj2 (ALU_SHL_SHR_counts (cpu_with_regs [0x81; 1; 0; 0; 0; 0; 0; 0xF4])
                         0 1 0%nat 1%nat 0x81 1 eq_refl eq_refl eq_refl eq_refl))).
  lia.
Defined.

(** X6. With a nonzero divisor in [reg[rb]], DIV stores the floor quotient
    and MOD the remainder of the same sign as the divisor, so that
    [a = b * q + r]; on bytes both results are bytes, and the remainder is
    below the divisor. *)
Theorem ALU_DIV_MOD_nonzero (s : CPU) (ra rb : Z) (ka kb : nat) (a b : Z) :
  reg_slot s ra = Some ka -> reg s !! ka = Some a ->
  reg_slot s rb = Some kb -> reg s !! kb = Some b ->
  b <> 0 ->
  _ALU_DIV ra rb s = Ret tt (with_reg (<[ka := a / b]> (reg s)) s) /\
  _ALU_MOD ra rb s = Ret tt (with_reg (<[ka := a mod b]> (reg s)) s) /\
  a = b * (a / b) + a mod b /\
  (0 < b -> 0 <= a mod b < b) /\
  (b < 0 -> b < a mod b <= 0) /\
  (byte a -> byte b -> byte (a / b) /\ byte (a mod b)).
Proof.
  intros Hka Ha Hkb Hb Hnz.
  assert (Hz : (b =? 0) = false) by (apply Z.eqb_neq; assumption).
  split; [|split; [|split; [|split; [|split]]]].
  - unfold _ALU_DIV.
    rewrite (bind_Ret _ _ _ _ _ (reg_get_slot _ _ _ _ Hkb Hb)). rewrite Hz.
    rewrite (bind_Ret _ _ _ _ _ (reg_get_slot _ _ _ _ Hka Ha)).
    rewrite (bind_Ret _ _ _ _ _ (reg_get_slot _ _ _ _ Hkb Hb)).
    apply reg_set_slot. assumption.
  - unfold _ALU_MOD.
    rewrite (bind_Ret _ _ _ _ _ (reg_get_slot _ _ _ _ Hkb Hb)). rewrite Hz.
    rewrite (bind_Ret _ _ _ _ _ (reg_get_slot _ _ _ _ Hka Ha)).
    rewrite (bind_Ret _ _ _ _ _ (reg_get_slot _ _ _ _ Hkb Hb)).
    apply reg_set_slot. assumption.
  - apply Z.div_mod. assumption.
  - intros Hpos. apply Z.mod_pos_bound. assumption.
  - intros Hneg. apply Z.mod_neg_bound. assumption.
  - intros Hba Hbb. split; [apply byte_div | apply byte_mod]; assumption.
Qed.

Lemma ALU_DIV_MOD_nonzero_witness :
  _ALU_DIV 0 1 (cpu_with_regs [17; 5; 0; 0; 0; 0; 0; 0xF4])
  = Ret tt (cpu_with_regs [3; 5; 0; 0; 0; 0; 0; 0xF4]) /\
  _ALU_MOD 0 1 (cpu_with_regs [17; 5; 0; 0; 0; 0; 0; 0xF4])
  = Ret tt (cpu_with_regs [2; 5; 0; 0; 0; 0; 0; 0xF4]).
Proof.
  pose proof (ALU_DIV_MOD_nonzero (cpu_with_regs [17; 5; 0; 0; 0; 0; 0; 0xF4])
                0 1 0%nat 1%nat 17 5 eq_refl eq_refl eq_refl eq_refl ltac:(lia))
    as (Hd & Hm & _).
  split; [exact Hd | exact Hm].
Defined.

(** ** Data movement *)

(** X7. In a machine of 8 registers, LDI r,i stores [i mod 256] in
    [reg[r]] for a register number [r] in 0..7 and changes nothing else;
    for an operand [r >= 8] (or below -8) it raises [IndexError] and
    leaves the machine as it was. *)
Theorem LDI_masks_or_faults (s : CPU) (r i : Z) :
  length (reg s) = 8%nat ->
  (0 <= r < 8 ->
   _LDI r i s = Ret tt (with_reg (<[Z.to_nat r := i mod 256]> (reg s)) s) /\
   byte (i mod 256)) /\
  (r < -8 \/ 8 <= r -> _LDI r i s = Raise Py.IndexError s).
Proof.
  intros Hl. unfold _LDI. rewrite Z.land_comm.
  split.
  - intros Hr. rewrite <- land_255_mod. split; [|apply byte_land_255].
    apply reg_set_slot, reg_slot_byte_register; assumption.
  - intros Hr. apply reg_set_no_slot, reg_slot_outside; assumption.
Qed.

Lemma LDI_masks_or_faults_witness :
  _LDI 0 300 init = Ret tt (cpu_with_regs [44; 0; 0; 0; 0; 0; 0; 0xF4]) /\
  _LDI 8 300 init = Raise Py.IndexError init.
Proof.
  pose proof (LDI_masks_or_faults init 0 300 eq_refl) as [H0 _].
  pose proof (LDI_masks_or_faults init 8 300 eq_refl) as [_ H8].
  split; [exact (proj1 (H0 ltac:(lia))) | exact (H8 ltac:(lia))].
Defined.

(** X8. ST ra,rb followed by LD rc,ra loads into [reg[rc]] the value ST
    stored: the two leave [reg[rc] = reg[rb]], the cell addressed by
    [reg[ra]] holding that value, and everything else as it was. *)
Theorem ST_LD_round_trip (s : CPU) (ra rb rc : Z) (ka kb kc m : nat) (addr v : Z) :
  reg_slot s ra = Some ka -> reg s !! ka = Some addr ->
  reg_slot s rb = Some kb -> reg s !! kb = Some v ->
  reg_slot s rc = Some kc ->
  ram_slot s addr = Some m ->
  (do _ <- _ST ra rb; _LD rc ra) s
  = Ret tt (with_reg (<[kc := v]> (reg s)) (with_ram (<[m := v]> (ram s)) s)).
Proof.
  intros Hka Ha Hkb Hb Hkc Hm.
  assert (Hst : _ST ra rb s = Ret tt (with_ram (<[m := v]> (ram s)) s)).
  { unfold _ST.
    rewrite (bind_Ret _ _ _ _ _ (reg_get_slot _ _ _ _ Hkb Hb)).
    rewrite (bind_Ret _ _ _ _ _ (reg_get_slot _ _ _ _ Hka Ha)).
    unfold ram_set, Py.setitem. unfold ram_slot in Hm. rewrite Hm. reflexivity. }
  rewrite (bind_Ret _ _ _ _ _ Hst). unfold _LD.
  erewrite (bind_Ret (reg_get ra)) by (apply (reg_get_slot _ _ ka addr); assumption).
  erewrite (bind_Ret (ram_get addr)).
  - exact (reg_set_slot (with_ram (<[m := v]> (ram s)) s) rc kc v Hkc).
  - apply ram_get_Some. unfold Py.getitem. simpl. rewrite length_insert.
    unfold ram_slot in Hm. rewrite Hm.
    apply list_lookup_insert_eq. exact (py_index_Some_lt _ _ _ Hm).
Qed.

Lemma ST_LD_round_trip_witness :
  (do _ <- _ST 0 1; _LD 2 0) (cpu_with_regs [0x80; 7; 0; 0; 0; 0; 0; 0xF4])
  = Ret tt (with_reg [0x80; 7; 7; 0; 0; 0; 0; 0xF4]
              (with_ram (<[0x80%nat := 7]> (ram init))
                 (cpu_with_regs [0x80; 7; 0; 0; 0; 0; 0; 0xF4]))).
Proof.
  apply (ST_LD_round_trip (cpu_with_regs [0x80; 7; 0; 0; 0; 0; 0; 0xF4])
           0 1 2 0%nat 1%nat 2%nat 0x80%nat 0x80 7); reflexivity.
Defined.

(** ** The stack, one instruction at a time *)

Lemma sp_slot s : length (reg s) = 8%nat -> reg_slot s spr = Some 7%nat.
Proof. intros Hl. exact (reg_slot_byte_register s 7 Hl ltac:(lia)). Qed.

Lemma sp_moves_down s sp :
  length (reg s) = 8%nat -> reg s !! 7%nat = Some sp ->
  (if sp =? 0 then reg_set spr 0xFF
   else do sp' <- reg_get spr; reg_set spr (sp' - 1)) s
  = Ret tt (with_reg (<[7%nat := sp_down sp]> (reg s)) s).
Proof.
  intros Hl Hsp. unfold sp_down. destruct (sp =? 0).
  - apply reg_set_slot, sp_slot. assumption.
  - rewrite (bind_Ret _ _ _ _ _ (reg_get_slot _ _ _ _ (sp_slot s Hl) Hsp)).
    apply reg_set_slot, sp_slot. assumption.
Qed.

Lemma sp_moves_up s sp :
  length (reg s) = 8%nat -> reg s !! 7%nat = Some sp ->
  (if sp =? 0xFF then reg_set spr 0
   else do c <- reg_get spr; reg_set spr (c + 1)) s
  = Ret tt (with_reg (<[7%nat := sp_up sp]> (reg s)) s).
Proof.
  intros Hl Hsp. unfold sp_up. destruct (sp =? 0xFF).
  - apply reg_set_slot, sp_slot. assumption.
  - rewrite (bind_Ret _ _ _ _ _ (reg_get_slot _ _ _ _ (sp_slot s Hl) Hsp)).
    apply reg_set_slot, sp_slot. assumption.
Qed.

Lemma ram_set_byte_address s a v :
  length (ram s) = 256%nat -> byte a ->
  ram_set a v s = Ret tt (with_ram (<[Z.to_nat a := v]> (ram s)) s).
Proof.
  intros Hl Ha. unfold ram_set. rewrite setitem_nonneg; [reflexivity|].
  unfold byte in Ha. lia.
Qed.

Lemma ram_get_byte_address s a v :
  length (ram s) = 256%nat -> byte a -> ram s !! Z.to_nat a = Some v ->
  ram_get a s = Ret v s.
Proof.
  intros Hl Ha Hv. apply ram_get_Some. rewrite getitem_byte_index; assumption.
Qed.

(** The part of [_PUSH] up to the store, for a register operand. *)
Lemma PUSH_after_decrement s r sp :
  length (reg s) = 8%nat -> reg s !! 7%nat = Some sp ->
  _PUSH (Some r) None s
  = (do v <- reg_get r; do sp' <- reg_get spr; ram_set sp' v)
      (with_reg (<[7%nat := sp_down sp]> (reg s)) s).
Proof.
  intros Hl Hsp. unfold _PUSH.
  rewrite (bind_Ret _ _ _ _ _ (reg_get_slot _ _ _ _ (sp_slot s Hl) Hsp)).
  rewrite (bind_Ret _ _ _ _ _ (sp_moves_down s sp Hl Hsp)). reflexivity.
Qed.

Lemma PUSH_register_stores (s : CPU) (r sp v : Z) :
  well_shaped s -> reg s !! 7%nat = Some sp -> byte sp ->
  0 <= r < 7 -> reg s !! Z.to_nat r = Some v ->
  _PUSH (Some r) None s
  = Ret tt (with_ram (<[Z.to_nat (sp_down sp) := v]> (ram s))
              (with_reg (<[7%nat := sp_down sp]> (reg s)) s)).
Proof.
  intros [Hram Hreg] Hsp Hb Hr Hv.
  pose proof (sp_down_byte sp Hb) as Hd.
  set (s1 := with_reg (<[7%nat := sp_down sp]> (reg s)) s).
  assert (Hl1 : length (reg s1) = 8%nat) by (simpl; rewrite length_insert; assumption).
  assert (Hsp1 : reg s1 !! 7%nat = Some (sp_down sp)).
  { simpl. apply list_lookup_insert_eq. lia. }
  rewrite (PUSH_after_decrement s r sp Hreg Hsp). fold s1.
  assert (Hv1 : reg s1 !! Z.to_nat r = Some v).
  { simpl. rewrite list_lookup_insert_ne by lia. assumption. }
  rewrite (bind_Ret _ _ _ _ _
             (reg_get_slot _ _ _ _ (reg_slot_byte_register s1 r Hl1 ltac:(lia)) Hv1)).
  rewrite (bind_Ret _ _ _ _ _ (reg_get_slot _ _ _ _ (sp_slot s1 Hl1) Hsp1)).
  exact (ram_set_byte_address s1 _ _ Hram Hd).
Qed.

(** X9. PUSH r in a machine of 256 cells and 8 registers with SP in
    [0, 255]: SP moves down first, from 0x00 to 0xFF at the bottom; then
    for r in 0..6 [reg[r]] is stored at the new SP; for r = 7 the value
    stored is the new SP itself; for r >= 8 the read of [reg[r]] raises
    [IndexError] with SP already moved and nothing stored. *)
Theorem PUSH_register (s : CPU) (r sp : Z) :
  well_shaped s -> reg s !! 7%nat = Some sp -> byte sp ->
  (forall v, 0 <= r < 7 -> reg s !! Z.to_nat r = Some v ->
     _PUSH (Some r) None s
     = Ret tt (with_ram (<[Z.to_nat (sp_down sp) := v]> (ram s))
                 (with_reg (<[7%nat := sp_down sp]> (reg s)) s))) /\
  (r = 7 ->
     _PUSH (Some r) None s
     = Ret tt (with_ram (<[Z.to_nat (sp_down sp) := sp_down sp]> (ram s))
                 (with_reg (<[7%nat := sp_down sp]> (reg s)) s))) /\
  (8 <= r ->
     _PUSH (Some r) None s
     = Raise Py.IndexError (with_reg (<[7%nat := sp_down sp]> (reg s)) s)) /\
  (sp = 0 -> sp_down sp = 0xFF) /\ (sp <> 0 -> sp_down sp = sp - 1).
Proof.
  intros Hs Hsp Hb. pose proof Hs as [Hram Hreg].
  pose proof (sp_down_byte sp Hb) as Hd.
  set (s1 := with_reg (<[7%nat := sp_down sp]> (reg s)) s).
  assert (Hl1 : length (reg s1) = 8%nat) by (simpl; rewrite length_insert; assumption).
  assert (Hsp1 : reg s1 !! 7%nat = Some (sp_down sp)).
  { simpl. apply list_lookup_insert_eq. lia. }
  split; [|rewrite (PUSH_after_decrement s r sp Hreg Hsp); fold s1;
           split; [|split; [|split]]].
  - intros v Hr Hv. apply PUSH_register_stores; assumption.
  - intros ->.
    rewrite (bind_Ret _ _ _ _ _ (reg_get_slot _ _ _ _ (sp_slot s1 Hl1) Hsp1)).
    rewrite (bind_Ret _ _ _ _ _ (reg_get_slot _ _ _ _ (sp_slot s1 Hl1) Hsp1)).
    exact (ram_set_byte_address s1 _ _ Hram Hd).
  - intros Hr. apply bind_Raise, reg_get_no_slot, reg_slot_outside; [assumption | lia].
  - intros ->. reflexivity.
  - intros Hne. unfold sp_down. destruct (Z.eqb_spec sp 0); [contradiction | reflexivity].
Qed.

Lemma PUSH_register_witness :
  _PUSH (Some 0) None (cpu_with_regs [0x2A; 0; 0; 0; 0; 0; 0; 0])
  = Ret tt (with_ram (<[0xFF%nat := 0x2A]> (ram init))
              (cpu_with_regs [0x2A; 0; 0; 0; 0; 0; 0; 0xFF])).
Proof.
  pose proof (PUSH_register (cpu_with_regs [0x2A; 0; 0; 0; 0; 0; 0; 0]) 0 0
                (conj eq_refl eq_refl) eq_refl ltac:(unfold byte; lia)) as [H _].
  exact (H 0x2A ltac:(lia) eq_refl).
Defined.

(** The part of [_POP] up to the read, for a register operand. *)
Lemma POP_after_increment s r sp :
  length (reg s) = 8%nat -> reg s !! 7%nat = Some sp ->
  _POP (Some r) false s
  = (do v <- ram_get sp; do _ <- reg_set r v; pure None)
      (with_reg (<[7%nat := sp_up sp]> (reg s)) s).
Proof.
  intros Hl Hsp. unfold _POP.
  rewrite (bind_Ret _ _ _ _ _ (reg_get_slot _ _ _ _ (sp_slot s Hl) Hsp)).
  rewrite (bind_Ret _ _ _ _ _ (reg_get_slot _ _ _ _ (sp_slot s Hl) Hsp)).
  rewrite (bind_Ret _ _ _ _ _ (sp_moves_up s sp Hl Hsp)). reflexivity.
Qed.

Lemma POP_register_loads (s : CPU) (r sp v : Z) :
  well_shaped s -> reg s !! 7%nat = Some sp -> byte sp ->
  ram s !! Z.to_nat sp = Some v -> 0 <= r < 8 ->
  _POP (Some r) false s
  = Ret None (with_reg (<[Z.to_nat r := v]> (<[7%nat := sp_up sp]> (reg s))) s).
Proof.
  intros [Hram Hreg] Hsp Hb Hv Hr.
  set (s1 := with_reg (<[7%nat := sp_up sp]> (reg s)) s).
  assert (Hl1 : length (reg s1) = 8%nat) by (simpl; rewrite length_insert; assumption).
  rewrite (POP_after_increment s r sp Hreg Hsp). fold s1.
  assert (Hget : ram_get sp s1 = Ret v s1)
    by (exact (ram_get_byte_address s1 sp v Hram Hb Hv)).
  rewrite (bind_Ret _ _ _ _ _ Hget).
  rewrite (bind_Ret _ _ _ _ _
             (reg_set_slot s1 r _ v (reg_slot_byte_register s1 r Hl1 Hr))).
  reflexivity.
Qed.

(** X10. POP r in a machine of 256 cells and 8 registers with SP in
    [0, 255]: the byte at the old SP goes into [reg[r]] and SP moves up,
    from 0xFF to 0x00 at the top.  For r = 7 the popped value replaces the
    moved SP; for r >= 8 the store raises [IndexError] with SP already
    moved.  Memory is not written. *)
Theorem POP_register (s : CPU) (r sp v : Z) :
  well_shaped s -> reg s !! 7%nat = Some sp -> byte sp ->
  ram s !! Z.to_nat sp = Some v ->
  (0 <= r < 8 ->
     _POP (Some r) false s
     = Ret None (with_reg (<[Z.to_nat r := v]> (<[7%nat := sp_up sp]> (reg s))) s)) /\
  (8 <= r ->
     _POP (Some r) false s
     = Raise Py.IndexError (with_reg (<[7%nat := sp_up sp]> (reg s)) s)) /\
  (sp = 0xFF -> sp_up sp = 0) /\ (sp <> 0xFF -> sp_up sp = sp + 1).
Proof.
  intros [Hram Hreg] Hsp Hb Hv.
  set (s1 := with_reg (<[7%nat := sp_up sp]> (reg s)) s).
  assert (Hl1 : length (reg s1) = 8%nat) by (simpl; rewrite length_insert; assumption).
  rewrite (POP_after_increment s r sp Hreg Hsp). fold s1.
  assert (Hget : ram_get sp s1 = Ret v s1)
    by (exact (ram_get_byte_address s1 sp v Hram Hb Hv)).
  rewrite (bind_Ret _ _ _ _ _ Hget).
  split; [|split; [|split]].
  - intros Hr.
    rewrite (bind_Ret _ _ _ _ _
               (reg_set_slot s1 r _ v (reg_slot_byte_register s1 r Hl1 Hr))).
    reflexivity.
  - intros Hr. apply bind_Raise, reg_set_no_slot, reg_slot_outside; [assumption | lia].
  - intros ->. reflexivity.
  - intros Hne. unfold sp_up. destruct (Z.eqb_spec sp 0xFF); [contradiction | reflexivity].
Qed.

Lemma POP_register_witness :
  _POP (Some 1) false (cpu_with_regs [0; 0; 0; 0; 0; 0; 0; 0xFF])
  = Ret None (cpu_with_regs [0; 0; 0; 0; 0; 0; 0; 0]).
Proof.
  pose proof (POP_register (cpu_with_regs [0; 0; 0; 0; 0; 0; 0; 0xFF]) 1 0xFF 0
                (conj eq_refl eq_refl) eq_refl ltac:(unfold byte; lia) eq_refl) as [H _].
  exact (H ltac:(lia)).
Defined.

Lemma list_insert_commute (l : list Z) j k v w :
  j <> k -> <[j := v]> (<[k := w]> l) = <[k := w]> (<[j := v]> l).
Proof.
  revert j k. induction l as [|x l IH]; intros [|j] [|k] Hne; simpl;
    try reflexivity; try congruence.
  rewrite IH by congruence. reflexivity.
Qed.

(** X11. Stack round trip.  With SP in [0, 255] and r, r' among R0..R6,
    PUSH r followed by POP r' leaves [reg[r'] = reg[r]] and SP where it
    was, at every SP including 0x00; the only other change is the cell
    just below the old SP (0xFF for SP = 0), which holds the pushed
    value. *)
Theorem PUSH_POP_round_trip (s : CPU) (r r' sp v : Z) :
  well_shaped s -> reg s !! 7%nat = Some sp -> byte sp ->
  0 <= r < 7 -> 0 <= r' < 7 -> reg s !! Z.to_nat r = Some v ->
  (do _ <- _PUSH (Some r) None; _POP (Some r') false) s
  = Ret None (with_ram (<[Z.to_nat (sp_down sp) := v]> (ram s))
                (with_reg (<[Z.to_nat r' := v]> (reg s)) s)).
Proof.
  intros Hs Hsp Hb Hr Hr' Hv. pose proof Hs as [Hram Hreg].
  rewrite (bind_Ret _ _ _ _ _ (PUSH_register_stores s r sp v Hs Hsp Hb Hr Hv)).
  set (s1 := with_ram (<[Z.to_nat (sp_down sp) := v]> (ram s))
               (with_reg (<[7%nat := sp_down sp]> (reg s)) s)).
  pose proof (sp_down_byte sp Hb) as Hd.
  assert (Hs1 : well_shaped s1)
    by (split; simpl; rewrite length_insert; assumption).
  assert (Hsp1 : reg s1 !! 7%nat = Some (sp_down sp))
    by (simpl; apply list_lookup_insert_eq; lia).
  assert (Hv1 : ram s1 !! Z.to_nat (sp_down sp) = Some v).
  { simpl. apply list_lookup_insert_eq. unfold byte in Hd. lia. }
  rewrite (POP_register_loads s1 r' (sp_down sp) v Hs1 Hsp1 Hd Hv1 ltac:(lia)).
  f_equal. unfold s1. simpl.
  rewrite sp_up_down by assumption.
  rewrite list_insert_insert_same, (list_insert_same (reg s) 7 sp Hsp).
  reflexivity.
Qed.

Lemma PUSH_POP_round_trip_witness :
  (do _ <- _PUSH (Some 0) None; _POP (Some 1) false)
    (cpu_with_regs [0x2A; 0; 0; 0; 0; 0; 0; 0])
  = Ret None (with_ram (<[0xFF%nat := 0x2A]> (ram init))
                (cpu_with_regs [0x2A; 0x2A; 0; 0; 0; 0; 0; 0])).
Proof.
  apply (PUSH_POP_round_trip (cpu_with_regs [0x2A; 0; 0; 0; 0; 0; 0; 0]) 0 1 0 0x2A);
    try reflexivity; try (unfold byte); try lia.
  split; reflexivity.
Defined.

(** X12. Call and return.  CALL r followed by RET returns to the
    instruction after the CALL ([pc + 2], not reduced modulo 256) with SP
    and every register as before the CALL; the one cell written is the
    one below SP, which holds the return address.  This holds for every
    SP whose predecessor is a valid subscript, SP = 0x00 included, where
    the cell is [ram[-1]], the last one. *)
Theorem CALL_RET_round_trip (s : CPU) (r sp : Z) (k m : nat) :
  length (reg s) = 8%nat -> reg s !! 7%nat = Some sp ->
  reg_slot s r = Some k ->
  ram_slot s (sp - 1) = Some m ->
  (do _ <- _CALL r; _RET) s
  = Ret tt (with_pc (pc s + 2) (with_ram (<[m := pc s + 2]> (ram s)) s)).
Proof.
  intros Hl Hsp Hk Hm.
  set (s1 := with_reg (<[7%nat := sp - 1]> (reg s)) s).
  set (s2 := with_ram (<[m := pc s + 2]> (ram s)) s1).
  assert (Hl1 : length (reg s1) = 8%nat) by (simpl; rewrite length_insert; assumption).
  assert (Hsp1 : reg s1 !! 7%nat = Some (sp - 1))
    by (simpl; apply list_lookup_insert_eq; lia).
  destruct (lookup_lt_is_Some_2 (reg s1) k) as [target Ht].
  { rewrite Hl1. rewrite <- Hl. exact (py_index_Some_lt _ _ _ Hk). }
  assert (Hcall : _CALL r s = Ret tt (with_pc target s2)).
  { unfold _CALL.
    rewrite (bind_Ret _ _ _ _ _ (reg_get_slot _ _ _ _ (sp_slot s Hl) Hsp)).
    rewrite (bind_Ret _ _ _ _ _ (reg_set_slot s spr 7%nat (sp - 1) (sp_slot s Hl))).
    fold s1.
    erewrite (bind_Ret get_pc) by reflexivity.
    rewrite (bind_Ret _ _ _ _ _ (reg_get_slot _ _ _ _ (sp_slot s1 Hl1) Hsp1)).
    assert (Hset : ram_set (sp - 1) (pc s1 + 2) s1 = Ret tt s2).
    { unfold ram_set, Py.setitem. unfold ram_slot in Hm. simpl. rewrite Hm. reflexivity. }
    rewrite (bind_Ret _ _ _ _ _ Hset).
    assert (Hk2 : reg_slot s2 r = Some k).
    { unfold reg_slot in *. simpl. rewrite length_insert. assumption. }
    rewrite (bind_Ret _ _ _ _ _ (reg_get_slot s2 r k target Hk2 Ht)).
    reflexivity. }
  rewrite (bind_Ret _ _ _ _ _ Hcall).
  set (s3 := with_pc target s2).
  unfold _RET.
  rewrite (bind_Ret _ _ _ _ _ (reg_get_slot s3 spr 7%nat (sp - 1) (sp_slot s3 Hl1) Hsp1)).
  assert (Hget : ram_get (sp - 1) s3 = Ret (pc s + 2) s3).
  { apply ram_get_Some. unfold Py.getitem. simpl. rewrite length_insert.
    unfold ram_slot in Hm. rewrite Hm.
    apply list_lookup_insert_eq. exact (py_index_Some_lt _ _ _ Hm). }
  rewrite (bind_Ret _ _ _ _ _ Hget).
  erewrite (bind_Ret (set_pc _)) by reflexivity.
  erewrite (bind_Ret (reg_get spr))
    by (apply (reg_get_slot _ spr 7%nat (sp - 1)); [apply sp_slot; exact Hl1 | exact Hsp1]).
  rewrite (reg_set_slot _ spr 7%nat _ (sp_slot (with_pc (pc s + 2) s3) Hl1)).
  f_equal. unfold s3, s2, s1, with_pc, with_ram, with_reg. simpl. f_equal.
  rewrite list_insert_insert_same. replace (sp - 1 + 1) with sp by lia.
  apply list_insert_same. assumption.
Qed.

Lemma CALL_RET_round_trip_witness :
  (do _ <- _CALL 0; _RET) (cpu_with_regs [0x20; 0; 0; 0; 0; 0; 0; 0])
  = Ret tt (with_pc 2 (with_ram (<[255%nat := 2]> (ram init))
                         (cpu_with_regs [0x20; 0; 0; 0; 0; 0; 0; 0]))).
Proof.
  apply (CALL_RET_round_trip (cpu_with_regs [0x20; 0; 0; 0; 0; 0; 0; 0])
           0 0 0%nat 255%nat); reflexivity.
Defined.

(** ** Compare and branch *)

Lemma jump_if_spec s cond r k v :
  reg_slot s r = Some k -> reg s !! k = Some v ->
  jump_if cond r s = Ret tt (with_pc (if Py.truthy cond then v else pc s + 2) s).
Proof.
  intros Hk Hv. unfold jump_if. destruct (Py.truthy cond).
  - rewrite (bind_Ret _ _ _ _ _ (reg_get_slot _ _ _ _ Hk Hv)). reflexivity.
  - reflexivity.
Qed.

(** X13. Straight after CMP ra,rb on register contents [a] and [b], each
    of the six conditional jumps takes its branch exactly when its
    relation holds between [a] and [b]: JEQ for [a = b], JNE for
    [a <> b], JLT for [a < b], JGT for [a > b], JLE for [a <= b], JGE for
    [a >= b].  A jump taken sets [pc] to [reg[r]]; a jump not taken sets
    it to [pc + 2]. *)
Theorem CMP_then_conditional_jump (s : CPU) (ra rb r : Z) (ka kb k : nat) (a b v : Z) :
  reg_slot s ra = Some ka -> reg s !! ka = Some a ->
  reg_slot s rb = Some kb -> reg s !! kb = Some b ->
  reg_slot s r = Some k -> reg s !! k = Some v ->
  exists s1,
    _ALU_CMP ra rb s = Ret tt s1 /\
    _JEQ r s1 = Ret tt (with_pc (if a =? b then v else pc s + 2) s1) /\
    _JNE r s1 = Ret tt (with_pc (if a =? b then pc s + 2 else v) s1) /\
    _JLT r s1 = Ret tt (with_pc (if a <? b then v else pc s + 2) s1) /\
    _JGT r s1 = Ret tt (with_pc (if a >? b then v else pc s + 2) s1) /\
    _JLE r s1 = Ret tt (with_pc (if a <=? b then v else pc s + 2) s1) /\
    _JGE r s1 = Ret tt (with_pc (if a >=? b then v else pc s + 2) s1).
Proof.
  intros Hka Ha Hkb Hb Hk Hv.
  assert (Hcmp : forall f, (a >? b) = true /\ f = 2 \/
                           (a >? b) = false /\ (a <? b) = true /\ f = 4 \/
                           (a >? b) = false /\ (a <? b) = false /\ f = 1 ->
                           _ALU_CMP ra rb s = Ret tt (with_fl f s)).
  { intros f Hf. unfold _ALU_CMP.
    rewrite (bind_Ret _ _ _ _ _ (reg_get_slot _ _ _ _ Hka Ha)).
    rewrite (bind_Ret _ _ _ _ _ (reg_get_slot _ _ _ _ Hkb Hb)).
    destruct Hf as [[-> ->] | [(-> & E & ->) | (-> & E & ->)]]; [reflexivity| |].
    - rewrite (bind_Ret _ _ _ _ _ (reg_get_slot _ _ _ _ Hka Ha)).
      rewrite (bind_Ret _ _ _ _ _ (reg_get_slot _ _ _ _ Hkb Hb)).
      rewrite E. reflexivity.
    - rewrite (bind_Ret _ _ _ _ _ (reg_get_slot _ _ _ _ Hka Ha)).
      rewrite (bind_Ret _ _ _ _ _ (reg_get_slot _ _ _ _ Hkb Hb)).
      rewrite E. reflexivity. }
  assert (Hj : forall f cond,
             jump_if cond r (with_fl f s)
             = Ret tt (with_pc (if Py.truthy cond then v else pc s + 2) (with_fl f s))).
  { intros f cond. exact (jump_if_spec (with_fl f s) cond r k v Hk Hv). }
  destruct (Z.compare_spec a b) as [Heq | Hlt | Hgt].
  - exists (with_fl 1 s). split.
    { apply Hcmp. right. right.
      split; [rewrite Z.gtb_ltb; apply Z.ltb_ge; lia | split; [apply Z.ltb_ge; lia | reflexivity]]. }
    unfold _JEQ, _JNE, _JLT, _JGT, _JLE, _JGE.
    repeat (erewrite (bind_Ret get_fl) by reflexivity). rewrite !Hj.
    rewrite (proj2 (Z.eqb_eq a b) Heq), (proj2 (Z.ltb_ge a b)) by lia.
    rewrite Z.gtb_ltb, (proj2 (Z.ltb_ge b a)) by lia.
    rewrite (proj2 (Z.leb_le a b)) by lia.
    rewrite Z.geb_leb, (proj2 (Z.leb_le b a)) by lia.
    repeat split.
  - exists (with_fl 4 s). split.
    { apply Hcmp. right. left.
      split; [rewrite Z.gtb_ltb; apply Z.ltb_ge; lia | split; [apply Z.ltb_lt; lia | reflexivity]]. }
    unfold _JEQ, _JNE, _JLT, _JGT, _JLE, _JGE.
    repeat (erewrite (bind_Ret get_fl) by reflexivity). rewrite !Hj.
    rewrite (proj2 (Z.eqb_neq a b)), (proj2 (Z.ltb_lt a b)) by lia.
    rewrite Z.gtb_ltb, (proj2 (Z.ltb_ge b a)) by lia.
    rewrite (proj2 (Z.leb_le a b)) by lia.
    rewrite Z.geb_leb, (proj2 (Z.leb_gt b a)) by lia.
    repeat split.
  - exists (with_fl 2 s). split.
    { apply Hcmp. left. split; [rewrite Z.gtb_ltb; apply Z.ltb_lt; lia | reflexivity]. }
    unfold _JEQ, _JNE, _JLT, _JGT, _JLE, _JGE.
    repeat (erewrite (bind_Ret get_fl) by reflexivity). rewrite !Hj.
    rewrite (proj2 (Z.eqb_neq a b)), (proj2 (Z.ltb_ge a b)) by lia.
    rewrite Z.gtb_ltb, (proj2 (Z.ltb_lt b a)) by lia.
    rewrite (proj2 (Z.leb_gt a b)) by lia.
    rewrite Z.geb_leb, (proj2 (Z.leb_le b a)) by lia.
    repeat split.
Qed.

Lemma CMP_then_conditional_jump_witness :
  exists s1,
    _ALU_CMP 0 1 (cpu_with_regs [7; 7; 0x30; 0; 0; 0; 0; 0xF4]) = Ret tt s1 /\
    _JEQ 2 s1 = Ret tt (with_pc 0x30 s1) /\
    _JNE 2 s1 = Ret tt (with_pc 2 s1).
Proof.
  destruct (CMP_then_conditional_jump (cpu_with_regs [7; 7; 0x30; 0; 0; 0; 0; 0xF4])
              0 1 2 0%nat 1%nat 2%nat 7 7 0x30
              eq_refl eq_refl eq_refl eq_refl eq_refl eq_refl)
    as (s1 & Hc & He & Hn & _).
  exists s1. split; [exact Hc | split; [exact He | exact Hn]].
Defined.

(** ** What the methods leave alone *)

Lemma preserves_bind {X A B} (f : CPU -> X) (c : M A) (k : A -> M B) :
  preserves f c -> (forall a, preserves f (k a)) -> preserves f (bind c k).
Proof.
  intros Hc Hk s. unfold bind. specialize (Hc s).
  destruct (c s) as [a s1| |]; simpl in *; try assumption.
  rewrite (Hk a s1). assumption.
Qed.

Lemma preserves_pure {X A} (f : CPU -> X) (a : A) : preserves f (pure a).
Proof. intros s. reflexivity. Qed.

Lemma preserves_exit {X A} (f : CPU -> X) n : preserves f (@exit A n).
Proof. intros s. reflexivity. Qed.

Lemma preserves_raise {X A} (f : CPU -> X) e : preserves f (@raise A e).
Proof. intros s. reflexivity. Qed.

Lemma preserves_lift {X A} (f : CPU -> X) e (o : option A) : preserves f (lift e o).
Proof. intros s. destruct o; reflexivity. Qed.

Lemma preserves_reg_get {X} (f : CPU -> X) r : preserves f (reg_get r).
Proof. intros s. unfold reg_get. apply preserves_lift. Qed.

Lemma preserves_ram_get {X} (f : CPU -> X) a : preserves f (ram_get a).
Proof. intros s. unfold ram_get. apply preserves_lift. Qed.

Lemma preserves_get_pc {X} (f : CPU -> X) : preserves f get_pc.
Proof. intros s. reflexivity. Qed.

Lemma preserves_get_ir {X} (f : CPU -> X) : preserves f get_ir.
Proof. intros s. reflexivity. Qed.

Lemma preserves_get_fl {X} (f : CPU -> X) : preserves f get_fl.
Proof. intros s. reflexivity. Qed.

Lemma preserves_get_interrupts_enabled {X} (f : CPU -> X) :
  preserves f get_interrupts_enabled.
Proof. intros s. reflexivity. Qed.

Lemma preserves_reg_set {X} (f : CPU -> X) r v :
  (forall l s, f (with_reg l s) = f s) -> preserves f (reg_set r v).
Proof.
  intros Hf s. unfold reg_set. destruct (Py.setitem (reg s) r v); simpl; [apply Hf | reflexivity].
Qed.

Lemma preserves_ram_set {X} (f : CPU -> X) a v :
  (forall l s, f (with_ram l s) = f s) -> preserves f (ram_set a v).
Proof.
  intros Hf s. unfold ram_set. destruct (Py.setitem (ram s) a v); simpl; [apply Hf | reflexivity].
Qed.

Lemma preserves_set_pc {X} (f : CPU -> X) v :
  (forall w s, f (with_pc w s) = f s) -> preserves f (set_pc v).
Proof. intros Hf s. apply Hf. Qed.

Lemma preserves_set_fl {X} (f : CPU -> X) v :
  (forall w s, f (with_fl w s) = f s) -> preserves f (set_fl v).
Proof. intros Hf s. apply Hf. Qed.

Lemma preserves_set_ir {X} (f : CPU -> X) v :
  (forall w s, f (with_ir w s) = f s) -> preserves f (set_ir v).
Proof. intros Hf s. apply Hf. Qed.

Lemma preserves_set_interrupts_enabled {X} (f : CPU -> X) b :
  (forall w s, f (with_interrupts_enabled w s) = f s) ->
  preserves f (set_interrupts_enabled b).
Proof. intros Hf s. apply Hf. Qed.

Lemma preserves_print {X} (f : CPU -> X) t e :
  (forall o s, f (with_stdout o s) = f s) -> preserves f (print t e).
Proof. intros Hf s. apply Hf. Qed.

Lemma preserves_for_each {X} (f : CPU -> X) (xs : list Z) body :
  (forall x, preserves f (body x)) -> preserves f (for_each xs body).
Proof.
  intros Hb. induction xs as [|x xs IH]; simpl.
  - apply preserves_pure.
  - apply preserves_bind; [apply Hb | intros _; exact IH].
Qed.

Lemma preserves_prm_loop {X} (f : CPU -> X) (addrs : list Z) :
  forall acc, preserves f (prm_loop addrs acc).
Proof.
  induction addrs as [|a addrs IH]; intros acc; simpl.
  - apply preserves_pure.
  - apply preserves_bind; [apply preserves_ram_get | intros v].
    apply preserves_bind; [apply preserves_lift | intros c]. apply IH.
Qed.

(** Side conditions of the setters: the component is another field. *)
Ltac other_field := first [ eassumption | intros; reflexivity ].

(** Decompose a method down to the accessors; fails on a method that
    writes the component. *)
Ltac untouched :=
  repeat first
    [ apply preserves_pure | apply preserves_exit | apply preserves_raise
    | apply preserves_lift | apply preserves_reg_get | apply preserves_ram_get
    | apply preserves_get_pc | apply preserves_get_ir | apply preserves_get_fl
    | apply preserves_get_interrupts_enabled | apply preserves_prm_loop
    | apply preserves_reg_set; solve [other_field]
    | apply preserves_ram_set; solve [other_field]
    | apply preserves_set_pc; solve [other_field]
    | apply preserves_set_fl; solve [other_field]
    | apply preserves_set_ir; solve [other_field]
    | apply preserves_set_interrupts_enabled; solve [other_field]
    | apply preserves_print; solve [other_field]
    | apply preserves_bind; [|intro]
    | apply preserves_for_each; intro
    | match goal with
      | |- preserves _ (if ?b then _ else _) => destruct b
      | |- preserves _ (match ?o with Some _ => _ | None => _ end) => destruct o
      | |- preserves _ (?h _ _ _) => unfold h
      | |- preserves _ (?h _ _) => unfold h
      | |- preserves _ (?h _) => unfold h
      | |- preserves _ ?h => unfold h
      end ].

Ltac table_entry :=
  simpl; first [ right; solve [untouched] | left; simpl; solve [auto 10] ].

Ltac table_entries :=
  repeat first [ apply List.Forall_nil | apply List.Forall_cons; [table_entry|] ].

Lemma instructions_preserve_fl :
  Forall (fun e => writes_fl (fst e) \/ preserves fl (snd e)) instructions.
Proof. unfold instructions, writes_fl. table_entries. Qed.

Lemma alu_instructions_preserve_fl :
  Forall (fun e => writes_fl (fst e) \/ preserves fl (snd e)) alu_instructions.
Proof. unfold alu_instructions, writes_fl. table_entries. Qed.

Lemma instructions_preserve_ram :
  Forall (fun e => writes_ram (fst e) \/ preserves ram (snd e)) instructions.
Proof. unfold instructions, writes_ram. table_entries. Qed.

Lemma alu_instructions_preserve_ram :
  Forall (fun e => writes_ram (fst e) \/ preserves ram (snd e)) alu_instructions.
Proof. unfold alu_instructions, writes_ram. table_entries. Qed.

Lemma instructions_preserve_interrupts_enabled :
  Forall (fun e => writes_interrupts_enabled (fst e) \/
                   preserves interrupts_enabled (snd e)) instructions.
Proof. unfold instructions, writes_interrupts_enabled. table_entries. Qed.

Lemma alu_instructions_preserve_interrupts_enabled :
  Forall (fun e => writes_interrupts_enabled (fst e) \/
                   preserves interrupts_enabled (snd e)) alu_instructions.
Proof. unfold alu_instructions, writes_interrupts_enabled. table_entries. Qed.

Lemma instructions_preserve_ir :
  Forall (fun e => False \/ preserves ir (snd e)) instructions.
Proof. unfold instructions. table_entries. Qed.

Lemma alu_instructions_preserve_ir :
  Forall (fun e => False \/ preserves ir (snd e)) alu_instructions.
Proof. unfold alu_instructions. table_entries. Qed.

Lemma instructions_preserve_pc :
  Forall (fun e => sets_pc (fst e) \/ preserves pc (snd e)) instructions.
Proof. unfold instructions, sets_pc. table_entries. Qed.

Lemma alu_instructions_preserve_pc :
  Forall (fun e => sets_pc (fst e) \/ preserves pc (snd e)) alu_instructions.
Proof. unfold alu_instructions, sets_pc. table_entries. Qed.

Lemma preserves_trace {X} (f : CPU -> X) :
  (forall o s, f (with_stdout o s) = f s) -> preserves f _trace.
Proof. intros Hout. untouched. Qed.

Lemma final_bind {X A B} (f : CPU -> X) (c : M A) (k : A -> M B) s :
  f (final (c s)) = f s ->
  (forall a, preserves f (k a)) ->
  f (final (bind c k s)) = f s.
Proof.
  intros Hc Hk. unfold bind.
  destruct (c s) as [a s1| |]; simpl in *; try assumption.
  rewrite (Hk a s1). assumption.
Qed.

Section ExecuteFrame.
Variables (X : Type) (f : CPU -> X) (excluded : Z -> Prop).
Hypothesis Hout : forall o s, f (with_stdout o s) = f s.
Hypothesis Hinstructions :
  Forall (fun e => excluded (fst e) \/ preserves f (snd e)) instructions.
Hypothesis Halu :
  Forall (fun e => excluded (fst e) \/ preserves f (snd e)) alu_instructions.

Lemma dispatch_preserves (d : list (Z * M unit)) msg op :
  Forall (fun e => excluded (fst e) \/ preserves f (snd e)) d ->
  ~ excluded op ->
  preserves f (match dict_get d op with
               | Some execute => execute
               | None => do _ <- print msg newline; do _ <- _trace; exit 1
               end).
Proof.
  intros Hd Hop. destruct (dict_get d op) as [h|] eqn:E.
  - apply dict_get_In in E.
    destruct (proj1 (List.Forall_forall _ d) Hd _ E) as [Hex | Hh]; [contradiction | exact Hh].
  - apply preserves_bind; [apply preserves_print; exact Hout | intros _].
    apply preserves_bind; [apply preserves_trace; exact Hout | intros _].
    apply preserves_exit.
Qed.

(** The dispatch of [_execute_instruction], before the advance of [pc]. *)
Lemma execute_dispatch_preserves s :
  ~ excluded (ir s) ->
  f (final ((if Py.truthy (Z.land 0x20 (ir s)) then _alu (ir s)
             else do i3 <- get_ir;
                  match dict_get instructions i3 with
                  | Some execute => execute
                  | None =>
                      do _ <- print (Py.lit "Unknown instruction encountered.") newline;
                      do _ <- _trace;
                      exit 1
                  end) s)) = f s.
Proof.
  intros Hop. destruct (Py.truthy (Z.land 0x20 (ir s))).
  - unfold _alu. apply dispatch_preserves; assumption.
  - erewrite (bind_Ret get_ir) by reflexivity.
    apply dispatch_preserves; assumption.
Qed.

Lemma execute_instruction_preserves s :
  (forall v s, f (with_pc v s) = f s) ->
  ~ excluded (ir s) ->
  f (final (_execute_instruction s)) = f s.
Proof.
  intros Hpc Hop. unfold _execute_instruction.
  erewrite (bind_Ret get_ir) by reflexivity.
  erewrite (bind_Ret get_ir) by reflexivity.
  erewrite (bind_Ret get_ir) by reflexivity.
  apply final_bind; [apply execute_dispatch_preserves; assumption | intros _].
  untouched.
Qed.
End ExecuteFrame.

(** X14. Whatever the outcome of executing an instruction (return, exit
    or exception): [fl] is changed by no opcode but CMP and IRET, [ram]
    by no opcode but ST, PUSH and CALL, and [ir] by none at all. *)
Theorem execute_instruction_frame (s : CPU) :
  (~ writes_fl (ir s) -> fl (final (_execute_instruction s)) = fl s) /\
  (~ writes_ram (ir s) -> ram (final (_execute_instruction s)) = ram s) /\
  ir (final (_execute_instruction s)) = ir s.
Proof.
  split; [|split].
  - apply (execute_instruction_preserves Z fl writes_fl);
      [reflexivity | exact instructions_preserve_fl
       | exact alu_instructions_preserve_fl | reflexivity].
  - apply (execute_instruction_preserves (list Z) ram writes_ram);
      [reflexivity | exact instructions_preserve_ram
       | exact alu_instructions_preserve_ram | reflexivity].
  - apply (execute_instruction_preserves Z ir (fun _ => False));
      [reflexivity | exact instructions_preserve_ir
       | exact alu_instructions_preserve_ir | reflexivity | tauto].
Qed.

Lemma execute_instruction_keeps_interrupts_enabled s :
  ir s <> 0x13 ->
  interrupts_enabled (final (_execute_instruction s)) = interrupts_enabled s.
Proof.
  intros Hop.
  apply (execute_instruction_preserves bool interrupts_enabled writes_interrupts_enabled);
    [reflexivity | exact instructions_preserve_interrupts_enabled
     | exact alu_instructions_preserve_interrupts_enabled | reflexivity | exact Hop].
Qed.

Lemma execute_instruction_keeps_ir_always s : ir (final (_execute_instruction s)) = ir s.
Proof.
  apply (execute_instruction_preserves Z ir (fun _ => False));
    [reflexivity | exact instructions_preserve_ir
     | exact alu_instructions_preserve_ir | reflexivity | tauto].
Qed.

Lemma cycle_interrupts_stay_disabled (trace_cycle : bool) (s : CPU) :
  interrupts_enabled s = false ->
  ir (final (cycle trace_cycle s)) <> 0x13 ->
  interrupts_enabled (final (cycle trace_cycle s)) = false.
Proof.
  intros Hie.
  assert (Hcyc : cycle trace_cycle s
                 = (do _ <- _read_instruction;
                    do _ <- (if trace_cycle then _trace else pure tt);
                    _execute_instruction) s).
  { unfold cycle. erewrite (bind_Ret get_interrupts_enabled) by reflexivity.
    rewrite Hie. erewrite (bind_Ret (pure tt)) by reflexivity. reflexivity. }
  rewrite Hcyc. clear Hcyc.
  assert (Hread : preserves interrupts_enabled _read_instruction) by untouched.
  assert (Htrace : preserves interrupts_enabled
                     (if trace_cycle then _trace else pure tt))
    by (destruct trace_cycle; untouched).
  assert (Htrace_ir : preserves ir (if trace_cycle then _trace else pure tt))
    by (destruct trace_cycle; untouched).
  specialize (Hread s).
  destruct (_read_instruction s) as [[] s2 | n s2 | e s2] eqn:Eread; simpl in Hread.
  2: { rewrite (bind_Exit _ _ _ _ _ Eread). intros _. simpl. congruence. }
  2: { rewrite (bind_Raise _ _ _ _ _ Eread). intros _. simpl. congruence. }
  rewrite (bind_Ret _ _ _ _ _ Eread).
  specialize (Htrace s2). specialize (Htrace_ir s2).
  destruct ((if trace_cycle then _trace else pure tt) s2) as [[] s3 | n s3 | e s3]
    eqn:Etrace; simpl in Htrace, Htrace_ir.
  2: { rewrite (bind_Exit _ _ _ _ _ Etrace). intros _. simpl. congruence. }
  2: { rewrite (bind_Raise _ _ _ _ _ Etrace). intros _. simpl. congruence. }
  rewrite (bind_Ret _ _ _ _ _ Etrace).
  rewrite execute_instruction_keeps_ir_always. intros Hop.
  rewrite execute_instruction_keeps_interrupts_enabled by assumption. congruence.
Qed.

Lemma IRET_enables (s s' : CPU) :
  _IRET s = Ret tt s' -> interrupts_enabled s' = true.
Proof.
  unfold _IRET. intros H.
  do 5 (apply bind_inv in H; destruct H as (? & ? & _ & H)).
  inversion H. reflexivity.
Qed.

Lemma execute_IRET_enables (s s' : CPU) :
  _execute_instruction s = Ret tt s' -> ir s = 0x13 -> interrupts_enabled s' = true.
Proof.
  destruct s as [p i f m rs ie o]. cbn [ir]. intros H ->.
  rewrite execute_IRET in H.
  apply bind_inv in H. destruct H as ([] & s1 & Hi & H).
  assert (Hir : preserves ir _IRET) by untouched.
  specialize (Hir (mkCPU p 0x13 f m rs ie o)). rewrite Hi in Hir. cbn [final ir] in Hir.
  erewrite (bind_Ret get_ir) in H by reflexivity. rewrite Hir in H.
  inversion H; subst s'. exact (IRET_enables _ _ Hi).
Qed.

(** X15. Interrupts stay off until IRET.  Take a whole iteration of the
    loop of [run]: interrupt check, fetch, trace if asked for, execute,
    and the timer check, at which the timer raises its interrupt or not;
    the keyboard thread stores nothing meanwhile.
    If it starts with [interrupts_enabled] false and the instruction it
    executes is not IRET, it ends, however it ends (return, exit or
    exception), with [interrupts_enabled] still false.  If it executes
    IRET and completes, it ends with [interrupts_enabled] true. *)
Theorem iteration_with_interrupts_disabled (trace_cycle tick : bool) (s : CPU) :
  (interrupts_enabled s = false ->
   ir (final (run trace_cycle [tick] s)) <> 0x13 ->
   interrupts_enabled (final (run trace_cycle [tick] s)) = false) /\
  (forall s',
     run trace_cycle [tick] s = Ret tt s' -> ir s' = 0x13 ->
     interrupts_enabled s' = true).
Proof.
  assert (Ht_ie : preserves interrupts_enabled
                    (do _ <- (if tick then raise_interrupt timer_interrupt_bit
                              else pure tt); pure tt : M unit))
    by (destruct tick; untouched).
  assert (Ht_ir : preserves ir
                    (do _ <- (if tick then raise_interrupt timer_interrupt_bit
                              else pure tt); pure tt : M unit))
    by (destruct tick; untouched).
  split.
  - intros Hie. pose proof (cycle_interrupts_stay_disabled trace_cycle s Hie) as Hcyc.
    cbn [run].
    destruct (cycle trace_cycle s) as [[] s1 | n s1 | e s1] eqn:Ec; cbn [final] in Hcyc.
    + rewrite (bind_Ret _ _ _ _ _ Ec), (Ht_ie s1), (Ht_ir s1). exact Hcyc.
    + rewrite (bind_Exit _ _ _ _ _ Ec). exact Hcyc.
    + rewrite (bind_Raise _ _ _ _ _ Ec). exact Hcyc.
  - intros s' H Hop. cbn [run] in H.
    apply bind_inv in H. destruct H as ([] & s1 & Hc & H).
    specialize (Ht_ie s1). specialize (Ht_ir s1).
    rewrite H in Ht_ie, Ht_ir. cbn [final] in Ht_ie, Ht_ir.
    rewrite Ht_ie. rewrite Ht_ir in Hop. clear H Ht_ie Ht_ir.
    unfold cycle in Hc.
    apply bind_inv in Hc. destruct Hc as (en & s2 & _ & Hc).
    apply bind_inv in Hc. destruct Hc as ([] & s3 & _ & Hc).
    apply bind_inv in Hc. destruct Hc as ([] & s4 & _ & Hc).
    apply bind_inv in Hc. destruct Hc as ([] & s5 & _ & Hc).
    pose proof (execute_instruction_keeps_ir_always s5) as Hir.
    rewrite Hc in Hir. cbn [final] in Hir.
    apply (execute_IRET_enables s5 s1 Hc). congruence.
Qed.

Lemma iteration_with_interrupts_disabled_witness :
  interrupts_enabled
    (final (run false [true] (with_ram (ram init) irq0_dispatched))) = false /\
  interrupts_enabled (final (run false [true] irq0_dispatched)) = true.
Proof.
  destruct (iteration_with_interrupts_disabled false true
              (with_ram (ram init) irq0_dispatched)) as [H1 _].
  destruct (iteration_with_interrupts_disabled false true irq0_dispatched) as [_ H2].
  split.
  - apply H1; [reflexivity | vm_compute; discriminate].
  - apply H2; [vm_compute; reflexivity | reflexivity].
Defined.

Lemma execute_INT p f (m rs : list Z) ie o :
  _execute_instruction (mkCPU p 0x52 f m rs ie o)
  = (do _ <- unary _INT;
     do i4 <- get_ir;
     if negb (Py.truthy (Z.land 0x10 i4)) then do q <- get_pc; set_pc (q + (1 + 1))
     else pure tt) (mkCPU p 0x52 f m rs ie o).
Proof. reflexivity. Qed.

(** X16. The advance of [pc].  When an instruction returns and its
    opcode has bit 4 clear, [pc] has moved by one plus the operand count
    in the top two bits of the opcode, without reduction modulo 256, and
    by nothing else (so PRM, opcode 0x49, moves [pc] by 2 although it
    reads two operand bytes).  INT, opcode 0x52, has bit 4 set and its
    handler does not assign [pc]: after INT, [pc] still addresses the
    INT. *)
Theorem pc_after_execute (s s' : CPU) :
  _execute_instruction s = Ret tt s' ->
  (~ sets_pc (ir s) -> pc s' = pc s + 1 + operand_count (ir s)) /\
  (ir s = 0x52 -> pc s' = pc s) /\
  operand_count 0x49 = 1.
Proof.
  intros H. split; [|split; [|reflexivity]].
  - intros Hbit. unfold _execute_instruction in H.
    erewrite (bind_Ret get_ir) in H by reflexivity.
    erewrite (bind_Ret get_ir) in H by reflexivity.
    erewrite (bind_Ret get_ir) in H by reflexivity.
    apply bind_inv in H. destruct H as ([] & s1 & Hd & H).
    pose proof (execute_dispatch_preserves Z pc sets_pc ltac:(reflexivity)
                  instructions_preserve_pc alu_instructions_preserve_pc s Hbit) as Hpc.
    pose proof (execute_dispatch_preserves Z ir (fun _ => False) ltac:(reflexivity)
                  instructions_preserve_ir alu_instructions_preserve_ir s ltac:(tauto)) as Hir.
    rewrite Hd in Hpc, Hir. simpl in Hpc, Hir.
    erewrite (bind_Ret get_ir) in H by reflexivity. rewrite Hir in H.
    unfold sets_pc in Hbit. destruct (Py.truthy (Z.land 16 (ir s))); [congruence|].
    simpl in H. inversion H; subst s'. simpl. unfold operand_count. lia.
  - intros Hint. destruct s as [p i f m rs ie o]. simpl in Hint. subst i.
    rewrite execute_INT in H.
    apply bind_inv in H. destruct H as ([] & s1 & Hd & H).
    assert (Hpc : preserves pc (unary _INT)) by untouched.
    assert (Hir : preserves ir (unary _INT)) by untouched.
    specialize (Hpc (mkCPU p 82 f m rs ie o)). specialize (Hir (mkCPU p 82 f m rs ie o)).
    rewrite Hd in Hpc, Hir. simpl in Hpc, Hir.
    erewrite (bind_Ret get_ir) in H by reflexivity. rewrite Hir in H.
    inversion H; subst s'. simpl. assumption.
Qed.

Lemma pc_after_execute_witness :
  pc (final (_execute_instruction (with_ir 0x52 init))) = pc (with_ir 0x52 init) /\
  pc (final (_execute_instruction
               (with_ir 0x49 (cpu_with_regs [1; 0; 0; 0; 0; 0; 0; 0xF4])))) = 2.
Proof.
  split.
  - apply (pc_after_execute (with_ir 0x52 init)
             (final (_execute_instruction (with_ir 0x52 init)))); reflexivity.
  - apply (pc_after_execute (with_ir 0x49 (cpu_with_regs [1; 0; 0; 0; 0; 0; 0; 0xF4]))
             (final (_execute_instruction
                       (with_ir 0x49 (cpu_with_regs [1; 0; 0; 0; 0; 0; 0; 0xF4])))));
      [reflexivity | vm_compute; discriminate].
Defined.

(** ** The trace line *)

Lemma in_range_256 v : byte v -> In v (Py.range 0 256).
Proof.
  unfold byte, Py.range. intros H. apply in_map_iff. exists (Z.to_nat v).
  split; [lia|]. apply in_seq. lia.
Qed.

Lemma fmt_02X_bytes_checked :
  forallb (fun v => match hex_field (Py.fmt_02X v) with
                    | Some w => w =? v
                    | None => false
                    end) (Py.range 0 256) = true.
Proof. vm_compute. reflexivity. Qed.

Lemma fmt_02X_byte v : byte v -> hex_field (Py.fmt_02X v) = Some v.
Proof.
  intros H.
  pose proof (proj1 (forallb_forall _ _) fmt_02X_bytes_checked v (in_range_256 v H)) as E.
  simpl in E. destruct (hex_field (Py.fmt_02X v)) as [w|]; [|discriminate].
  apply Z.eqb_eq in E. congruence.
Qed.

Lemma hex_field_length t v : hex_field t = Some v -> length t = 2%nat.
Proof.
  destruct t as [|a [|b [|c t]]]; simpl; try discriminate.
  reflexivity.
Qed.

Lemma trace_registers_text (s : CPU) :
  length (reg s) = 8%nat ->
  for_each (Py.range 0 8)
    (fun i => do v <- reg_get i; print (Py.lit " " ++ Py.fmt_02X v) []) s
  = Ret tt (with_stdout
              (stdout s ++ concat (map (fun v => Py.lit " " ++ Py.fmt_02X v) (reg s))) s).
Proof.
  destruct s as [p i f m rs ie o]. simpl. intros Hlen.
  do 9 (destruct rs as [|? rs]; try discriminate Hlen).
  cbv [Py.range seq map Z.to_nat Z.sub Z.add Z.opp Z.pos_sub Pos.to_nat
       Pos.iter_op Nat.add Z.of_nat Pos.of_succ_nat Pos.succ for_each concat].
  unfold bind, reg_get, print, with_stdout; simpl.
  f_equal. f_equal.
  repeat (rewrite ?app_nil_r, <- ?app_assoc; cbn [app]).
  reflexivity.
Qed.

Lemma trace_prints (s : CPU) (b0 b1 b2 : Z) :
  well_shaped s -> 0 <= pc s <= 253 ->
  ram s !! Z.to_nat (pc s) = Some b0 ->
  ram s !! Z.to_nat (pc s + 1) = Some b1 ->
  ram s !! Z.to_nat (pc s + 2) = Some b2 ->
  _trace s = Ret tt (with_stdout (stdout s ++ trace_text (pc s) b0 b1 b2 (reg s)) s).
Proof.
  intros [Hram Hreg] Hpc H0 H1 H2.
  unfold _trace, _ram_read.
  rewrite (bind_Ret _ _ s (pc s) s) by reflexivity.
  rewrite (bind_Ret _ _ s (pc s) s) by reflexivity.
  rewrite (bind_Ret _ _ s b0 s)
    by (apply ram_get_Some; rewrite getitem_nonneg by lia; assumption).
  rewrite (bind_Ret _ _ s (pc s) s) by reflexivity.
  rewrite (bind_Ret _ _ s b1 s)
    by (apply ram_get_Some; rewrite getitem_nonneg by lia; assumption).
  rewrite (bind_Ret _ _ s (pc s) s) by reflexivity.
  rewrite (bind_Ret _ _ s b2 s)
    by (apply ram_get_Some; rewrite getitem_nonneg by lia; assumption).
  match goal with
  | |- context [print ?t []] =>
      rewrite (bind_Ret _ _ s tt (with_stdout (stdout s ++ t ++ []) s)) by reflexivity
  end.
  match goal with
  | |- context [with_stdout ?o s] =>
      rewrite (bind_Ret _ _ _ _ _ (trace_registers_text (with_stdout o s) Hreg))
  end.
  unfold print, with_stdout, trace_text; simpl. f_equal. f_equal.
  repeat (rewrite ?app_nil_r, <- ?app_assoc; cbn [app]).
  reflexivity.
Qed.

(** X17. The trace line.  In a machine holding bytes with [pc <= 253],
    [_trace] returns having appended to standard output one line of 47
    characters and changed nothing else: "TRACE: ", then [pc], the three
    bytes at [pc], [pc+1], [pc+2] and the eight registers, each as a
    two-digit upper-case hexadecimal field that reads back as the value
    printed. *)
Theorem trace_line_format (s : CPU) (b0 b1 b2 : Z) :
  all_bytes s -> pc s <= 253 ->
  ram s !! Z.to_nat (pc s) = Some b0 ->
  ram s !! Z.to_nat (pc s + 1) = Some b1 ->
  ram s !! Z.to_nat (pc s + 2) = Some b2 ->
  _trace s = Ret tt (with_stdout (stdout s ++ trace_text (pc s) b0 b1 b2 (reg s)) s) /\
  length (trace_text (pc s) b0 b1 b2 (reg s)) = 47%nat /\
  Forall (fun v => hex_field (Py.fmt_02X v) = Some v) (pc s :: b0 :: b1 :: b2 :: reg s).
Proof.
  intros [((Hram & Hreg) & Hm & Hr & _ & _) Hp] Hpc H0 H1 H2.
  assert (Hb0 : byte b0) by exact (proj1 (Forall_lookup byte (ram s)) Hm _ _ H0).
  assert (Hb1 : byte b1) by exact (proj1 (Forall_lookup byte (ram s)) Hm _ _ H1).
  assert (Hb2 : byte b2) by exact (proj1 (Forall_lookup byte (ram s)) Hm _ _ H2).
  assert (Hall : Forall (fun v => hex_field (Py.fmt_02X v) = Some v)
                   (pc s :: b0 :: b1 :: b2 :: reg s)).
  { repeat (apply List.Forall_cons; [apply fmt_02X_byte; assumption|]).
    eapply List.Forall_impl; [|exact Hr]. intros v Hv. apply fmt_02X_byte. assumption. }
  split; [|split; [|exact Hall]].
  - apply trace_prints; [split; assumption | unfold byte in Hp; lia | assumption ..].
  - assert (Hlen : forall v, hex_field (Py.fmt_02X v) = Some v -> length (Py.fmt_02X v) = 2%nat)
      by (intros v E; exact (hex_field_length _ _ E)).
    inversion Hall as [|? ? Ep Hall1]; subst.
    inversion Hall1 as [|? ? E0 Hall2]; subst.
    inversion Hall2 as [|? ? E1 Hall3]; subst.
    inversion Hall3 as [|? ? E2 Hall4]; subst.
    destruct (reg s) as [|r0 [|r1 [|r2 [|r3 [|r4 [|r5 [|r6 [|r7 [|? ?]]]]]]]]];
      try discriminate Hreg.
    repeat match goal with
           | H : Forall _ (_ :: _) |- _ => inversion H; clear H; subst
           end.
    unfold trace_text. cbn [map concat].
    repeat rewrite length_app.
    repeat match goal with
           | E : hex_field (Py.fmt_02X ?v) = Some ?v |- _ =>
               rewrite (Hlen v E); clear E
           end.
    reflexivity.
Qed.

Lemma trace_line_format_witness :
  _trace init
  = Ret tt (with_stdout
              (Py.lit "TRACE: 00 | 00 00 00 | 00 00 00 00 00 00 00 F4" ++ newline) init).
Proof.
  pose proof (trace_line_format init 0 0 0
                ltac:(apply all_bytes_check_spec; vm_compute; reflexivity)
                ltac:(simpl; lia) eq_refl eq_refl eq_refl) as [H _].
  exact H.
Defined.

(** ** Opcodes that are in neither table *)

Lemma execute_unknown (s : CPU) :
  dict_get (table_of (ir s)) (ir s) = None ->
  _execute_instruction s
  = (do _ <- _trace; exit 1) (with_stdout (stdout s ++ unknown_opcode_line (ir s)) s).
Proof.
  unfold table_of, unknown_opcode_line, _execute_instruction, _alu. intros Hnone.
  rewrite (bind_Ret _ _ s (ir s) s) by reflexivity.
  rewrite (bind_Ret _ _ s (ir s) s) by reflexivity.
  rewrite (bind_Ret _ _ s (ir s) s) by reflexivity.
  destruct (Py.truthy (Z.land 32 (ir s))).
  - rewrite Hnone. unfold bind, print.
    destruct (_trace _) as [[] s1|n s1|e s1]; reflexivity.
  - unfold bind, get_ir. rewrite Hnone. unfold bind, print.
    destruct (_trace _) as [[] s1|n s1|e s1]; reflexivity.
Qed.

(** X18. An opcode that is not a key of the table selected by its bit
    0x20 stops the machine: [_execute_instruction] prints "Unsupported
    ALU operation." (bit 0x20 set) or "Unknown instruction encountered."
    (bit clear), then the trace line, and exits with status 1; registers,
    memory, flags and [pc] are as before, [pc] is not advanced.  With
    [pc] at 254 or 255 the trace line cannot be formed: the diagnostic
    is printed and then [IndexError] is raised instead of the exit. *)
Theorem unknown_opcode_exits_1 (s : CPU) (b0 b1 b2 : Z) :
  well_shaped s ->
  dict_get (table_of (ir s)) (ir s) = None ->
  (0 <= pc s <= 253 ->
   ram s !! Z.to_nat (pc s) = Some b0 ->
   ram s !! Z.to_nat (pc s + 1) = Some b1 ->
   ram s !! Z.to_nat (pc s + 2) = Some b2 ->
   _execute_instruction s
   = Exit 1 (with_stdout
               (stdout s ++ unknown_opcode_line (ir s)
                ++ trace_text (pc s) b0 b1 b2 (reg s)) s)) /\
  (254 <= pc s <= 255 ->
   _execute_instruction s
   = Raise Py.IndexError (with_stdout (stdout s ++ unknown_opcode_line (ir s)) s)).
Proof.
  intros Hs Hnone. rewrite (execute_unknown s Hnone).
  set (s1 := with_stdout (stdout s ++ unknown_opcode_line (ir s)) s).
  split.
  - intros Hpc H0 H1 H2.
    rewrite (bind_Ret _ _ _ _ _ (trace_prints s1 b0 b1 b2 Hs Hpc H0 H1 H2)).
    unfold exit, s1, with_stdout; simpl. rewrite <- app_assoc. reflexivity.
  - intros Hpc. apply bind_Raise. exact (trace_faults s1 (proj1 Hs) Hpc).
Qed.

Lemma unknown_opcode_exits_1_witness :
  _execute_instruction (with_ir 0xFF init)
  = Exit 1 (with_stdout
              (Py.lit "Unsupported ALU operation." ++ newline
               ++ Py.lit "TRACE: 00 | 00 00 00 | 00 00 00 00 00 00 00 F4" ++ newline)
              (with_ir 0xFF init)) /\
  _execute_instruction (with_pc 0xFE (with_ir 0x03 init))
  = Raise Py.IndexError
      (with_stdout (Py.lit "Unknown instruction encountered." ++ newline)
         (with_pc 0xFE (with_ir 0x03 init))).
Proof.
  split.
  - exact (proj1 (unknown_opcode_exits_1 (with_ir 0xFF init) 0 0 0
                    (conj eq_refl eq_refl) eq_refl)
             ltac:(simpl; lia) eq_refl eq_refl eq_refl).
  - exact (proj2 (unknown_opcode_exits_1 (with_pc 0xFE (with_ir 0x03 init)) 0 0 0
                    (conj eq_refl eq_refl) eq_refl)
             ltac:(simpl; lia)).
Defined.

(** ** Which interrupt the scan services *)

Lemma land_low_nibble i masked :
  0 <= i <= 15 -> Z.land i masked = Z.land i (Z.land masked 15).
Proof.
  intros Hi. rewrite (Z.land_comm masked 15), Z.land_assoc. f_equal.
  change 15 with (Z.ones 4). rewrite Z.land_ones by lia.
  rewrite Z.mod_small; [reflexivity|]. change (2 ^ 4) with 16. lia.
Qed.

Lemma interrupt_loop_low_nibble masked (l : list Z) s :
  Forall (fun i => 0 <= i <= 15) l ->
  interrupt_loop masked l s = interrupt_loop (Z.land masked 15) l s.
Proof.
  induction 1 as [|i l Hi Hl IH]; [reflexivity|]. cbn [interrupt_loop].
  rewrite <- (land_low_nibble i masked Hi).
  destruct (Py.truthy (Z.land i masked)); [reflexivity | exact IH].
Qed.

Lemma low_nibble_range masked : 0 <= Z.land masked 15 <= 15.
Proof.
  change 15 with (Z.ones 4) at 1 2. rewrite Z.land_ones by lia.
  pose proof (Z.mod_pos_bound masked (2 ^ 4) ltac:(lia)) as H.
  change (2 ^ 4) with 16 in *. lia.
Qed.

Lemma in_range_16 v : 0 <= v <= 15 -> In v (Py.range 0 16).
Proof.
  unfold Py.range. intros H. apply in_map_iff. exists (Z.to_nat v).
  split; [lia|]. apply in_seq. lia.
Qed.

Lemma low_nibble_testbit masked j :
  0 <= j < 4 -> Z.testbit masked j = Z.testbit (Z.land masked 15) j.
Proof.
  intros Hj. rewrite Z.land_spec.
  assert (E : j = 0 \/ j = 1 \/ j = 2 \/ j = 3) by lia.
  destruct E as [-> | [-> | [-> | ->]]]; rewrite andb_true_r; reflexivity.
Qed.

(** X19. Which interrupt [_handle_interrupts] dispatches.  The loop
    tests [i & masked] for the loop index i = 1..8 itself, not for
    [1 << (i-1)], and leaves at the first hit.  So with
    [masked = reg[5] & reg[6]]: bit 0 set dispatches index 1; else bit 1
    set dispatches index 2; else bit 2 set dispatches index 4, which is
    handled as interrupt 3; else bit 3 set dispatches index 8, which is
    handled as interrupt 7; and with bits 0..3 all clear nothing is
    dispatched and the machine is unchanged, whatever bits 4..7 are. *)
Theorem interrupt_scan_dispatch (s : CPU) (im st : Z) :
  Py.getitem (reg s) imr = Some im ->
  Py.getitem (reg s) isr = Some st ->
  (Z.testbit (Z.land im st) 0 = true ->
   _handle_interrupts s = service_interrupt 1 s) /\
  (Z.testbit (Z.land im st) 0 = false -> Z.testbit (Z.land im st) 1 = true ->
   _handle_interrupts s = service_interrupt 2 s) /\
  (Z.testbit (Z.land im st) 0 = false -> Z.testbit (Z.land im st) 1 = false ->
   Z.testbit (Z.land im st) 2 = true ->
   _handle_interrupts s = service_interrupt 4 s) /\
  (Z.testbit (Z.land im st) 0 = false -> Z.testbit (Z.land im st) 1 = false ->
   Z.testbit (Z.land im st) 2 = false -> Z.testbit (Z.land im st) 3 = true ->
   _handle_interrupts s = service_interrupt 8 s) /\
  (Z.testbit (Z.land im st) 0 = false -> Z.testbit (Z.land im st) 1 = false ->
   Z.testbit (Z.land im st) 2 = false -> Z.testbit (Z.land im st) 3 = false ->
   _handle_interrupts s = Ret tt s).
Proof.
  intros Him Hst. unfold _handle_interrupts.
  rewrite (bind_Ret _ _ s im s) by (apply reg_get_Some; assumption).
  rewrite (bind_Ret _ _ s st s) by (apply reg_get_Some; assumption).
  change (Py.range 1 (Z.of_nat (length ivt) + 1)) with [1; 2; 3; 4; 5; 6; 7; 8].
  rewrite interrupt_loop_low_nibble
    by (repeat (apply List.Forall_cons; [lia|]); apply List.Forall_nil).
  rewrite (low_nibble_testbit (Z.land im st) 0), (low_nibble_testbit (Z.land im st) 1),
    (low_nibble_testbit (Z.land im st) 2), (low_nibble_testbit (Z.land im st) 3) by lia.
  pose proof (low_nibble_range (Z.land im st)) as Hn.
  set (n := Z.land (Z.land im st) 15) in *.
  pose proof (in_range_16 n Hn) as E. clearbody n.
  change (Py.range 0 16)
    with [0; 1; 2; 3; 4; 5; 6; 7; 8; 9; 10; 11; 12; 13; 14; 15] in E.
  cbn [In] in E.
  repeat (destruct E as [<- | E]); [..|contradiction];
    (split; [|split; [|split; [|split]]]); cbn [Z.testbit Pos.testbit Z.odd Z.to_N];
    intros; try discriminate; reflexivity.
Qed.

Lemma interrupt_scan_dispatch_witness :
  _handle_interrupts irq2_pending = service_interrupt 4 irq2_pending /\
  _handle_interrupts irq4_pending = Ret tt irq4_pending.
Proof.
  split.
  - exact (proj1 (proj2 (proj2 (interrupt_scan_dispatch irq2_pending 4 4 eq_refl eq_refl)))
             eq_refl eq_refl eq_refl).
  - exact (proj2 (proj2 (proj2 (proj2
             (interrupt_scan_dispatch irq4_pending 16 16 eq_refl eq_refl))))
             eq_refl eq_refl eq_refl eq_refl).
Defined.

(** ** The frame an interrupt dispatch pushes *)

Lemma sp_down_iter_mod (n : nat) sp :
  byte sp -> Nat.iter n sp_down sp = (sp - Z.of_nat n) mod 256.
Proof.
  intros H. induction n as [|n IH].
  - simpl. rewrite Z.sub_0_r, Z.mod_small; unfold byte in H; lia.
  - rewrite Nat.iter_succ, IH. unfold sp_down.
    replace (sp - Z.of_nat (S n)) with ((sp - Z.of_nat n) - 1) by lia.
    rewrite <- (Zminus_mod_idemp_l (sp - Z.of_nat n) 1 256).
    pose proof (Z.mod_pos_bound (sp - Z.of_nat n) 256 ltac:(lia)) as Hb.
    destruct (Z.eqb_spec ((sp - Z.of_nat n) mod 256) 0) as [E|E].
    + rewrite E. reflexivity.
    + rewrite (Z.mod_small ((sp - Z.of_nat n) mod 256 - 1)) by lia. reflexivity.
Qed.

Lemma PUSH_value_exact p i f (m : list Z) r0 r1 r2 r3 r4 r5 r6 sp ie o v :
  length m = 256%nat -> byte sp ->
  _PUSH None (Some v) (mkCPU p i f m [r0; r1; r2; r3; r4; r5; r6; sp] ie o)
  = Ret tt (mkCPU p i f (<[Z.to_nat (sp_down sp) := v]> m)
              [r0; r1; r2; r3; r4; r5; r6; sp_down sp] ie o).
Proof.
  intros Hl Hsp. pose proof (sp_down_byte sp Hsp) as Hd.
  unfold _PUSH.
  erewrite (bind_Ret (reg_get spr)) by reflexivity.
  assert (Hdec : (if sp =? 0 then reg_set spr 0xFF
                  else do sp' <- reg_get spr; reg_set spr (sp' - 1))
                   (mkCPU p i f m [r0; r1; r2; r3; r4; r5; r6; sp] ie o)
                 = Ret tt (mkCPU p i f m [r0; r1; r2; r3; r4; r5; r6; sp_down sp] ie o)).
  { unfold sp_down. destruct (sp =? 0); reflexivity. }
  rewrite (bind_Ret _ _ _ _ _ Hdec).
  erewrite (bind_Ret (reg_get spr)) by reflexivity.
  apply ram_set_byte_index; assumption.
Qed.

Lemma push_cells_length (vs : list Z) :
  forall (m : list Z) sp, length (push_cells m sp vs) = length m.
Proof.
  induction vs as [|v vs IH]; intros m sp; simpl; [reflexivity|].
  rewrite IH, length_insert. reflexivity.
Qed.

Lemma push_cells_outside (vs : list Z) :
  forall (m : list Z) sp (a : nat),
    (forall j : nat, (1 <= j <= length vs)%nat -> a <> Z.to_nat (Nat.iter j sp_down sp)) ->
    push_cells m sp vs !! a = m !! a.
Proof.
  induction vs as [|v vs IH]; intros m sp a Hout; simpl; [reflexivity|].
  rewrite IH.
  - apply list_lookup_insert_ne. intros E. apply (Hout 1%nat); [simpl; lia|].
    symmetry. exact E.
  - intros j Hj. specialize (Hout (S j) ltac:(simpl; lia)).
    rewrite Nat.iter_succ_r in Hout. exact Hout.
Qed.

Lemma push_cells_app (vs : list Z) :
  forall (m : list Z) sp v,
    push_cells m sp (vs ++ [v])
    = <[Z.to_nat (Nat.iter (S (length vs)) sp_down sp) := v]> (push_cells m sp vs).
Proof.
  induction vs as [|x vs IH]; intros m sp v; [reflexivity|].
  cbn [app push_cells length]. rewrite IH.
  rewrite (Nat.iter_succ_r (S (length vs))). reflexivity.
Qed.

Lemma service_interrupt_exact p i f (m : list Z) r0 r1 r2 r3 r4 r5 r6 sp ie o k h :
  length m = 256%nat -> byte sp -> 1 <= k <= 8 ->
  let cleared := Z.land r6 (Z.lnot (Z.shiftl 1 (k - 1))) in
  let m' := push_cells m sp [p; f; r0; r1; r2; r3; r4; r5; cleared] in
  m' !! Z.to_nat (0xF8 + (k - 1)) = Some h ->
  service_interrupt k (mkCPU p i f m [r0; r1; r2; r3; r4; r5; r6; sp] ie o)
  = Ret tt (mkCPU h i f m' [r0; r1; r2; r3; r4; r5; cleared; Nat.iter 9 sp_down sp]
              false o).
Proof.
  intros Hl Hsp Hk cleared m' Hh.
  assert (Hcl : unset_nth_bit r6 (k - 1) = Some cleared).
  { unfold unset_nth_bit, Py.lshift. destruct (Z.ltb_spec (k - 1) 0); [lia | reflexivity]. }
  unfold service_interrupt.
  erewrite (bind_Ret (set_interrupts_enabled false)) by reflexivity.
  erewrite (bind_Ret (reg_get isr)) by reflexivity.
  rewrite Hcl.
  erewrite (bind_Ret (lift _ _)) by reflexivity.
  erewrite (bind_Ret (reg_set isr cleared)) by reflexivity.
  erewrite (bind_Ret get_pc) by reflexivity.
  norm_state.
  rewrite (bind_Ret _ _ _ _ _ (PUSH_value_exact _ _ _ _ _ _ _ _ _ _ _ _ _ _ _ Hl Hsp)).
  erewrite (bind_Ret get_fl) by reflexivity.
  change (Py.range 0 7) with [0; 1; 2; 3; 4; 5; 6]. cbv [for_each].
  repeat (rewrite ?bind_assoc;
          try (erewrite (bind_Ret (reg_get _)) by reflexivity);
          match goal with
          | |- context [bind (_PUSH None (Some ?v)) _
                          (mkCPU _ _ _ ?mm [_; _; _; _; _; _; _; ?q] _ _)] =>
              rewrite (bind_Ret _ _ _ _ _
                         (PUSH_value_exact _ _ _ mm _ _ _ _ _ _ _ q _ _ v
                            ltac:(rewrite ?length_insert; exact Hl)
                            ltac:(repeat apply sp_down_byte; exact Hsp)))
          end).
  erewrite (bind_Ret (pure tt)) by reflexivity.
  rewrite (ivt_entry k Hk).
  erewrite (bind_Ret (lift _ _)) by reflexivity.
  erewrite (bind_Ret (ram_get _))
    by (apply ram_get_Some; cbv [ram]; rewrite getitem_nonneg
          by (rewrite ?length_insert; lia); exact Hh).
  reflexivity.
Qed.

(** X20. The frame of an interrupt dispatch.  In a machine of 256 cells
    with SP in [0, 255], servicing loop index k (1..8) returns with
    interrupts disabled, bit k-1 of IS cleared, SP lowered by nine modulo
    256, and [pc] loaded from the vector cell 0xF8 + (k-1) as memory is
    after the pushes.  From the new SP upwards the stack holds IS (already
    cleared), R5, R4, R3, R2, R1, R0, [fl], [pc]; R7 is not saved.  Every
    cell other than the nine below the old SP is as before; [ir], [fl],
    R0..R5 and standard output are untouched. *)
Theorem interrupt_dispatch_frame p i f (m : list Z) r0 r1 r2 r3 r4 r5 r6 sp ie o k :
  length m = 256%nat -> byte sp -> 1 <= k <= 8 ->
  exists m' h,
    service_interrupt k (mkCPU p i f m [r0; r1; r2; r3; r4; r5; r6; sp] ie o)
    = Ret tt (mkCPU h i f m'
                [r0; r1; r2; r3; r4; r5; Z.land r6 (Z.lnot (Z.shiftl 1 (k - 1)));
                 (sp - 9) mod 256] false o) /\
    length m' = 256%nat /\
    stacked m' ((sp - 9) mod 256)
      [Z.land r6 (Z.lnot (Z.shiftl 1 (k - 1))); r5; r4; r3; r2; r1; r0; f; p] /\
    m' !! Z.to_nat (0xF8 + (k - 1)) = Some h /\
    (forall a : nat,
       (forall j, 1 <= j <= 9 -> a <> Z.to_nat ((sp - j) mod 256)) ->
       m' !! a = m !! a).
Proof.
  intros Hl Hsp Hk.
  set (cleared := Z.land r6 (Z.lnot (Z.shiftl 1 (k - 1)))).
  set (m' := push_cells m sp [p; f; r0; r1; r2; r3; r4; r5; cleared]).
  assert (Hl' : length m' = 256%nat) by (unfold m'; rewrite push_cells_length; exact Hl).
  destruct (lookup_lt_is_Some_2 m' (Z.to_nat (0xF8 + (k - 1)))) as [h Hh]; [lia|].
  pose proof (service_interrupt_exact p i f m r0 r1 r2 r3 r4 r5 r6 sp ie o k h
                Hl Hsp Hk Hh) as Hexact.
  destruct (service_interrupt_spec p i f m r0 r1 r2 r3 r4 r5 r6 sp ie o k Hl Hsp Hk)
    as (m0 & h0 & c0 & Hspec & _ & _ & Hst & _ & _).
  rewrite Hexact in Hspec.
  injection Hspec; clear Hspec; intros; subst m0 c0.
  change 9 with (Z.of_nat 9). rewrite <- (sp_down_iter_mod 9 sp Hsp).
  exists m', h. split; [exact Hexact|]. split; [exact Hl'|].
  split; [exact Hst|]. split; [exact Hh|].
  intros a Ha. unfold m'. apply push_cells_outside.
  intros j Hj. rewrite sp_down_iter_mod by exact Hsp.
  apply Ha. cbn [length] in Hj. lia.
Qed.

Lemma interrupt_dispatch_frame_witness :
  exists m' h,
    service_interrupt 1
      (mkCPU 0x10 0 0 (<[0xF8%nat := 0x40]> (replicate 256 0)) [1; 2; 3; 4; 5; 1; 1; 0xF4]
         true [])
    = Ret tt (mkCPU h 0 0 m' [1; 2; 3; 4; 5; 1; 0; 0xEB] false []) /\
    length m' = 256%nat /\
    stacked m' 0xEB [0; 1; 5; 4; 3; 2; 1; 0; 0x10] /\
    m' !! 0xF8%nat = Some h /\
    (forall a : nat,
       (forall j, 1 <= j <= 9 -> a <> Z.to_nat ((0xF4 - j) mod 256)) ->
       m' !! a = (<[0xF8%nat := 0x40]> (replicate 256 0)) !! a).
Proof.
  exact (interrupt_dispatch_frame 0x10 0 0 (<[0xF8%nat := 0x40]> (replicate 256 0))
           1 2 3 4 5 1 1 0xF4 true [] 1
           eq_refl ltac:(unfold byte; lia) ltac:(lia)).
Defined.

(** ** Raising an interrupt *)

(** X21. The bit helpers.  For a bit number n >= 0, [set_nth_bit b n]
    is b with bit n set and every other bit as in b, and
    [unset_nth_bit b n] is b with bit n cleared and every other bit as in
    b; clearing after setting gives what clearing alone gives, which is b
    itself when bit n of b was clear.  For n < 0 both raise [ValueError]
    (negative shift count).  The operand is not reduced to a byte: n = 8
    on a byte gives a value above 255. *)
Theorem bit_helpers_set_and_clear (b n : Z) :
  (0 <= n ->
   exists b1 b0,
     set_nth_bit b n = Some b1 /\ unset_nth_bit b n = Some b0 /\
     (forall j, 0 <= j -> Z.testbit b1 j = (j =? n) || Z.testbit b j) /\
     (forall j, 0 <= j -> Z.testbit b0 j = negb (j =? n) && Z.testbit b j) /\
     unset_nth_bit b1 n = Some b0 /\
     set_nth_bit b0 n = Some b1 /\
     (Z.testbit b n = false -> b0 = b) /\
     (byte b -> 8 <= n -> 255 < b1)) /\
  (n < 0 -> set_nth_bit b n = None /\ unset_nth_bit b n = None).
Proof.
  split.
  - intros Hn. exists (Z.lor b (Z.shiftl 1 n)), (Z.land b (Z.lnot (Z.shiftl 1 n))).
    assert (Hset : forall j, 0 <= j ->
              Z.testbit (Z.lor b (Z.shiftl 1 n)) j = (j =? n) || Z.testbit b j).
    { intros j Hj. rewrite Z.lor_spec, testbit_one_shifted by assumption.
      apply orb_comm. }
    assert (Hclr : forall j, 0 <= j ->
              Z.testbit (Z.land b (Z.lnot (Z.shiftl 1 n))) j
              = negb (j =? n) && Z.testbit b j).
    { intros j Hj. rewrite Z.land_spec, Z.lnot_spec, testbit_one_shifted by assumption.
      apply andb_comm. }
    split; [apply set_nth_bit_nonneg; assumption|].
    split; [apply unset_nth_bit_nonneg; assumption|].
    split; [exact Hset|]. split; [exact Hclr|].
    split; [|split; [|split]].
    + rewrite unset_nth_bit_nonneg by assumption. f_equal.
      apply Z.bits_inj'. intros j Hj.
      rewrite Z.land_spec, Z.lnot_spec, testbit_one_shifted, Hset, Hclr by assumption.
      destruct (j =? n), (Z.testbit b j); reflexivity.
    + rewrite set_nth_bit_nonneg by assumption. f_equal.
      apply Z.bits_inj'. intros j Hj.
      rewrite Z.lor_spec, testbit_one_shifted, Hset, Hclr by assumption.
      destruct (j =? n), (Z.testbit b j); reflexivity.
    + intros Hb. apply Z.bits_inj'. intros j Hj. rewrite Hclr by assumption.
      destruct (Z.eqb_spec j n) as [->|Hne]; [rewrite Hb|]; reflexivity.
    + intros Hb Hn8.
      assert (H1 : 2 ^ 8 <= 2 ^ n) by (apply Z.pow_le_mono_r; lia).
      change (2 ^ 8) with 256 in H1.
      set (b1 := Z.lor b (Z.shiftl 1 n)) in *.
      assert (Hbit : Z.testbit b1 n = true)
        by (rewrite Hset, Z.eqb_refl by assumption; reflexivity).
      assert (Hpos : 0 <= b1).
      { apply Z.lor_nonneg. split; [unfold byte in Hb; lia|].
        apply Z.shiftl_nonneg. lia. }
      destruct (Z_lt_le_dec b1 (2 ^ n)) as [Hlt|Hge]; [exfalso | lia].
      destruct (Z.eq_dec b1 0) as [E0|E0].
      * rewrite E0, Z.bits_0 in Hbit. discriminate.
      * rewrite Z.bits_above_log2 in Hbit; [discriminate | assumption |].
        apply Z.log2_lt_pow2; lia.
  - intros Hn. unfold set_nth_bit, unset_nth_bit, Py.lshift.
    destruct (Z.ltb_spec n 0); [split; reflexivity | lia].
Qed.

Lemma bit_helpers_set_and_clear_witness :
  set_nth_bit 0x05 1 = Some 0x07 /\ unset_nth_bit 0x05 0 = Some 0x04 /\
  set_nth_bit 0x05 (-1) = None.
Proof.
  destruct (bit_helpers_set_and_clear 0x05 (-1)) as [_ Hneg].
  split; [reflexivity|]. split; [reflexivity|].
  exact (proj1 (Hneg ltac:(lia))).
Defined.

Lemma raise_interrupt_nonneg (s : CPU) (st i : Z) :
  length (reg s) = 8%nat -> reg s !! 6%nat = Some st -> 0 <= i ->
  raise_interrupt i s
  = Ret tt (with_reg (<[6%nat := Z.lor st (Z.shiftl 1 i)]> (reg s)) s).
Proof.
  intros Hl Hst Hi. unfold raise_interrupt.
  assert (Hslot : reg_slot s isr = Some 6%nat)
    by exact (reg_slot_byte_register s 6 Hl ltac:(lia)).
  rewrite (bind_Ret _ _ _ _ _ (reg_get_slot _ _ _ _ Hslot Hst)).
  rewrite (set_nth_bit_nonneg st i Hi).
  erewrite (bind_Ret (lift _ _)) by reflexivity.
  exact (reg_set_slot s isr 6%nat _ Hslot).
Qed.

(** X22. Raising an interrupt and its delivery.  In a machine with 8
    registers, [raise_interrupt i] for i >= 0 ors [1 << i] into IS
    ([reg[6]]) and changes nothing else; raising the same interrupt again
    changes nothing more; for i < 0 it raises [ValueError] and the machine
    is unchanged.  The timer's [raise_interrupt(0)] followed by the scan
    of the next iteration dispatches loop index 1 whenever bit 0 of IM is
    set, whatever else is pending; the keyboard's [raise_interrupt(1)]
    dispatches loop index 2 when bit 1 of IM is set and the timer is not
    both pending and enabled. *)
Theorem raise_interrupt_then_scan (s : CPU) (im st i : Z) :
  length (reg s) = 8%nat ->
  reg s !! 5%nat = Some im -> reg s !! 6%nat = Some st ->
  (0 <= i ->
   raise_interrupt i s
   = Ret tt (with_reg (<[6%nat := Z.lor st (Z.shiftl 1 i)]> (reg s)) s) /\
   (do _ <- raise_interrupt i; raise_interrupt i) s = raise_interrupt i s) /\
  (i < 0 -> raise_interrupt i s = Raise Py.ValueError s) /\
  (Z.testbit im 0 = true ->
   (do _ <- raise_interrupt 0; _handle_interrupts) s
   = service_interrupt 1 (with_reg (<[6%nat := Z.lor st 1]> (reg s)) s)) /\
  (Z.testbit im 1 = true -> Z.testbit (Z.land im st) 0 = false ->
   (do _ <- raise_interrupt 1; _handle_interrupts) s
   = service_interrupt 2 (with_reg (<[6%nat := Z.lor st 2]> (reg s)) s)).
Proof.
  intros Hl Him Hst.
  assert (Hscan : forall j,
            0 <= j ->
            let s1 := with_reg (<[6%nat := Z.lor st (Z.shiftl 1 j)]> (reg s)) s in
            Py.getitem (reg s1) imr = Some im /\
            Py.getitem (reg s1) isr = Some (Z.lor st (Z.shiftl 1 j))).
  { intros j Hj s1. unfold s1, imr, isr. simpl.
    rewrite !getitem_nonneg by (rewrite length_insert; lia). split.
    - rewrite list_lookup_insert_ne by lia. exact Him.
    - apply list_lookup_insert_eq. lia. }
  split; [|split; [|split]].
  - intros Hi. pose proof (raise_interrupt_nonneg s st i Hl Hst Hi) as H1.
    split; [exact H1|].
    rewrite (bind_Ret _ _ _ _ _ H1), H1.
    rewrite (raise_interrupt_nonneg _ (Z.lor st (Z.shiftl 1 i)) i);
      [| simpl; rewrite length_insert; exact Hl
       | simpl; apply list_lookup_insert_eq; lia | exact Hi].
    simpl. rewrite list_insert_insert_same.
    rewrite <- Z.lor_assoc, Z.lor_diag. reflexivity.
  - intros Hi. unfold raise_interrupt.
    assert (Hslot : reg_slot s isr = Some 6%nat)
      by exact (reg_slot_byte_register s 6 Hl ltac:(lia)).
    rewrite (bind_Ret _ _ _ _ _ (reg_get_slot _ _ _ _ Hslot Hst)).
    unfold set_nth_bit, Py.lshift. destruct (Z.ltb_spec i 0); [reflexivity | lia].
  - intros Hb.
    rewrite (bind_Ret _ _ _ _ _ (raise_interrupt_nonneg s st 0 Hl Hst ltac:(lia))).
    destruct (Hscan 0 ltac:(lia)) as [Him1 Hst1].
    apply (proj1 (handle_interrupts_services_bits_0_and_1 _ im _ Him1 Hst1)).
    rewrite Z.land_spec, Z.lor_spec, Hb. rewrite orb_true_r. reflexivity.
  - intros Hb Hb0.
    rewrite (bind_Ret _ _ _ _ _ (raise_interrupt_nonneg s st 1 Hl Hst ltac:(lia))).
    destruct (Hscan 1 ltac:(lia)) as [Him1 Hst1].
    apply (proj2 (handle_interrupts_services_bits_0_and_1 _ im _ Him1 Hst1)).
    + rewrite Z.land_spec in Hb0 |- *. rewrite Z.lor_spec.
      change (Z.testbit (Z.shiftl 1 1) 0) with false. rewrite orb_false_r. exact Hb0.
    + rewrite Z.land_spec, Z.lor_spec, Hb. rewrite orb_true_r. reflexivity.
Qed.

Lemma raise_interrupt_then_scan_witness :
  (do _ <- raise_interrupt 0; _handle_interrupts)
    (cpu_with_regs [0; 0; 0; 0; 0; 1; 0; 0xF4])
  = service_interrupt 1 (cpu_with_regs [0; 0; 0; 0; 0; 1; 1; 0xF4]).
Proof.
  exact (proj1 (proj2 (proj2
           (raise_interrupt_then_scan (cpu_with_regs [0; 0; 0; 0; 0; 1; 0; 0xF4]) 1 0 0
              eq_refl eq_refl eq_refl))) eq_refl).
Defined.

(** ** Printing *)

Lemma chr_byte v : byte v -> Py.chr v = Some [v].
Proof.
  unfold byte, Py.chr. intros H.
  destruct (Z.leb_spec 0 v); [|lia]. destruct (Z.ltb_spec v 0x110000); [reflexivity | lia].
Qed.

Lemma encodable_bytes (t : Py.str) : Forall byte t -> Py.encodable t = true.
Proof.
  unfold Py.encodable. induction 1 as [|c t Hc Ht IH]; [reflexivity|].
  cbn [forallb]. rewrite IH, andb_true_r. unfold Py.surrogate, byte in *.
  destruct (Z.leb_spec 0xD800 c); [lia | reflexivity].
Qed.

Lemma range_as_offsets a b :
  Py.range a b = map (fun k => a + Z.of_nat k) (seq 0 (Z.to_nat (b - a))).
Proof. reflexivity. Qed.

Lemma offsets_succ a (n : nat) :
  map (fun k => a + Z.of_nat k) (seq 0 (S n))
  = a :: map (fun k => (a + 1) + Z.of_nat k) (seq 0 n).
Proof.
  cbn [seq map]. rewrite Z.add_0_r. f_equal.
  rewrite <- seq_shift, map_map. apply map_ext. intros k. lia.
Qed.

Lemma prm_loop_in_range (s : CPU) (n : nat) :
  forall a acc,
    length (ram s) = 256%nat -> Forall byte (ram s) ->
    0 <= a -> a + Z.of_nat n <= 256 ->
    prm_loop (map (fun k => a + Z.of_nat k) (seq 0 n)) acc s
    = Ret (acc ++ take n (drop (Z.to_nat a) (ram s))) s.
Proof.
  induction n as [|n IH]; intros a acc Hl Hm Ha Hn.
  - simpl. rewrite app_nil_r. reflexivity.
  - rewrite offsets_succ. cbn [prm_loop].
    destruct (lookup_lt_is_Some_2 (ram s) (Z.to_nat a)) as [x Hx]; [lia|].
    assert (Hbx : byte x) by exact (proj1 (Forall_lookup byte (ram s)) Hm _ _ Hx).
    rewrite (bind_Ret _ _ s x s)
      by (apply ram_get_Some; rewrite getitem_nonneg by lia; exact Hx).
    rewrite (chr_byte x Hbx).
    erewrite (bind_Ret (lift _ _)) by reflexivity.
    rewrite IH by (assumption || lia).
    rewrite (drop_S _ _ _ Hx). cbn [take].
    replace (Z.to_nat (a + 1)) with (S (Z.to_nat a)) by lia.
    rewrite <- app_assoc. reflexivity.
Qed.

Lemma prm_loop_past_end (s : CPU) (n : nat) :
  forall a acc,
    length (ram s) = 256%nat -> Forall byte (ram s) ->
    0 <= a <= 256 -> 256 < a + Z.of_nat n ->
    prm_loop (map (fun k => a + Z.of_nat k) (seq 0 n)) acc s = Raise Py.IndexError s.
Proof.
  induction n as [|n IH]; intros a acc Hl Hm Ha Hn; [simpl in Hn; lia|].
  rewrite offsets_succ. cbn [prm_loop].
  destruct (Z.eq_dec a 256) as [->|Hne].
  - apply bind_Raise, ram_get_None, getitem_out. lia.
  - destruct (lookup_lt_is_Some_2 (ram s) (Z.to_nat a)) as [x Hx]; [lia|].
    assert (Hbx : byte x) by exact (proj1 (Forall_lookup byte (ram s)) Hm _ _ Hx).
    rewrite (bind_Ret _ _ s x s)
      by (apply ram_get_Some; rewrite getitem_nonneg by lia; exact Hx).
    rewrite (chr_byte x Hbx).
    erewrite (bind_Ret (lift _ _)) by reflexivity.
    apply IH; (assumption || lia).
Qed.

(** X23. PRM on an ascending range.  In a machine of 256 byte cells
    with [reg[ra] = a] in [0, 255] and [reg[rb] = b >= a]: if [b <= 255],
    PRM prints the cells [ram[a..b]], both ends included, as one line and
    changes nothing else; if [b >= 256], the loop runs past the end of
    memory, PRM raises [IndexError], and nothing at all has been printed,
    because the line is printed only after the loop. *)
Theorem PRM_prints_range (s : CPU) (ra rb a b : Z) :
  length (ram s) = 256%nat -> Forall byte (ram s) ->
  Py.getitem (reg s) ra = Some a ->
  Py.getitem (reg s) rb = Some b ->
  byte a -> a <= b ->
  (b <= 255 ->
   _PRM ra rb s
   = Ret tt (with_stdout
               (stdout s ++ take (Z.to_nat (b + 1 - a)) (drop (Z.to_nat a) (ram s))
                ++ newline) s) /\
   length (take (Z.to_nat (b + 1 - a)) (drop (Z.to_nat a) (ram s)))
   = Z.to_nat (b + 1 - a)) /\
  (256 <= b -> _PRM ra rb s = Raise Py.IndexError s).
Proof.
  intros Hl Hm Ha Hb Hba Hab. unfold byte in Hba. unfold _PRM.
  rewrite (bind_Ret _ _ s a s) by (apply reg_get_Some; assumption).
  rewrite (bind_Ret _ _ s b s) by (apply reg_get_Some; assumption).
  rewrite range_as_offsets. split.
  - intros Hb255. split.
    + rewrite (bind_Ret _ _ _ _ _
                 (prm_loop_in_range s (Z.to_nat (b + 1 - a)) a [] Hl Hm
                    ltac:(lia) ltac:(lia))).
      cbn [app]. rewrite encodable_bytes; [reflexivity|].
      apply Forall_take, Forall_drop. exact Hm.
    + rewrite length_take, length_drop. lia.
  - intros Hb256. apply bind_Raise.
    apply prm_loop_past_end; (assumption || lia).
Qed.

Lemma PRM_prints_range_witness :
  _PRM 0 1 (with_ram (<[0x10%nat := 0x48]> (<[0x11%nat := 0x69]> (replicate 256 0)))
              (cpu_with_regs [0x10; 0x11; 0; 0; 0; 0; 0; 0xF4]))
  = Ret tt (with_stdout (Py.lit "Hi" ++ newline)
              (with_ram (<[0x10%nat := 0x48]> (<[0x11%nat := 0x69]> (replicate 256 0)))
                 (cpu_with_regs [0x10; 0x11; 0; 0; 0; 0; 0; 0xF4]))).
Proof.
  pose proof (PRM_prints_range
                (with_ram (<[0x10%nat := 0x48]> (<[0x11%nat := 0x69]> (replicate 256 0)))
                   (cpu_with_regs [0x10; 0x11; 0; 0; 0; 0; 0; 0xF4]))
                0 1 0x10 0x11 eq_refl
                ltac:(apply forallb_is_byte; vm_compute; reflexivity)
                eq_refl eq_refl ltac:(unfold byte; lia) ltac:(lia)) as [H _].
  exact (proj1 (H ltac:(lia))).
Defined.

Lemma read_digits_dec_digits (d : Decimal.uint) :
  forall acc, read_digits (Py.dec_digits d) acc = Some (uint_value d acc).
Proof.
  induction d; intros acc; cbn [Py.dec_digits read_digits uint_value];
    try reflexivity; exact (IHd _).
Qed.

Lemma uint_value_acc (d : Decimal.uint) :
  forall p, Z.pos (Pos.of_uint_acc d p) = uint_value d (Z.pos p).
Proof.
  induction d; intros p; cbn [Pos.of_uint_acc uint_value];
    try reflexivity; rewrite IHd; f_equal; lia.
Qed.

Lemma uint_value_of_uint (d : Decimal.uint) : Z.of_N (Pos.of_uint d) = uint_value d 0.
Proof.
  induction d; cbn [Pos.of_uint uint_value]; try reflexivity;
    try exact IHd; cbn [Z.of_N]; rewrite uint_value_acc; reflexivity.
Qed.

Lemma dec_digits_head (d : Decimal.uint) :
  d <> Decimal.Nil ->
  exists c rest, Py.dec_digits d = c :: rest /\ (c =? 45) = false.
Proof.
  destruct d; intros Hne; try congruence; cbn [Py.dec_digits];
    eexists; eexists; (split; [reflexivity | reflexivity]).
Qed.

Lemma int_of_str_str_of_int v : int_of_str (Py.str_of_int v) = Some v.
Proof.
  unfold Py.str_of_int. destruct v as [|p|p]; cbn [Z.to_int].
  - reflexivity.
  - destruct (dec_digits_head _ (DecimalPos.Unsigned.to_uint_nonnil p))
      as (c & rest & E & Hc).
    unfold int_of_str. rewrite E, Hc, <- E.
    rewrite read_digits_dec_digits, <- uint_value_of_uint.
    rewrite DecimalPos.Unsigned.of_to. reflexivity.
  - destruct (dec_digits_head _ (DecimalPos.Unsigned.to_uint_nonnil p))
      as (c & rest & E & Hc).
    unfold int_of_str. rewrite Z.eqb_refl, E, <- E.
    rewrite read_digits_dec_digits, <- uint_value_of_uint.
    rewrite DecimalPos.Unsigned.of_to. reflexivity.
Qed.

Lemma digit_count_bytes_checked :
  forallb (fun v => Nat.leb (Py.digit_count v) 3) (Py.range 0 256) = true.
Proof. vm_compute. reflexivity. Qed.

Lemma digit_count_byte v : byte v -> (Py.digit_count v <= 3)%nat.
Proof.
  intros H. apply Nat.leb_le.
  exact (proj1 (forallb_forall _ _) digit_count_bytes_checked v (in_range_256 v H)).
Qed.

Lemma str_int_within v :
  (Py.digit_count v <= Py.int_max_str_digits)%nat -> Py.str_int v = Some (Py.str_of_int v).
Proof.
  intros H. unfold Py.str_int.
  destruct (Nat.ltb_spec Py.int_max_str_digits (Py.digit_count v)); [lia | reflexivity].
Qed.

Lemma str_int_beyond v :
  (Py.int_max_str_digits < Py.digit_count v)%nat -> Py.str_int v = None.
Proof.
  intros H. unfold Py.str_int.
  destruct (Nat.ltb_spec Py.int_max_str_digits (Py.digit_count v)); [reflexivity | lia].
Qed.



(** ** Loading a program *)

Lemma with_ram_same s : with_ram (ram s) s = s.
Proof. destruct s. reflexivity. Qed.

Lemma with_ram_with_ram l l' s : with_ram l' (with_ram l s) = with_ram l' s.
Proof. reflexivity. Qed.

Lemma load_from_fits (program : list Z) :
  forall (a : nat) s,
    length (ram s) = 256%nat -> (a + length program <= 256)%nat ->
    load_from (Z.of_nat a) program s
    = Ret tt (with_ram (take a (ram s) ++ program ++ drop (a + length program) (ram s)) s).
Proof.
  induction program as [|x rest IH]; intros a s Hl Hn.
  - cbn [load_from length app]. rewrite Nat.add_0_r, take_drop, with_ram_same.
    reflexivity.
  - cbn [load_from length] in *.
    rewrite (bind_Ret _ _ _ _ _
               (ram_set_byte_address s (Z.of_nat a) x Hl ltac:(unfold byte; lia))).
    rewrite Nat2Z.id.
    replace (Z.of_nat a + 1) with (Z.of_nat (S a)) by lia.
    rewrite IH by (simpl; rewrite ?length_insert; lia).
    rewrite with_ram_with_ram. f_equal. f_equal. cbn [ram with_ram].
    assert (Hx : (<[a := x]> (ram s)) !! a = Some x)
      by (apply list_lookup_insert_eq; lia).
    rewrite (take_S_r _ _ _ Hx), take_insert_ge by lia.
    rewrite drop_insert_lt by lia.
    rewrite <- app_assoc. cbn [app].
    replace (S a + length rest)%nat with (a + S (length rest))%nat by lia.
    reflexivity.
Qed.

Lemma load_from_overflows (program : list Z) :
  forall (a : nat) s,
    length (ram s) = 256%nat -> (a <= 256)%nat -> (256 < a + length program)%nat ->
    load_from (Z.of_nat a) program s
    = Raise Py.IndexError (with_ram (take a (ram s) ++ take (256 - a) program) s).
Proof.
  induction program as [|x rest IH]; intros a s Hl Ha Hn; [simpl in Hn; lia|].
  cbn [load_from length] in *.
  destruct (Nat.eq_dec a 256%nat) as [-> | Hne].
  - cbn [take Nat.sub]. rewrite app_nil_r, take_ge by lia. rewrite with_ram_same.
    apply bind_Raise. unfold ram_set, Py.setitem.
    rewrite py_index_out by lia. reflexivity.
  - rewrite (bind_Ret _ _ _ _ _
               (ram_set_byte_address s (Z.of_nat a) x Hl ltac:(unfold byte; lia))).
    rewrite Nat2Z.id.
    replace (Z.of_nat a + 1) with (Z.of_nat (S a)) by lia.
    rewrite IH by (simpl; rewrite ?length_insert; lia).
    rewrite with_ram_with_ram. f_equal. f_equal. cbn [ram with_ram].
    assert (Hx : (<[a := x]> (ram s)) !! a = Some x)
      by (apply list_lookup_insert_eq; lia).
    rewrite (take_S_r _ _ _ Hx), take_insert_ge by lia.
    rewrite <- app_assoc. cbn [app].
    replace (256 - a)%nat with (S (256 - S a)) by lia.
    reflexivity.
Qed.

(** X25. Loading.  Given the instruction values read from the program
    file, in order, [load] stores them at addresses 0, 1, 2, ... of a
    256-cell memory and changes nothing else: a program of at most 256
    values replaces that many leading cells and leaves the rest, so the
    stack area and the vector table are overwritten by a long program; a
    program of more than 256 values raises [IndexError] after its first
    256 values have filled the whole memory.  The values are stored as
    given, without masking. *)
Theorem load_stores_from_address_0 (s : CPU) (program : list Z) :
  length (ram s) = 256%nat ->
  ((length program <= 256)%nat ->
   load program s = Ret tt (with_ram (program ++ drop (length program) (ram s)) s)) /\
  ((256 < length program)%nat ->
   load program s = Raise Py.IndexError (with_ram (take 256 program) s)).
Proof.
  intros Hl. unfold load. split; intros Hn.
  - exact (load_from_fits program 0 s Hl Hn).
  - exact (load_from_overflows program 0 s Hl ltac:(lia) Hn).
Qed.

Lemma load_stores_from_address_0_witness :
  load [0x82; 0x00; 0x08; 0x47; 0x00; 0x01] init
  = Ret tt (with_ram ([0x82; 0x00; 0x08; 0x47; 0x00; 0x01] ++ replicate 250 0) init).
Proof.
  exact (proj1 (load_stores_from_address_0 init [0x82; 0x00; 0x08; 0x47; 0x00; 0x01]
                  eq_refl) ltac:(simpl; lia)).
Defined.

(** ** One iteration, from fetch to the advance of [pc] *)

Lemma cycle_fetch p op0 f (m rs : list Z) o op :
  length m = 256%nat -> 0 <= p <= 255 -> m !! Z.to_nat p = Some op ->
  cycle false (mkCPU p op0 f m rs false o)
  = _execute_instruction (mkCPU p op f m rs false o).
Proof.
  intros Hl Hp Hop. unfold cycle.
  erewrite (bind_Ret get_interrupts_enabled) by reflexivity. cbn [interrupts_enabled].
  erewrite (bind_Ret (pure tt)) by reflexivity.
  unfold _read_instruction, _ram_read.
  rewrite bind_assoc. erewrite (bind_Ret get_pc) by reflexivity.
  rewrite bind_assoc.
  erewrite (bind_Ret (ram_get _))
    by (apply ram_get_Some; cbn [ram pc]; rewrite getitem_nonneg by lia; exact Hop).
  erewrite (bind_Ret (set_ir _)) by reflexivity.
  erewrite (bind_Ret (pure tt)) by reflexivity.
  reflexivity.
Qed.

Lemma operand_a_at p i f (m rs : list Z) ie o a :
  length m = 256%nat -> 0 <= p <= 254 -> m !! Z.to_nat (p + 1) = Some a ->
  _operand_a (mkCPU p i f m rs ie o) = Ret a (mkCPU p i f m rs ie o).
Proof.
  intros Hl Hp Ha. unfold _operand_a.
  erewrite (bind_Ret get_pc) by reflexivity.
  apply ram_get_Some. cbn [ram pc]. rewrite getitem_nonneg by lia. exact Ha.
Qed.

Lemma operand_b_at p i f (m rs : list Z) ie o b :
  length m = 256%nat -> 0 <= p <= 253 -> m !! Z.to_nat (p + 2) = Some b ->
  _operand_b (mkCPU p i f m rs ie o) = Ret b (mkCPU p i f m rs ie o).
Proof.
  intros Hl Hp Hb. unfold _operand_b.
  erewrite (bind_Ret get_pc) by reflexivity.
  apply ram_get_Some. cbn [ram pc]. rewrite getitem_nonneg by lia. exact Hb.
Qed.

Lemma reg_get_at p i f (m rs : list Z) ie o r a :
  length rs = 8%nat -> 0 <= r < 8 -> rs !! Z.to_nat r = Some a ->
  reg_get r (mkCPU p i f m rs ie o) = Ret a (mkCPU p i f m rs ie o).
Proof.
  intros Hl Hr Ha. apply reg_get_Some. cbn [reg].
  rewrite getitem_nonneg by lia. exact Ha.
Qed.

Lemma reg_set_at p i f (m rs : list Z) ie o r v :
  length rs = 8%nat -> 0 <= r < 8 ->
  reg_set r v (mkCPU p i f m rs ie o)
  = Ret tt (mkCPU p i f m (<[Z.to_nat r := v]> rs) ie o).
Proof.
  intros Hl Hr. unfold reg_set. cbn [reg].
  rewrite setitem_nonneg by lia. reflexivity.
Qed.

Lemma cycle_decode_cases (s : CPU) (op r i a : Z) :
  well_shaped s -> interrupts_enabled s = false -> 0 <= pc s <= 253 ->
  ram s !! Z.to_nat (pc s) = Some op ->
  ram s !! Z.to_nat (pc s + 1) = Some r ->
  ram s !! Z.to_nat (pc s + 2) = Some i ->
  0 <= r < 8 -> reg s !! Z.to_nat r = Some a ->
  (op = 0x82 ->
   cycle false s
   = Ret tt (with_pc (pc s + 3)
               (with_reg (<[Z.to_nat r := Z.land 0xFF i]> (reg s)) (with_ir op s)))) /\
  (op = 0xA6 ->
   cycle false s
   = Ret tt (with_pc (pc s + 3)
               (with_reg (<[Z.to_nat r := Z.land (a + i) 0xFF]> (reg s)) (with_ir op s)))) /\
  (op = 0x54 -> cycle false s = Ret tt (with_pc a (with_ir op s))) /\
  (op = 0x00 -> cycle false s = Ret tt (with_pc (pc s + 1) (with_ir op s))) /\
  (op = 0x01 -> cycle false s = Exit 0 (with_ir op s)).
Proof.
  intros [Hram Hreg] Hie Hpc Hop Hr Hi Hrr Ha.
  destruct s as [p op0 f m rs ie o]. cbn [pc ram reg interrupts_enabled] in *. subst ie.
  rewrite (cycle_fetch p op0 f m rs o op Hram ltac:(lia) Hop).
  split; [|split; [|split; [|split]]]; intros ->.
  - change (_execute_instruction (mkCPU p 0x82 f m rs false o))
      with ((do _ <- binary _LDI;
             do i4 <- get_ir;
             if negb (Py.truthy (Z.land 0x10 i4)) then do q <- get_pc; set_pc (q + (1 + 2))
             else pure tt) (mkCPU p 0x82 f m rs false o)).
    unfold binary. rewrite !bind_assoc.
    rewrite (bind_Ret _ _ _ _ _ (operand_a_at p _ f m rs false o r Hram ltac:(lia) Hr)).
    rewrite bind_assoc.
    rewrite (bind_Ret _ _ _ _ _ (operand_b_at p _ f m rs false o i Hram ltac:(lia) Hi)).
    unfold _LDI.
    rewrite (bind_Ret _ _ _ _ _ (reg_set_at p _ f m rs false o r _ Hreg Hrr)).
    reflexivity.
  - change (_execute_instruction (mkCPU p 0xA6 f m rs false o))
      with ((do _ <- binary _ALU_ADDi;
             do i4 <- get_ir;
             if negb (Py.truthy (Z.land 0x10 i4)) then do q <- get_pc; set_pc (q + (1 + 2))
             else pure tt) (mkCPU p 0xA6 f m rs false o)).
    unfold binary. rewrite !bind_assoc.
    rewrite (bind_Ret _ _ _ _ _ (operand_a_at p _ f m rs false o r Hram ltac:(lia) Hr)).
    rewrite bind_assoc.
    rewrite (bind_Ret _ _ _ _ _ (operand_b_at p _ f m rs false o i Hram ltac:(lia) Hi)).
    unfold _ALU_ADDi. rewrite bind_assoc.
    rewrite (bind_Ret _ _ _ _ _ (reg_get_at p _ f m rs false o r a Hreg Hrr Ha)).
    rewrite (bind_Ret _ _ _ _ _ (reg_set_at p _ f m rs false o r _ Hreg Hrr)).
    reflexivity.
  - change (_execute_instruction (mkCPU p 0x54 f m rs false o))
      with ((do _ <- unary _JMP;
             do i4 <- get_ir;
             if negb (Py.truthy (Z.land 0x10 i4)) then do q <- get_pc; set_pc (q + (1 + 1))
             else pure tt) (mkCPU p 0x54 f m rs false o)).
    unfold unary. rewrite !bind_assoc.
    rewrite (bind_Ret _ _ _ _ _ (operand_a_at p _ f m rs false o r Hram ltac:(lia) Hr)).
    unfold _JMP. rewrite bind_assoc.
    rewrite (bind_Ret _ _ _ _ _ (reg_get_at p _ f m rs false o r a Hreg Hrr Ha)).
    reflexivity.
  - reflexivity.
  - reflexivity.
Qed.

Lemma timer_check_raises (tick : bool) (s : CPU) :
  length (reg s) = 8%nat ->
  (if tick then raise_interrupt timer_interrupt_bit else pure tt : M unit) s
  = Ret tt (timer_check tick s).
Proof.
  intros Hl. destruct tick; [|reflexivity].
  destruct (lookup_lt_is_Some_2 (reg s) 6%nat) as [st Hst]; [lia|].
  unfold timer_check, timer_interrupt_bit. rewrite Hst. cbn [default].
  exact (raise_interrupt_nonneg s st 0 Hl Hst ltac:(lia)).
Qed.

Lemma iteration_returns (tick : bool) (s s1 : CPU) :
  length (reg s1) = 8%nat ->
  cycle false s = Ret tt s1 ->
  run false [tick] s = Ret tt (timer_check tick s1).
Proof.
  intros Hl Hc. cbn [run].
  rewrite (bind_Ret _ _ _ _ _ Hc), (bind_Ret _ _ _ _ _ (timer_check_raises tick s1 Hl)).
  reflexivity.
Qed.

(** X26. One iteration of the loop, decoded.  In a machine of 256 cells
    and 8 registers with interrupts disabled, tracing off and
    [pc <= 253], let the byte at [pc] be the opcode and the next two bytes
    r (a register number, 0..7) and i, and let [reg[r] = a]; the keyboard
    thread stores nothing meanwhile.  Then the whole iteration of [run]
    stores the opcode in [ir] and
    - LDI (0x82) sets [reg[r]] to [i & 0xFF] and moves [pc] by 3;
    - ADDi (0xA6) sets [reg[r]] to [(a + i) & 0xFF] and moves [pc] by 3;
    - JMP (0x54) sets [pc] to a and does not advance it;
    - NOP (0x00) moves [pc] by 1;
    after which, if the timer fires at the check that ends the iteration,
    bit 0 is ored into IS ([reg[6]]); nothing else is changed.
    HLT (0x01) exits with status 0 before the timer check, [pc] still
    addressing the HLT. *)
Theorem iteration_decodes_and_executes (tick : bool) (s : CPU) (op r i a : Z) :
  well_shaped s -> interrupts_enabled s = false -> 0 <= pc s <= 253 ->
  ram s !! Z.to_nat (pc s) = Some op ->
  ram s !! Z.to_nat (pc s + 1) = Some r ->
  ram s !! Z.to_nat (pc s + 2) = Some i ->
  0 <= r < 8 -> reg s !! Z.to_nat r = Some a ->
  (op = 0x82 ->
   run false [tick] s
   = Ret tt (timer_check tick
               (with_pc (pc s + 3)
                  (with_reg (<[Z.to_nat r := Z.land 0xFF i]> (reg s)) (with_ir op s))))) /\
  (op = 0xA6 ->
   run false [tick] s
   = Ret tt (timer_check tick
               (with_pc (pc s + 3)
                  (with_reg (<[Z.to_nat r := Z.land (a + i) 0xFF]> (reg s))
                     (with_ir op s))))) /\
  (op = 0x54 ->
   run false [tick] s = Ret tt (timer_check tick (with_pc a (with_ir op s)))) /\
  (op = 0x00 ->
   run false [tick] s = Ret tt (timer_check tick (with_pc (pc s + 1) (with_ir op s)))) /\
  (op = 0x01 -> run false [tick] s = Exit 0 (with_ir op s)).
Proof.
  intros Hs Hie Hpc Hop Hr Hi Hrr Ha.
  destruct (cycle_decode_cases s op r i a Hs Hie Hpc Hop Hr Hi Hrr Ha)
    as (HLDI & HADDi & HJMP & HNOP & HHLT).
  pose proof Hs as [Hram Hreg].
  split; [|split; [|split; [|split]]].
  - intros E. apply iteration_returns; [|exact (HLDI E)].
    cbn [reg with_pc with_reg]. rewrite length_insert. exact Hreg.
  - intros E. apply iteration_returns; [|exact (HADDi E)].
    cbn [reg with_pc with_reg]. rewrite length_insert. exact Hreg.
  - intros E. apply iteration_returns; [|exact (HJMP E)]. exact Hreg.
  - intros E. apply iteration_returns; [|exact (HNOP E)]. exact Hreg.
  - intros E. cbn [run]. apply bind_Exit. exact (HHLT E).
Qed.

Lemma iteration_decodes_and_executes_witness :
  run false [true] (with_interrupts_enabled false
                      (with_ram ([0x82; 0x00; 0x08] ++ replicate 253 0) init))
  = Ret tt (with_pc 3
              (with_reg [8; 0; 0; 0; 0; 0; 1; 0xF4]
                 (with_ir 0x82
                    (with_interrupts_enabled false
                       (with_ram ([0x82; 0x00; 0x08] ++ replicate 253 0) init))))).
Proof.
  exact (proj1 (iteration_decodes_and_executes true
                  (with_interrupts_enabled false
                     (with_ram ([0x82; 0x00; 0x08] ++ replicate 253 0) init))
                  0x82 0 8 0
                  (conj eq_refl eq_refl) eq_refl ltac:(simpl; lia)
                  eq_refl eq_refl eq_refl ltac:(lia) eq_refl) eq_refl).
Defined.

